(** * Verification of the print agent's rendering pipeline

    A shallow embedding of the content-to-device rendering code of the
    local print agent (src/print-formatter.js, src/local-print-agent.js and
    the formatter generations kept under src/unnamed/part_000), with the
    properties the specification states about it.

    Conventions.
    - A JavaScript string used as binary data (a sequence of ESC/POS bytes)
      is a [list Z] of its UTF-16 code units; text is a Rocq [string], one
      character per code unit below 256.
    - A [Uint8Array] or [Buffer] is a [list Z] of values in [0, 256).
    - A JavaScript [Number] that holds an integer is a [Z]; the one floating
      point computation of the code (the luma of a pixel) is carried out on
      binary64 floats, as the code does.
    - A function that can throw returns a [result]. *)

From Stdlib Require Import ZArith QArith String Ascii List Floats Uint63 Lia Bool.
From stdpp Require Import base option list strings gmap sorting pretty.

(** ** Exceptions *)

Inductive result (A : Type) : Type :=
| Ok (a : A)
| Throw (message : string).
Arguments Ok {A} a.
Arguments Throw {A} message.

Definition bind {A B : Type} (r : result A) (k : A -> result B) : result B :=
  match r with
  | Ok a => k a
  | Throw m => Throw m
  end.

Notation "'do' x <- r ; k" := (bind r (fun x => k))
  (at level 10, x name, r at level 100, k at level 200).

(** ** JavaScript values: JSON data, plain objects, JSON.stringify *)

Module Js.
Local Open Scope string_scope.

(** A value that JSON.parse can produce. The fields of an object are its
    own properties, kept in the order in which [Object.keys] and
    [JSON.stringify] enumerate them. A number [JNum n] is the integer
    [n]; the numbers of this development are integers below 10^21 in
    magnitude, which JavaScript prints as their decimal digits (see
    [plainNumbers]); fractions and larger numbers are not values of this
    type. *)
#[warnings="-register-all"]
Inductive json : Type :=
| JNull
| JBool (b : bool)
| JNum (n : Z)
| JStr (s : string)
| JArr (items : list json)
| JObj (fields : list (string * json)).

(** The keys of an object are distinct, at every depth. *)
#[warnings="-register-all"]
Inductive wfJson : json -> Prop :=
| WfNull : wfJson JNull
| WfBool b : wfJson (JBool b)
| WfNum n : wfJson (JNum n)
| WfStr s : wfJson (JStr s)
| WfArr items : Forall wfJson items -> wfJson (JArr items)
| WfObj fields :
    NoDup (map fst fields) ->
    Forall (fun kv => wfJson (snd kv)) fields ->
    wfJson (JObj fields).

(** Two values that are equal up to the order of the keys of their
    objects, at every depth. *)
#[warnings="-register-all"]
Inductive keyEquiv : json -> json -> Prop :=
| KeNull : keyEquiv JNull JNull
| KeBool b : keyEquiv (JBool b) (JBool b)
| KeNum n : keyEquiv (JNum n) (JNum n)
| KeStr s : keyEquiv (JStr s) (JStr s)
| KeArr items1 items2 :
    Forall2 keyEquiv items1 items2 -> keyEquiv (JArr items1) (JArr items2)
| KeObj fields1 fields2 reordered :
    Permutation fields2 reordered ->
    Forall2 (fun kv1 kv2 => fst kv1 = fst kv2 /\ keyEquiv (snd kv1) (snd kv2))
            fields1 reordered ->
    keyEquiv (JObj fields1) (JObj fields2).

(** *** Property access *)

(** [obj[key]] *)
Definition getProperty (fields : list (string * json)) (key : string) : option json :=
  snd <$> find (fun kv => String.eqb (fst kv) key) fields.

Definition hasKey (fields : list (string * json)) (key : string) : bool :=
  existsb (fun kv => String.eqb (fst kv) key) fields.

(** A key that is a canonical array index ("0", "7", "42", ... below
    2^32 - 1): such keys are enumerated first, in numeric order. *)
Definition digitValue (c : ascii) : option N :=
  let n := N_of_ascii c in
  if (48 <=? n)%N && (n <=? 57)%N then Some (n - 48)%N else None.

Fixpoint parseDigits (acc : N) (s : string) : option N :=
  match s with
  | EmptyString => Some acc
  | String c s' =>
    match digitValue c with
    | Some d => parseDigits (10 * acc + d)%N s'
    | None => None
    end
  end.

Definition arrayIndex (key : string) : option N :=
  match key with
  | EmptyString => None
  | _ =>
    match parseDigits 0 key with
    | Some n => if String.eqb (pretty n) key && (n <? 4294967295)%N then Some n else None
    | None => None
    end
  end.

Fixpoint replaceField (fields : list (string * json)) (key : string) (v : json)
    : list (string * json) :=
  match fields with
  | [] => []
  | (k, x) :: rest =>
    if String.eqb k key then (k, v) :: rest else (k, x) :: replaceField rest key v
  end.

Fixpoint insertIndex (fields : list (string * json)) (n : N) (key : string) (v : json)
    : list (string * json) :=
  match fields with
  | [] => [(key, v)]
  | (k, x) :: rest =>
    match arrayIndex k with
    | Some m => if (m <? n)%N then (k, x) :: insertIndex rest n key v
                else (key, v) :: (k, x) :: rest
    | None => (key, v) :: (k, x) :: rest
    end
  end.

(** [obj[key] = v] on a plain object: an existing property keeps its
    place, a new array index goes among the indices, any other new key
    goes last. *)
Definition setProperty (fields : list (string * json)) (key : string) (v : json)
    : list (string * json) :=
  if hasKey fields key then replaceField fields key v
  else match arrayIndex key with
       | Some n => insertIndex fields n key v
       | None => fields ++ [(key, v)]
       end.

(** [obj[key] = v] as an assignment to an object that inherits from
    Object.prototype. The key "__proto__" is the accessor property of
    Object.prototype unless the object has a property of that name of its
    own: the assignment then sets the prototype of the object (or does
    nothing, for a primitive value) and creates no property. *)
Definition isProto (key : string) : bool := String.eqb key "__proto__".

Definition assign (fields : list (string * json)) (key : string) (v : json)
    : list (string * json) :=
  if isProto key && negb (hasKey fields key) then fields
  else setProperty fields key v.

(** [{...target, ...source}]: every property of the source is defined on
    the copy as a property of its own, "__proto__" included. *)
Definition spread (target source : list (string * json)) : list (string * json) :=
  fold_left (fun acc kv => setProperty acc (fst kv) (snd kv)) source target.

(** [value || fallback] for a property that holds a number or is missing:
    [undefined], [null], [0], [""] and [false] are falsy. *)
Definition truthy (v : json) : bool :=
  match v with
  | JNull => false
  | JBool b => b
  | JNum n => negb (n =? 0)%Z
  | JStr s => negb (String.eqb s "")
  | JArr _ | JObj _ => true
  end.

Definition orElse (v : option json) (fallback : json) : json :=
  match v with
  | Some x => if truthy x then x else fallback
  | None => fallback
  end.

(** *** JSON.stringify *)

Definition hexDigit (n : nat) : ascii :=
  ascii_of_nat (if (n <? 10)%nat then 48 + n else 87 + n).

(** QuoteJSONString, one character at a time. *)
Definition quoteChar (c : ascii) : string :=
  let n := nat_of_ascii c in
  if (n =? 8)%nat then "\b"
  else if (n =? 9)%nat then "\t"
  else if (n =? 10)%nat then "\n"
  else if (n =? 12)%nat then "\f"
  else if (n =? 13)%nat then "\r"
  else if (n =? 34)%nat then String "\" (String c EmptyString)
  else if (n =? 92)%nat then "\\"
  else if (n <? 32)%nat
       then "\u00" ++ String (hexDigit (n / 16)) (String (hexDigit (n mod 16)) EmptyString)
  else String c EmptyString.

Fixpoint quoteBody (s : string) : string :=
  match s with
  | EmptyString => EmptyString
  | String c s' => quoteChar c ++ quoteBody s'
  end.

Definition dquote : string := String (ascii_of_nat 34) EmptyString.

Definition quote (s : string) : string := dquote ++ quoteBody s ++ dquote.

(** [parts.join(sep)] *)
Fixpoint join (sep : string) (parts : list string) : string :=
  match parts with
  | [] => ""
  | [p] => p
  | p :: rest => p ++ sep ++ join sep rest
  end.

(** [JSON.stringify(v)] without indentation. An integer below 10^21 in
    magnitude prints as its decimal digits. *)
Fixpoint stringify (v : json) : string :=
  match v with
  | JNull => "null"
  | JBool true => "true"
  | JBool false => "false"
  | JNum n => pretty n
  | JStr s => quote s
  | JArr items => "[" ++ join "," (map stringify items) ++ "]"
  | JObj fields =>
    "{" ++ join "," (map (fun '(k, v) => quote k ++ ":" ++ stringify v) fields) ++ "}"
  end.

(** The numbers of a value are integers that JavaScript prints as their
    decimal digits: below 10^21 in magnitude. *)
Definition plainNumber (n : Z) : bool := (Z.abs n <? 10 ^ 21)%Z.

Fixpoint plainNumbers (v : json) : bool :=
  match v with
  | JNum n => plainNumber n
  | JArr items => forallb plainNumbers items
  | JObj fields => forallb (fun kv => plainNumbers (snd kv)) fields
  | _ => true
  end.

(** A value without the properties named "__proto__" of its objects, at
    every depth. *)
Fixpoint withoutProto (v : json) : json :=
  match v with
  | JArr items => JArr (map withoutProto items)
  | JObj fields =>
    JObj (filter (fun kv => isProto (fst kv) = false)
                 (map (fun '(k, v) => (k, withoutProto v)) fields))
  | other => other
  end.

(** *** Reading a printed value back *)

(** The character classes that tell the kinds of printed values apart. *)
Definition isDigit (c : ascii) : bool :=
  let n := nat_of_ascii c in (48 <=? n)%nat && (n <=? 57)%nat.

Fixpoint allDigits (s : string) : bool :=
  match s with
  | EmptyString => true
  | String c s' => isDigit c && allDigits s'
  end.

(** A text that cannot continue a number: it is empty or starts with
    something else than a digit. *)
Definition noDigitHead (s : string) : Prop :=
  match s with
  | EmptyString => True
  | String c _ => isDigit c = false
  end.

Inductive kind : Type := KNull | KTrue | KFalse | KNumber | KString | KArray | KObject | KOther.

Definition kindOf (v : json) : kind :=
  match v with
  | JNull => KNull
  | JBool true => KTrue
  | JBool false => KFalse
  | JNum _ => KNumber
  | JStr _ => KString
  | JArr _ => KArray
  | JObj _ => KObject
  end.

(** The kind a printed value must have, from its first character. *)
Definition kindOfHead (s : string) : kind :=
  match s with
  | EmptyString => KOther
  | String c _ =>
    if Ascii.eqb c "n" then KNull
    else if Ascii.eqb c "t" then KTrue
    else if Ascii.eqb c "f" then KFalse
    else if isDigit c || Ascii.eqb c "-" then KNumber
    else if Ascii.eqb c (ascii_of_nat 34) then KString
    else if Ascii.eqb c "[" then KArray
    else if Ascii.eqb c "{" then KObject
    else KOther
  end.

Definition hexValue (c : ascii) : option nat :=
  let n := nat_of_ascii c in
  if (48 <=? n)%nat && (n <=? 57)%nat then Some (n - 48)%nat
  else if (97 <=? n)%nat && (n <=? 102)%nat then Some (n - 87)%nat
  else None.

(** The inverse of [quoteChar] at the head of a text. *)
Definition unquoteChar (s : string) : option (ascii * string) :=
  match s with
  | EmptyString => None
  | String c rest =>
    if Ascii.eqb c "\" then
      match rest with
      | EmptyString => None
      | String e rest' =>
        if Ascii.eqb e "b" then Some (ascii_of_nat 8, rest')
        else if Ascii.eqb e "t" then Some (ascii_of_nat 9, rest')
        else if Ascii.eqb e "n" then Some (ascii_of_nat 10, rest')
        else if Ascii.eqb e "f" then Some (ascii_of_nat 12, rest')
        else if Ascii.eqb e "r" then Some (ascii_of_nat 13, rest')
        else if Ascii.eqb e "u" then
          match rest' with
          | String _ (String _ (String h (String l rest''))) =>
            match hexValue h, hexValue l with
            | Some a, Some b => Some (ascii_of_nat (16 * a + b), rest'')
            | _, _ => None
            end
          | _ => None
          end
        else Some (e, rest')
      end
    else Some (c, rest)
  end.

(** What [join] adds after its first part. *)
Fixpoint joinRest (parts : list string) : string :=
  match parts with
  | [] => ""
  | p :: rest => "," ++ p ++ joinRest rest
  end.

End Js.

(** ** The rasterizer: convertHTMLToImageNode and formatImageForPrinter *)

Module Raster.

(** The object convertHTMLToImageNode returns and the caches keep. *)
Record imageResult : Type := {
  imageData : list Z;       (* the PNG screenshot *)
  width : nat;
  height : nat;
  monochromeData : list Z   (* Uint8Array *)
}.

(** What the headless browser and the canvas hand to the conversion loop:
    the screenshot, the decoded image's dimensions and its RGBA samples
    ([ctx.getImageData(...).data], a Uint8ClampedArray). The dimensions
    are those of an image that node-canvas has loaded (its surfaces stop
    at 32767 pixels a side); the theorems that depend on a bound state
    it. *)
Record capture : Type := {
  imageBuffer : list Z;
  imageWidth : nat;
  imageHeight : nat;
  pixels : list Z
}.

Definition capture_wf (c : capture) : Prop :=
  length (pixels c) = (4 * (imageWidth c * imageHeight c))%nat /\
  Forall (fun v => (0 <= v < 256)%Z) (pixels c).

(** [Math.ceil(width / 8)] *)
Definition widthBytes (width : nat) : nat := (width + 7) / 8.

(** [0.299 * r + 0.587 * g + 0.114 * b], evaluated left to right in
    binary64 arithmetic. *)
#[warnings="-inexact-float"]
Definition gray (r g b : Z) : float :=
  (0.299 * of_uint63 (Uint63.of_Z r)
   + 0.587 * of_uint63 (Uint63.of_Z g)
   + 0.114 * of_uint63 (Uint63.of_Z b))%float.

(** [gray < 128 ? 1 : 0] for the pixel at (x, y). A sample read past the
    end of [pixels] is [undefined], the sum is NaN and the test is false. *)
Definition pixelBit (width : nat) (pixels : list Z) (x y : nat) : bool :=
  let idx := ((y * width + x) * 4)%nat in
  match pixels !! idx, pixels !! (idx + 1)%nat, pixels !! (idx + 2)%nat with
  | Some r, Some g, Some b => PrimFloat.ltb (gray r g b) 128
  | _, _, _ => false
  end.

(** [monochromeData[byteIdx] |= 1 << bitPos] on a Uint8Array: the stored
    value is taken modulo 256, and a write past the end is dropped. *)
Definition setBit (mono : list Z) (byteIdx bitPos : nat) : list Z :=
  match mono !! byteIdx with
  | Some old => <[byteIdx := (Z.lor old (Z.shiftl 1 (Z.of_nat bitPos)) mod 256)%Z]> mono
  | None => mono
  end.

(** The body of the inner loop. *)
Definition processPixel (width : nat) (pixels : list Z) (y : nat)
    (mono : list Z) (x : nat) : list Z :=
  let byteIdx := (y * widthBytes width + x / 8)%nat in
  let bitPos := (7 - x mod 8)%nat in
  if pixelBit width pixels x y then setBit mono byteIdx bitPos else mono.

(** [for (let x = 0; x < width; x++)] *)
Definition processRow (width : nat) (pixels : list Z) (mono : list Z) (y : nat) : list Z :=
  fold_left (processPixel width pixels y) (seq 0 width) mono.

(** [new Uint8Array(widthBytes * height)] filled by the two loops. *)
Definition toMonochrome (width height : nat) (pixels : list Z) : list Z :=
  fold_left (processRow width pixels) (seq 0 height)
            (replicate (widthBytes width * height) 0%Z).

(** The part of convertHTMLToImageNode that follows the capture. *)
Definition convertCapture (c : capture) : imageResult :=
  {| imageData := imageBuffer c;
     width := imageWidth c;
     height := imageHeight c;
     monochromeData := toMonochrome (imageWidth c) (imageHeight c) (pixels c) |}.

(** [String.fromCharCode(n)] as a code unit. *)
Definition fromCharCode (n : Z) : Z := (n mod 65536)%Z.

(** ESC/POS bytes. *)
Definition ESC : Z := 27.
Definition GS : Z := 29.
Definition BEL : Z := 7.

(** formatImageForPrinter. [None] stands for a null or undefined argument;
    a Uint8Array is always truthy, so only the two dimensions can fail the
    validation once the object is there. *)
Definition formatImageForPrinter (imageResult : option imageResult) : result (list Z) :=
  match imageResult with
  | None => Throw "Invalid image data: missing required properties"
  | Some img =>
    if (width img =? 0)%nat || (height img =? 0)%nat
    then Throw "Invalid image data: missing required properties"
    else
      let widthBytes := Z.of_nat (widthBytes (width img)) in
      let xL := Z.land widthBytes 255 in
      let xH := Z.land (Z.shiftr widthBytes 8) 255 in
      let yL := Z.land (Z.of_nat (height img)) 255 in
      let yH := Z.land (Z.shiftr (Z.of_nat (height img)) 8) 255 in
      (* `${GS}v0\x00` followed by the four parameter bytes *)
      let cmd := [GS; 118; 48; 0; fromCharCode xL; fromCharCode xH;
                  fromCharCode yL; fromCharCode yH]%Z in
      Ok (cmd ++ map fromCharCode (monochromeData img))
  end.

(** The luma of the specification, over the rationals. *)
Definition lumaSpec (r g b : Z) : Q :=
  (0.299 * inject_Z r + 0.587 * inject_Z g + 0.114 * inject_Z b)%Q.

(** The comparison of the code against the comparison of the
    specification, for one colour given by its three samples as machine
    integers: they agree, or the luma is exactly 128. *)
#[warnings="-inexact-float"]
Definition agreesWithSpec (r g b : int) : bool :=
  let exact := (299 * r + 587 * g + 114 * b)%uint63 in
  if (exact =? 128000)%uint63 then true
  else Bool.eqb
         (PrimFloat.ltb (0.299 * of_uint63 r + 0.587 * of_uint63 g + 0.114 * of_uint63 b) 128)
         (exact <? 128000)%uint63.

(** The 256 values of a sample. *)
Definition sampleValues : list int :=
  map (fun n => Uint63.of_Z (Z.of_nat n)) (seq 0 256).

(** The check over all colours with samples in [values]. *)
Definition allAgree (values : list int) : bool :=
  forallb (fun r =>
    forallb (fun g =>
      forallb (fun b => agreesWithSpec r g b) values) values) values.

(** The bit of pixel (x, y) in a packed bitmap. *)
Definition bitAt (mono : list Z) (i k : nat) : bool :=
  match mono !! i with
  | Some v => Z.testbit v (Z.of_nat k)
  | None => false
  end.

(** Pixel (x, y) is dark and is stored at bit [k] of byte [i]. *)
Definition inkAt (width : nat) (pixels : list Z) (i k y x : nat) : bool :=
  pixelBit width pixels x y &&
  ((y * widthBytes width + x / 8 =? i)%nat && (7 - x mod 8 =? k)%nat).

(** How a printer reads the GS v 0 command back: the byte-width and the
    height it declares (each low byte first) and the payload behind them. *)
Definition declaredWidthBytes (cmd : list Z) : Z := (nth 4 cmd 0 + 256 * nth 5 cmd 0)%Z.
Definition declaredHeight (cmd : list Z) : Z := (nth 6 cmd 0 + 256 * nth 7 cmd 0)%Z.
Definition parameterBytes (cmd : list Z) : list Z := take 4 (drop 4 cmd).
Definition payload (cmd : list Z) : list Z := drop 8 cmd.

(** The four parameter bytes in the words of the specification:
    ceil(width/8) mod 256, floor(ceil(width/8)/256), height mod 256,
    floor(height/256). *)
Definition parameterBytesSpec (img : imageResult) : list Z :=
  let wb := Z.of_nat (widthBytes (width img)) in
  let h := Z.of_nat (height img) in
  [wb mod 256; wb / 256; h mod 256; h / 256]%Z.

(** A mid-grey pixel: a capture of one pixel with R = G = B = 128. *)
Definition greyCapture : capture :=
  {| imageBuffer := []; imageWidth := 1; imageHeight := 1;
     pixels := [128; 128; 128; 255]%Z |}.

End Raster.

(** ** The device codec: cut commands and the TCP hand-over *)

Module Codec.
Import Raster.

(** [data.startsWith(pattern)] and [data.includes(pattern)] on code units. *)
Fixpoint startsWith (pattern data : list Z) : bool :=
  match pattern, data with
  | [], _ => true
  | _ :: _, [] => false
  | p :: pattern', d :: data' => (p =? d)%Z && startsWith pattern' data'
  end.

Fixpoint includes (data pattern : list Z) : bool :=
  startsWith pattern data ||
  match data with
  | [] => false
  | _ :: data' => includes data' pattern
  end.

(** The number of positions at which [pattern] occurs in [data]. *)
Fixpoint occurrences (pattern data : list Z) : nat :=
  ((if startsWith pattern data then 1 else 0) +
   match data with
   | [] => 0
   | _ :: data' => occurrences pattern data'
   end)%nat.

(** printToTCPPrinter (src/local-print-agent.js): the test on [data]. *)
Definition hasCutCommand (data : list Z) : bool :=
  includes data [27; 100]%Z      (* ESC d *)
  || includes data [27; 86]%Z    (* ESC V *)
  || includes data [29; 86]%Z.   (* GS V *)

(** [Buffer.from(data, "binary")]: the low byte of every code unit. *)
Definition bufferFromBinary (data : list Z) : list Z :=
  map (fun c => (c mod 256)%Z) data.

(** [Buffer.from([0x1d, 0x56, 0x41, 0x10])]: GS V A 16. *)
Definition cutCommand : list Z := [29; 86; 65; 16]%Z.

(** The buffer printToTCPPrinter writes to the socket. *)
Definition finalBuffer (data : list Z) : list Z :=
  let buffer := bufferFromBinary data in
  if negb (hasCutCommand data) then buffer ++ cutCommand else buffer.




(** printAsImage of src/print-formatter.js: INIT, the image, BEEP, one
    line feed, then FEED_AND_CUT = ESC d 3 followed by GS V 0x42 3. *)
Definition printAsImage_output (printCommands : list Z) : list Z :=
  let INIT := [ESC; 64]%Z in
  let CUT_FULL_FEED := [GS; 86; 66; 3]%Z in
  let BEEP := [ESC; 66; 2; 1]%Z in
  let FEED_AND_CUT := [ESC; 100; 3]%Z ++ CUT_FULL_FEED in
  INIT ++ printCommands ++ BEEP ++ [10]%Z ++ FEED_AND_CUT.

(** addCuttingCommands of src/unnamed/part_000, used by the text path:
    feed three lines, two bells, one full cut. *)
Definition addCuttingCommands (content : list Z) : list Z :=
  content ++ [ESC; 100; 3]%Z ++ [BEL; BEL]%Z ++ [GS; 86; 0]%Z.

(** The end of printContentAsImage of src/unnamed/part_000: INIT, the
    image, a feed of eight lines, the beeps, then a full cut and a partial
    cut. *)
Definition printContentAsImage_output (printCommands : list Z) : list Z :=
  let INIT := [ESC; 64]%Z in
  INIT ++ printCommands
  ++ [ESC; 100; 8]%Z
  ++ [BEL; BEL]%Z ++ [ESC; 66; 3; 3; 1]%Z
  ++ [GS; 86; 0]%Z
  ++ [GS; 86; 65; 3]%Z.





End Codec.

(** ** Tickets: the status indicator of an item *)

Module Ticket.
Local Open Scope string_scope.

(** [String.prototype.toLowerCase] on a character below 256: the letters
    A-Z (65-90) and the Latin-1 capitals 192-222, the multiplication sign
    215 apart, move to their small letter 32 places up; every other
    character is kept. *)
Definition lowerChar (c : ascii) : ascii :=
  let n := nat_of_ascii c in
  if ((65 <=? n)%nat && (n <=? 90)%nat)
     || ((192 <=? n)%nat && (n <=? 222)%nat && negb (n =? 215)%nat)
  then ascii_of_nat (n + 32) else c.

(** [String.prototype.toUpperCase] on a one-character string below 256:
    the letters a-z (97-122) and the Latin-1 small letters 224-254, the
    division sign 247 apart, move to their capital 32 places down; the
    sharp s (223) becomes "SS"; every other character is kept. The micro
    sign (181) and the y with diaeresis (255), whose capitals are code
    units above 255, are kept as well: a text that holds one of them is
    outside the strings of this development. *)
Definition upperChar (c : ascii) : string :=
  let n := nat_of_ascii c in
  if (n =? 223)%nat then "SS"
  else if ((97 <=? n)%nat && (n <=? 122)%nat)
          || ((224 <=? n)%nat && (n <=? 254)%nat && negb (n =? 247)%nat)
  then String (ascii_of_nat (n - 32)) EmptyString
  else String c EmptyString.

Fixpoint toUpperCase (s : string) : string :=
  match s with
  | EmptyString => EmptyString
  | String c s' => upperChar c ++ toUpperCase s'
  end.

Fixpoint toLowerCase (s : string) : string :=
  match s with
  | EmptyString => EmptyString
  | String c s' => String (lowerChar c) (toLowerCase s')
  end.

(** getStatusIndicator: the same switch in src/print-formatter.js and in
    both classes of src/unnamed/part_000. On every string of code units
    below 256 it takes the branch the code takes: the capitals of 181 and
    255 are no letters of the five keywords. *)
Definition getStatusIndicator (status : string) : string :=
  let upper := toUpperCase status in
  if String.eqb upper "NEW" then "N"
  else if String.eqb upper "MODIFIED" then "M"
  else if String.eqb upper "CANCEL" then "C"
  else if String.eqb upper "CANCELLED" then "C"
  else if String.eqb upper "REPEAT" then "R"
  else "".

(** An item of a ticket as a job carries it: each of [name], [quantity]
    and [status] may be missing; a name or a status that is there is a
    string, a quantity an integer. *)
Record item : Type := {
  name : option string;
  quantity : option Z;
  status : option string
}.

(** [item.status || ""] *)
Definition statusOrEmpty (i : item) : string :=
  match status i with
  | Some s => s
  | None => ""
  end.

(** The item callback of formatKOTToHTML:
    [statusIndicator = this.getStatusIndicator(item.status || "")] and
    [statusDisplay = statusIndicator ? `[${statusIndicator}]` : ""]. *)
Definition statusIndicator (i : item) : string := getStatusIndicator (statusOrEmpty i).

Definition statusDisplay (i : item) : string :=
  let statusIndicator := statusIndicator i in
  if String.eqb statusIndicator "" then "" else "[" ++ statusIndicator ++ "]".

(** The same computation in formatKOTContent and formatKOTTable:
    [if (item.status) { ... if (statusIndicator) statusDisplay = ... }]. *)
Definition statusDisplayText (i : item) : string :=
  match status i with
  | None => ""
  | Some s =>
    if String.eqb s "" then ""
    else
      let statusIndicator := getStatusIndicator s in
      if String.eqb statusIndicator "" then "" else "[" ++ statusIndicator ++ "]"
  end.



(** The double quote and the line feed of the markup templates. *)
Definition dquote : string := String "034" EmptyString.








End Ticket.

(** ** The formatter of src/print-formatter.js: configuration, content
       fingerprint, the two cache tiers and printContentAsImage *)

Module Formatter.
Import Js Raster.
Local Open Scope string_scope.

(** [this.cacheConfig] *)
Record cacheConfig : Type := {
  enabled : bool;
  maxAge : Z;            (* milliseconds *)
  persistToDisk : bool
}.

(** The cache configuration the constructor installs: 24 hours. *)
Definition defaultCacheConfig : cacheConfig :=
  {| enabled := true; maxAge := 24 * 60 * 60 * 1000; persistToDisk := true |}.

(** [options.cacheConfig]: the fields the caller overrides. *)
Record cacheConfigUpdate : Type := {
  newEnabled : option bool;
  newMaxAge : option Z;
  newPersistToDisk : option bool
}.

(** [{...this.cacheConfig, ...cacheConfig}] *)
Definition updateCacheConfig (c : cacheConfig) (u : cacheConfigUpdate) : cacheConfig :=
  {| enabled := default (enabled c) (newEnabled u);
     maxAge := default (maxAge c) (newMaxAge u);
     persistToDisk := default (persistToDisk c) (newPersistToDisk u) |}.

(** A record of the durable tier, as saveCacheToDisk writes it: the time
    of writing and the image. (The two buffers are stored in base64 and
    decoded on reading, which gives the same bytes back.) *)
Record cacheEntry : Type := {
  timestamp : Z;
  entryImage : imageResult
}.

(** The content of a file of the cache directory: a record, or text that
    JSON.parse rejects. *)
Inductive file : Type :=
| CacheFile (entry : cacheEntry)
| Unreadable.

(** The formatter object. *)
Record formatter : Type := {
  config : list (string * json);
  cacheSettings : cacheConfig;
  imageCache : gmap string imageResult
}.

(** [options] of printContentAsImage. *)
Record options : Type := {
  printerConfig : option (list (string * json));
  cacheConfigOption : option cacheConfigUpdate;
  skipCache : bool
}.

Definition noOptions : options :=
  {| printerConfig := None; cacheConfigOption := None; skipCache := false |}.

(** The constructor's [this.config]:
    [{lineWidth: config.lineWidth || 384, deviceScaleFactor: ... || 1,
      fontSize: ... || 24, ...config}]. *)
Definition initialConfig (config : list (string * json)) : list (string * json) :=
  spread [("lineWidth", orElse (getProperty config "lineWidth") (JNum 384));
          ("deviceScaleFactor", orElse (getProperty config "deviceScaleFactor") (JNum 1));
          ("fontSize", orElse (getProperty config "fontSize") (JNum 24))]
         config.

Definition construct (config : list (string * json)) : formatter :=
  {| config := initialConfig config;
     cacheSettings := defaultCacheConfig;
     imageCache := ∅ |}.

(** updateConfig: [{...this.config, ...newConfig}] *)
Definition updateConfig (f : formatter) (newConfig : list (string * json)) : formatter :=
  {| config := spread (config f) newConfig;
     cacheSettings := cacheSettings f;
     imageCache := imageCache f |}.

(** [path.join(this.cacheDir, `${hash}.json`)], relative to the cache
    directory. *)
Definition cachePath (hash : string) : string := hash ++ ".json".

(** sortObjectKeys. The values are canonicalized first and then looked up
    key by key in sorted order, as [reduce] does with [obj[key]]; each is
    assigned to the result, which starts as [{}], so that a key
    "__proto__" of the content leaves no property in the result. *)
Fixpoint sortObjectKeys (obj : json) : json :=
  match obj with
  | JArr items => JArr (map sortObjectKeys items)
  | JObj fields =>
    let values := map (fun '(k, v) => (k, sortObjectKeys v)) fields in
    JObj (fold_left
            (fun result key =>
               match getProperty values key with
               | Some v => assign result key v
               | None => result
               end)
            (merge_sort String.le (map fst fields))
            [])
  | other => other
  end.

(** The string generateContentHash digests:
    [JSON.stringify({content: this.sortObjectKeys(content), type, config: this.config})]. *)
Definition contentString (config : list (string * json)) (content : json) (type : string)
    : string :=
  stringify (JObj [("content", sortObjectKeys content);
                   ("type", JStr type);
                   ("config", JObj config)]).

(** The same string in generateContentHash of src/unnamed/part_000, which
    passes [content] to JSON.stringify as it is. *)
Definition contentStringUnsorted (config : list (string * json)) (content : json)
    (type : string) : string :=
  stringify (JObj [("content", content); ("type", JStr type); ("config", JObj config)]).

(** loadCacheFromDisk at time [now]: the result and the cache directory
    afterwards. An unreadable file makes JSON.parse throw, which the
    function catches. *)
Definition loadCacheFromDisk (c : cacheConfig) (now : Z) (hash : string)
    (disk : gmap string file) : option imageResult * gmap string file :=
  match disk !! cachePath hash with
  | None => (None, disk)
  | Some Unreadable => (None, disk)
  | Some (CacheFile cacheData) =>
    if (now - timestamp cacheData >? maxAge c)%Z
    then (None, delete (cachePath hash) disk)
    else (Some (entryImage cacheData), disk)
  end.

(** saveCacheToDisk at time [now]. *)
Definition saveCacheToDisk (now : Z) (hash : string) (img : imageResult)
    (disk : gmap string file) : gmap string file :=
  <[cachePath hash := CacheFile {| timestamp := now; entryImage := img |}]> disk.

(** What a call leaves behind: the content object, the formatter and the
    cache directory. *)
Record state : Type := {
  content : list (string * json);
  self : formatter;
  disk : gmap string file
}.

(** The first two steps of printContentAsImage:
    [if (options.printerConfig) this.updateConfig(options.printerConfig)] and
    [if (options.cacheConfig) this.updateCacheConfig(options.cacheConfig)]. *)
Definition applyOptions (f : formatter) (options : options) : formatter :=
  let f1 := match printerConfig options with
            | Some pc => updateConfig f pc
            | None => f
            end in
  match cacheConfigOption options with
  | Some cc => {| config := config f1;
                  cacheSettings := updateCacheConfig (cacheSettings f1) cc;
                  imageCache := imageCache f1 |}
  | None => f1
  end.

Section Pipeline.

(** SHA-256 with a hexadecimal digest (Node's crypto). *)
Variable sha256hex : string -> string.

(** The headless browser and the canvas: the capture of a markup document
    under a configuration, or the error they raise. *)
Variable capturePage : list (string * json) -> string -> result capture.

(** The two markup templates, formatKOTToHTML and formatBillToHTML: they
    read the configuration and the content and build a string. *)
Variable formatKOTToHTML : list (string * json) -> json -> result string.
Variable formatBillToHTML : list (string * json) -> json -> result string.

(** The clock: [Date.now()] when the durable tier is read and when it is
    written. *)
Variable nowRead nowWrite : Z.

Definition generateContentHash (f : formatter) (content : json) (type : string) : string :=
  sha256hex (contentString (config f) content type).

Definition formatToHTML (f : formatter) (content : json) (type : string) : result string :=
  if String.eqb (Ticket.toLowerCase type) "kot" then formatKOTToHTML (config f) content
  else if String.eqb (Ticket.toLowerCase type) "bill" then formatBillToHTML (config f) content
  else Throw ("Unsupported format type: " ++ type).

Definition convertHTMLToImageNode (f : formatter) (htmlContent : string) : result imageResult :=
  do c <- capturePage (config f) htmlContent;
  Ok (convertCapture c).

Definition cacheSet (f : formatter) (hash : string) (img : imageResult) : formatter :=
  {| config := config f;
     cacheSettings := cacheSettings f;
     imageCache := <[hash := img]> (imageCache f) |}.

(** The catch clause: [throw new Error(`Failed to print ${type}: ${error.message}`)]. *)
Definition failed {A : Type} (type : string) (r : result A) : result A :=
  match r with
  | Ok a => Ok a
  | Throw message => Throw ("Failed to print " ++ type ++ ": " ++ message)
  end.

(** printContentAsImage(content, type, options): the commands it returns
    or the error it throws, and the state it leaves. *)
Definition printContentAsImage (s : state) (type : string) (options : options)
    : result (list Z) * state :=
  let f2 := applyOptions (self s) options in
  (* content._printMethod = "html-image" *)
  let content' := setProperty (content s) "_printMethod" (JStr "html-image") in
  let contentHash := generateContentHash f2 (JObj content') type in
  let useCache := enabled (cacheSettings f2) && negb (skipCache options) in
  let '(cached, f3, disk3) :=
    if useCache then
      match imageCache f2 !! contentHash with
      | Some img => (Some img, f2, disk s)
      | None =>
        if persistToDisk (cacheSettings f2) then
          match loadCacheFromDisk (cacheSettings f2) nowRead contentHash (disk s) with
          | (Some img, d) => (Some img, cacheSet f2 contentHash img, d)
          | (None, d) => (None, f2, d)
          end
        else (None, f2, disk s)
      end
    else (None, f2, disk s) in
  match cached with
  | Some img =>
    (failed type (formatImageForPrinter (Some img)),
     {| content := content'; self := f3; disk := disk3 |})
  | None =>
    match formatToHTML f3 (JObj content') type with
    | Throw m => (failed type (Throw m), {| content := content'; self := f3; disk := disk3 |})
    | Ok htmlContent =>
      match convertHTMLToImageNode f3 htmlContent with
      | Throw m => (failed type (Throw m), {| content := content'; self := f3; disk := disk3 |})
      | Ok img =>
        let f4 := if useCache then cacheSet f3 contentHash img else f3 in
        let disk4 := if useCache && persistToDisk (cacheSettings f3)
                     then saveCacheToDisk nowWrite contentHash img disk3 else disk3 in
        (failed type (formatImageForPrinter (Some img)),
         {| content := content'; self := f4; disk := disk4 |})
      end
    end
  end.

End Pipeline.

(** *** Sample data *)

(** A ticket as the job-intake layer hands it over, and the same ticket
    with the keys of its objects in another order. *)
Definition sampleTicket : list (string * json) :=
  [("header", JObj [("kotType", JStr "NEW ORDER"); ("kotNumber", JStr "17")]);
   ("items", JArr [JObj [("name", JStr "Tea"); ("quantity", JNum 2);
                         ("status", JStr "NEW")]])].

Definition sampleTicketReordered : list (string * json) :=
  [("items", JArr [JObj [("status", JStr "NEW"); ("name", JStr "Tea");
                         ("quantity", JNum 2)]]);
   ("header", JObj [("kotNumber", JStr "17"); ("kotType", JStr "NEW ORDER")])].

(** The two smaller paper profiles of src/local-print-agent.js, as far as
    the image path reads them. *)
Definition profile58 : list (string * json) :=
  [("lineWidth", JNum 384); ("charsPerLine", JNum 32)].
Definition profile80 : list (string * json) :=
  [("lineWidth", JNum 576); ("charsPerLine", JNum 48)].

(** A one-pixel image and a cache directory that holds it under the
    fingerprint "abc", written at time 1000. *)
Definition sampleImage : imageResult := convertCapture greyCapture.

Definition sampleEntry : cacheEntry := {| timestamp := 1000; entryImage := sampleImage |}.

Definition sampleDisk : gmap string file := {[ cachePath "abc" := CacheFile sampleEntry ]}.

(** Stand-ins for the collaborators of the pipeline, to run it on the
    sample data: a digest that returns a fixed fingerprint, a browser that
    always captures the grey pixel, and templates that return a fixed
    document. *)
Definition constantDigest (s : string) : string := "abc".
Definition greyBrowser (config : list (string * json)) (html : string) : result capture :=
  Ok greyCapture.
Definition fixedTemplate (config : list (string * json)) (content : json) : result string :=
  Ok "<html></html>".
Definition fixedLayout (config : list (string * json)) (content : json) : result (list Z) :=
  Ok [72; 105; 10]%Z.

(** The state in which a fresh formatter receives the sample ticket. *)
Definition sampleState : state :=
  {| content := sampleTicket; self := construct []; disk := ∅ |}.

End Formatter.

(** ** The formatter of src/unnamed/part_000 (first class): printContent,
       the text path and its own image path *)

Module TextFormatter.
Import Js Raster.
Local Open Scope string_scope.

(** The cache tiers, loadCacheFromDisk, saveCacheToDisk, updateConfig and
    updateCacheConfig are the same in both files. *)
Definition formatter : Type := Formatter.formatter.
Definition state : Type := Formatter.state.

(** [options] of printContent. *)
Record options : Type := {
  printMethod : option string;
  printerConfig : option (list (string * json));
  cacheConfigOption : option Formatter.cacheConfigUpdate;
  skipCache : bool
}.

(** The constructor's [this.config]: the three fields of
    src/print-formatter.js and five more, then the caller's own. *)
Definition initialConfig (config : list (string * json)) : list (string * json) :=
  spread [("lineWidth", orElse (getProperty config "lineWidth") (JNum 384));
          ("deviceScaleFactor", orElse (getProperty config "deviceScaleFactor") (JNum 1));
          ("fontSize", orElse (getProperty config "fontSize") (JNum 24));
          ("charsPerLine", orElse (getProperty config "charsPerLine") (JNum 32));
          ("normalSize", orElse (getProperty config "normalSize") (JNum 0));
          ("largeSize", orElse (getProperty config "largeSize") (JNum 24));
          ("mediumSize", orElse (getProperty config "mediumSize") (JNum 16));
          ("smallSize", orElse (getProperty config "smallSize") (JNum 0))]
         config.

Definition construct (config : list (string * json)) : formatter :=
  {| Formatter.config := initialConfig config;
     Formatter.cacheSettings := Formatter.defaultCacheConfig;
     Formatter.imageCache := ∅ |}.

Section Pipeline.

Variable sha256hex : string -> string.
Variable capturePage : list (string * json) -> string -> result capture.
Variable formatKOTToHTML : list (string * json) -> json -> result string.
Variable formatBillToHTML : list (string * json) -> json -> result string.
Variable nowRead nowWrite : Z.

(** The two text layouts, formatKOTContent and formatBillContent: they
    read the configuration and the content and build a string of text and
    control codes. *)
Variable formatKOTContent : list (string * json) -> json -> result (list Z).
Variable formatBillContent : list (string * json) -> json -> result (list Z).

(** generateContentHash: the content goes to JSON.stringify as it is. (The
    catch clause answers a failure of JSON.stringify, which a value made of
    JSON data does not cause.) *)
Definition generateContentHash (f : formatter) (content : json) (type : string) : string :=
  sha256hex (Formatter.contentStringUnsorted (Formatter.config f) content type).

(** printContentAsText: the layout for the type, then the cutting
    commands. *)
Definition printContentAsText (f : formatter) (content : json) (type : string)
    : result (list Z) :=
  do formattedContent <-
     (if String.eqb (Ticket.toLowerCase type) "kot"
      then formatKOTContent (Formatter.config f) content
      else if String.eqb (Ticket.toLowerCase type) "bill"
      then formatBillContent (Formatter.config f) content
      else Throw ("Unsupported format type: " ++ type));
  Ok (Codec.addCuttingCommands formattedContent).

(** printContentAsImage: as in src/print-formatter.js, but it neither
    updates the configuration nor marks the content, it digests the
    content unsorted, and it frames the image command with INIT, a feed,
    beeps and two cuts. *)
Definition printContentAsImage (f : formatter) (disk : gmap string Formatter.file)
    (content : json) (type : string) (options : options)
    : result (list Z) * formatter * gmap string Formatter.file :=
  let f2 := match cacheConfigOption options with
            | Some cc =>
              {| Formatter.config := Formatter.config f;
                 Formatter.cacheSettings :=
                   Formatter.updateCacheConfig (Formatter.cacheSettings f) cc;
                 Formatter.imageCache := Formatter.imageCache f |}
            | None => f
            end in
  let contentHash := generateContentHash f2 content type in
  let useCache := Formatter.enabled (Formatter.cacheSettings f2) && negb (skipCache options) in
  let '(cached, f3, disk3) :=
    if useCache then
      match Formatter.imageCache f2 !! contentHash with
      | Some img => (Some img, f2, disk)
      | None =>
        if Formatter.persistToDisk (Formatter.cacheSettings f2) then
          match Formatter.loadCacheFromDisk (Formatter.cacheSettings f2) nowRead
                  contentHash disk with
          | (Some img, d) => (Some img, Formatter.cacheSet f2 contentHash img, d)
          | (None, d) => (None, f2, d)
          end
        else (None, f2, disk)
      end
    else (None, f2, disk) in
  let finish (img : imageResult) : result (list Z) :=
    Formatter.failed type
      (do printCommands <- formatImageForPrinter (Some img);
       Ok (Codec.printContentAsImage_output printCommands)) in
  match cached with
  | Some img => (finish img, f3, disk3)
  | None =>
    match Formatter.formatToHTML formatKOTToHTML formatBillToHTML f3 content type with
    | Throw m => (Formatter.failed type (Throw m), f3, disk3)
    | Ok htmlContent =>
      match Formatter.convertHTMLToImageNode capturePage f3 htmlContent with
      | Throw m => (Formatter.failed type (Throw m), f3, disk3)
      | Ok img =>
        let f4 := if useCache then Formatter.cacheSet f3 contentHash img else f3 in
        let disk4 := if useCache && Formatter.persistToDisk (Formatter.cacheSettings f3)
                     then Formatter.saveCacheToDisk nowWrite contentHash img disk3
                     else disk3 in
        (finish img, f4, disk4)
      end
    end
  end.

(** printContent(content, type, options). *)
Definition printContent (s : state) (type : string) (options : options)
    : result (list Z) * state :=
  (* options.printMethod || "text" *)
  let printMethod := match printMethod options with
                     | Some m => if String.eqb m "" then "text" else m
                     | None => "text"
                     end in
  let f1 := match printerConfig options with
            | Some pc => Formatter.updateConfig (Formatter.self s) pc
            | None => Formatter.self s
            end in
  (* content._printMethod = printMethod *)
  let content' := setProperty (Formatter.content s) "_printMethod" (JStr printMethod) in
  if String.eqb printMethod "image" then
    let '(r, f2, disk2) :=
      printContentAsImage f1 (Formatter.disk s) (JObj content') type options in
    (Formatter.failed type r,
     {| Formatter.content := content'; Formatter.self := f2; Formatter.disk := disk2 |})
  else
    (Formatter.failed type (printContentAsText f1 (JObj content') type),
     {| Formatter.content := content'; Formatter.self := f1;
        Formatter.disk := Formatter.disk s |}).

End Pipeline.

End TextFormatter.

(** ** The text layouts of src/unnamed/part_000 *)

(** String methods of JavaScript on text. *)
Module JsString.
Local Open Scope string_scope.

Fixpoint replicateChar (n : nat) (c : ascii) : string :=
  match n with
  | O => EmptyString
  | S n' => String c (replicateChar n' c)
  end.

(** [c.repeat(count)]: a negative count is a RangeError. *)
Definition repeat (c : ascii) (count : Z) : result string :=
  if (count <? 0)%Z then Throw ("RangeError: Invalid count value: " ++ pretty count)
  else Ok (replicateChar (Z.to_nat count) c).

(** [" ".repeat(Math.max(0, n))] *)
Definition spaces (n : Z) : string := replicateChar (Z.to_nat (Z.max 0 n)) " ".

(** [s.length] *)
Definition len (s : string) : Z := Z.of_nat (String.length s).

(** [s.padStart(target, " ")] and [s.padEnd(target, " ")] *)
Definition padStart (s : string) (target : Z) : string := spaces (target - len s) ++ s.
Definition padEnd (s : string) (target : Z) : string := s ++ spaces (target - len s).

(** [s.substring(from, to)] and [s.substring(from)]: an index is clamped
    to [0, s.length], and the two are swapped when out of order. *)
Definition clamp (s : string) (i : Z) : nat := Z.to_nat (Z.min (Z.max 0 i) (len s)).

Definition substring (s : string) (from to : Z) : string :=
  let a := clamp s from in
  let b := clamp s to in
  String.substring (Nat.min a b) (Nat.max a b - Nat.min a b) s.

Definition substringFrom (s : string) (from : Z) : string :=
  substring s from (len s).

(** [s.slice(0, to)] for a [to] that is not negative is [substring]. *)
Definition sliceTo (s : string) (to : Z) : string :=
  if (to <? 0)%Z then substring s 0 (len s + to) else substring s 0 to.

(** White space that [trim] removes, among the characters below 256. *)
Definition isSpace (c : ascii) : bool :=
  let n := nat_of_ascii c in
  ((9 <=? n)%nat && (n <=? 13)%nat) || (n =? 32)%nat || (n =? 160)%nat.

Fixpoint trimStart (s : string) : string :=
  match s with
  | EmptyString => EmptyString
  | String c s' => if isSpace c then trimStart s' else s
  end.

Fixpoint trimEnd (s : string) : string :=
  match s with
  | EmptyString => EmptyString
  | String c s' =>
    match trimEnd s' with
    | EmptyString => if isSpace c then EmptyString else String c EmptyString
    | rest => String c rest
    end
  end.

Definition trim (s : string) : string := trimEnd (trimStart s).

(** A text without white space. *)
Fixpoint noSpace (s : string) : bool :=
  match s with
  | EmptyString => true
  | String c s' => negb (isSpace c) && noSpace s'
  end.

(** [s.split(" ")] *)
Fixpoint splitSpaces (s : string) : list string :=
  match s with
  | EmptyString => [EmptyString]
  | String c s' =>
    if Ascii.eqb c " " then EmptyString :: splitSpaces s'
    else match splitSpaces s' with
         | [] => [String c EmptyString]
         | w :: ws => String c w :: ws
         end
  end.

(** [`${n}`] and [n.toString()] for an integer, and [n.toFixed(2)]. *)
Definition numberToString (n : Z) : string := pretty n.
Definition toFixed2 (n : Z) : string := pretty n ++ ".00".

(** The code units of a text. *)
Definition codeUnits (s : string) : list Z :=
  map (fun c => Z.of_nat (nat_of_ascii c)) (list_ascii_of_string s).

(** A string of the form digits "." digit digit, with an optional sign:
    a number printed with exactly two decimal digits. *)
Fixpoint digitsThenFraction (s : string) (seen : bool) : bool :=
  match s with
  | EmptyString => false
  | String c s' =>
    if Ascii.eqb c "."
    then seen && (String.length s' =? 2)%nat && Js.allDigits s'
    else Js.isDigit c && digitsThenFraction s' true
  end.

Definition hasTwoDecimals (s : string) : bool :=
  match s with
  | String "-" s' => digitsThenFraction s' false
  | _ => digitsThenFraction s false
  end.

End JsString.

(** The first class of src/unnamed/part_000: divider, center, keyValue,
    formatKOTContent and the loop of formatBillContent that wraps an item
    name, with [this.config.charsPerLine] as a parameter. *)
Module TextLayout.
Import JsString.
Local Open Scope string_scope.

(** [this.config.charsPerLine], when the configuration holds a number. *)
Definition charsPerLineOf (config : list (string * Js.json)) : option Z :=
  match Js.getProperty config "charsPerLine" with
  | Some (Js.JNum n) => Some n
  | _ => None
  end.

(** Control codes. *)
Definition ESC : string := String "027" EmptyString.
Definition GS : string := String "029" EmptyString.
Definition BEL : string := String "007" EmptyString.
Definition LF : string := String "010" EmptyString.
Definition CENTER : string := ESC ++ "a" ++ String "001" EmptyString.
Definition LEFT : string := ESC ++ "a" ++ String "000" EmptyString.
Definition BOLD_ON : string := ESC ++ "E" ++ String "001" EmptyString.
Definition BOLD_OFF : string := ESC ++ "E" ++ String "000" EmptyString.
Definition INIT : string := ESC ++ "@".
Definition NORMAL_SIZE : string := ESC ++ "!" ++ String "000" EmptyString.
Definition LARGE_SIZE : string := ESC ++ "!" ++ String "024" EmptyString.
Definition MEDIUM_SIZE : string := ESC ++ "!" ++ String "016" EmptyString.
Definition SMALL_SIZE : string := ESC ++ "!" ++ String "000" EmptyString.
Definition BEEP : string := ESC ++ "B" ++ String "002" (String "001" EmptyString).

(** divider: ["-".repeat(this.config.charsPerLine)] *)
Definition divider (charsPerLine : Z) : result string := repeat "-" charsPerLine.


(** keyValue. [Math.floor(charsPerLine * 0.4)] is the floor of
    2 * charsPerLine / 5 (the product rounds to the integer whenever
    2 * charsPerLine / 5 is one). *)
Definition keyValue (charsPerLine : Z) (key value : string) : string :=
  let maxKeyLength := (2 * charsPerLine / 5)%Z in
  let truncatedKey := sliceTo key maxKeyLength in
  let padding := (charsPerLine - len truncatedKey - len value)%Z in
  truncatedKey ++ spaces padding ++ value.

(** A ticket as a job carries it. Every field may be missing; a field
    that is there is a string (the items a list). *)
Record kotHeader : Type := {
  kotType : option string;
  kotNumber : option string;
  customerName : option string;
  orderType : option string;
  date : option string;
  waiterName : option string
}.

Record kotContent : Type := {
  header : option kotHeader;
  items : option (list Ticket.item);
  note : option string;
  orderedBy : option string
}.

(** [`${field}`]: a missing field is printed as "undefined". *)
Definition templateText (field : option string) : string :=
  match field with
  | Some s => s
  | None => "undefined"
  end.

(** The TypeError of reading [property] of [undefined]. *)
Definition readOfUndefined (property : string) : string :=
  "TypeError: Cannot read properties of undefined (reading '" ++ property ++ "')".

(** [a || b] on strings that may be missing. *)
Definition orString (a : option string) (b : string) : string :=
  match a with
  | Some s => if String.eqb s "" then b else s
  | None => b
  end.

(** [item.quantity || 0] printed. *)
Definition quantityOrZero (i : Ticket.item) : string :=
  match Ticket.quantity i with
  | Some q => numberToString q
  | None => "0"
  end.

(** The chunks of the wrapped rest of a name:
    [for (let i = 0; i < remainingText.length; i += nameWidth)]. *)
Fixpoint chunkLines (fuel : nat) (line : string -> string) (remainingText : string)
    (nameWidth i : Z) : string :=
  match fuel with
  | O => ""
  | S fuel' =>
    if (i <? len remainingText)%Z then
      let chunk := substring remainingText i (Z.min (i + nameWidth) (len remainingText)) in
      line chunk ++ chunkLines fuel' line remainingText nameWidth (i + nameWidth)
    else ""
  end.

(** The body of [items.forEach] in formatKOTContent: what it adds to the
    output, or the TypeError of [item.name.trim()] on an item without a
    name. *)
Definition kotItemLines (charsPerLine : Z) (item : Ticket.item) : result string :=
  let statusDisplay := Ticket.statusDisplayText item in
  let nameWidth := Z.max 10 (charsPerLine - 10) in
  match Ticket.name item with
  | None => Throw (readOfUndefined "trim")
  | Some itemName =>
    let name := Ticket.toUpperCase (trim itemName) in
    let qtyStr := quantityOrZero item in
    if (len name <=? nameWidth - len qtyStr - 3)%Z then
      let itemText := qtyStr ++ " x " ++ name in
      let paddingWidth := (charsPerLine - len itemText - len statusDisplay)%Z in
      Ok (LEFT ++ BOLD_ON ++ LARGE_SIZE ++ itemText ++ spaces paddingWidth ++ statusDisplay
          ++ NORMAL_SIZE ++ BOLD_OFF ++ LF)
    else
      let firstLinePart := substring name 0 (nameWidth - len qtyStr - 3) in
      let firstLine := qtyStr ++ " x " ++ firstLinePart in
      let remainingText := substringFrom name (nameWidth - len qtyStr - 3) in
      let paddingWidth := (charsPerLine - len firstLine - len statusDisplay)%Z in
      Ok (LEFT ++ BOLD_ON ++ LARGE_SIZE ++ firstLine ++ spaces paddingWidth ++ statusDisplay
          ++ NORMAL_SIZE ++ BOLD_OFF ++ LF
          ++ chunkLines (String.length remainingText)
               (fun chunk => LEFT ++ BOLD_ON ++ LARGE_SIZE ++ spaces (len qtyStr + 3) ++ chunk
                             ++ NORMAL_SIZE ++ BOLD_OFF ++ LF)
               remainingText nameWidth 0)
  end.

(** [items.forEach((item) => { ... output += ... })]: the lines of the
    items in order, up to the first item that throws. *)
Fixpoint kotItemsLines (charsPerLine : Z) (items : list Ticket.item) : result string :=
  match items with
  | [] => Ok ""
  | item :: rest =>
    do lines <- kotItemLines charsPerLine item;
    do more <- kotItemsLines charsPerLine rest;
    Ok (lines ++ more)
  end.

(** [header.date ? header.date.split(" ")[i] : ""]; the second part is
    [undefined] when the date holds no space. *)
Definition datePart (h : kotHeader) (i : nat) : option string :=
  match date h with
  | None => Some ""
  | Some d => if String.eqb d "" then Some "" else nth_error (splitSpaces d) i
  end.

(** formatKOTContent (lines 1085-1282). The statements that can throw, in
    the order in which the code reaches them: [header.kotType] on a
    missing header, the first [this.divider()], [header.customerName.length],
    [timeStr.length], and [item.name.trim()] in the loop over the items. *)
Definition formatKOTContent (charsPerLine : Z) (content : kotContent) : result string :=
  do h <- match header content with
          | Some h => Ok h
          | None => Throw (readOfUndefined "kotType")
          end;
  do dividerLine <- divider charsPerLine;
  do customer <- match customerName h with
                 | Some s => Ok s
                 | None => Throw (readOfUndefined "length")
                 end;
  let dateStr := match datePart h 0 with Some s => s | None => "" end in
  do timeStr <- match datePart h 1 with
                | Some s => Ok s
                | None => Throw (readOfUndefined "length")
                end;
  do itemLines <- match items content with
                  | Some l => kotItemsLines charsPerLine l
                  | None => Ok ""
                  end;
  let orderedByText := orString (orderedBy content) (orString (waiterName h) "") in
  Ok (INIT
      ++ CENTER ++ MEDIUM_SIZE ++ "(" ++ templateText (kotType h) ++ ")" ++ NORMAL_SIZE ++ LF
      ++ CENTER ++ BOLD_ON ++ MEDIUM_SIZE ++ "Order No: #" ++ orString (kotNumber h) ""
         ++ NORMAL_SIZE ++ BOLD_OFF ++ LF
      ++ LEFT ++ dividerLine ++ LF
      ++ LEFT ++ SMALL_SIZE ++ "To: " ++ customer
         ++ spaces (charsPerLine - len customer - 15)
         ++ BOLD_ON ++ LARGE_SIZE ++ templateText (orderType h) ++ NORMAL_SIZE ++ BOLD_OFF ++ LF
      ++ LEFT ++ SMALL_SIZE ++ "Date: " ++ dateStr
         ++ spaces (charsPerLine - len dateStr - len timeStr - 12)
         ++ "Time: " ++ timeStr ++ NORMAL_SIZE ++ LF
      ++ LEFT ++ dividerLine ++ LF
      ++ LEFT ++ BOLD_ON ++ "Qty x Item" ++ spaces (charsPerLine - 16) ++ "Status"
         ++ BOLD_OFF ++ LF
      ++ LEFT ++ dividerLine ++ LF
      ++ itemLines
      ++ LEFT ++ dividerLine ++ LF
      ++ LEFT ++ "Ordered By:" ++ spaces (charsPerLine - 15 - len orderedByText)
         ++ orderedByText ++ LF
      ++ LEFT ++ dividerLine ++ LF
      ++ match note content with
         | Some n => if String.eqb n "" then ""
                     else LEFT ++ BOLD_ON ++ "Instructions: " ++ BOLD_OFF ++ n ++ LF
         | None => ""
         end
      ++ LF).

(** [s.lastIndexOf(" ")]: -1 when [s] holds no space. *)
Fixpoint lastIndexOfSpace (s : string) : Z :=
  match s with
  | EmptyString => (-1)%Z
  | String c s' =>
    let later := lastIndexOfSpace s' in
    if (later >=? 0)%Z then (later + 1)%Z
    else if Ascii.eqb c " " then 0%Z else (-1)%Z
  end.

(** The width of the item column in formatBillContent of the same class
    (line 1391): [Math.floor(this.config.charsPerLine * 0.5)], the floor
    of half an integer. *)
Definition itemWidthOf (charsPerLine : Z) : Z := (charsPerLine / 2)%Z.

(** The loop of that formatBillContent which wraps the name of an item
    (lines 1421-1432):
    [while (tempName.length > itemWidth) { ... }], from the trimmed name
    and no lines; it gives the lines and the rest of the name when it
    ends, and [None] when the fuel runs out. *)
Fixpoint wrapItemName (fuel : nat) (itemWidth : Z) (tempName : string)
    (nameLines : list string) : option (list string * string) :=
  match fuel with
  | O => None
  | S fuel' =>
    if (len tempName >? itemWidth)%Z then
      let cutPoint := lastIndexOfSpace (substring tempName 0 itemWidth) in
      if (cutPoint =? -1)%Z
      then wrapItemName fuel' itemWidth (substringFrom tempName itemWidth)
             (nameLines ++ [substring tempName 0 itemWidth])
      else wrapItemName fuel' itemWidth (substringFrom tempName (cutPoint + 1))
             (nameLines ++ [substring tempName 0 cutPoint])
    else Some (nameLines, tempName)
  end.

(** addCuttingCommands on text. *)
Definition addCuttingCommands (content : string) : string :=
  content ++ ESC ++ "d" ++ String "003" EmptyString ++ BEL ++ BEL
  ++ GS ++ "V" ++ String "000" EmptyString.

(** printContentAsText for a ticket. *)
Definition printTicketAsText (charsPerLine : Z) (content : kotContent) : result string :=
  do formattedContent <- formatKOTContent charsPerLine content;
  Ok (addCuttingCommands formattedContent).

(** A ticket with one item. *)
Definition teaTicket : kotContent :=
  {| header := Some {| kotType := Some "NEW ORDER"; kotNumber := Some "17";
                       customerName := Some "Asha"; orderType := Some "T4";
                       date := Some "24/03/2025 10:00"; waiterName := Some "Ravi" |};
     items := Some [ {| Ticket.name := Some "Tea"; Ticket.quantity := Some 2%Z;
                        Ticket.status := Some "NEW" |} ];
     note := None;
     orderedBy := None |}.

End TextLayout.

(** The second class of src/unnamed/part_000: the item rows of
    formatBillContent and the cells of formatBillTable. *)
Module BillLayout.
Import JsString TextLayout.
Local Open Scope string_scope.

(** An item of a bill. *)
Record billItem : Type := {
  name : string;
  price : option Z;
  quantity : option Z
}.

(** [item.price || 0] and [item.quantity || 0] as numbers. *)
Definition orZero (n : option Z) : Z := default 0%Z n.

(** [(item.quantity?.toString() || "0")] *)
Definition quantityString (q : option Z) : string :=
  match q with
  | Some n => numberToString n
  | None => "0"
  end.

(** The columns formatBillTable hands to tableRow for an item
    (lines 1916-1926): name, price, quantity, total. *)
Definition billTableCells (item : billItem) : list string :=
  let total := (orZero (price item) * orZero (quantity item))%Z in
  [name item;
   "Rs." ++ numberToString (orZero (price item));
   padStart (quantityString (quantity item)) 2;
   "Rs." ++ toFixed2 total].

(** The price, quantity and total of the first line of an item in
    formatBillContent (lines 2390-2427), before they are joined. *)
Definition billLineFields (charsPerLine : Z) (item : billItem)
    : string * string * string :=
  let total := (orZero (price item) * orZero (quantity item))%Z in
  let nameWidth := Z.max 10 (charsPerLine - 22) in
  let name := trim (name item) in
  if (len name <=? nameWidth)%Z then
    (padStart (numberToString (orZero (price item))) 8,
     padStart (quantityString (quantity item)) 3,
     padStart (toFixed2 total) 10)
  else
    (padStart ("Rs." ++ numberToString (orZero (price item))) 8,
     padStart (quantityString (quantity item)) 3,
     padStart ("Rs." ++ toFixed2 total) 10).

(** The body of [items.forEach] in formatBillContent (lines 2380-2447). *)
Definition billItemLines (charsPerLine : Z) (item : billItem) : string :=
  let nameWidth := Z.max 10 (charsPerLine - 22) in
  let name := trim (name item) in
  let '(price, qty, totalStr) := billLineFields charsPerLine item in
  (if (len name <=? nameWidth)%Z then
     let paddedName := padEnd name nameWidth in
     LEFT ++ NORMAL_SIZE ++ paddedName ++ price ++ BOLD_ON ++ qty ++ BOLD_OFF
     ++ totalStr ++ NORMAL_SIZE ++ LF
   else
     let firstLine := substring name 0 nameWidth in
     let remainingText := substringFrom name nameWidth in
     LEFT ++ NORMAL_SIZE ++ firstLine ++ price ++ BOLD_ON ++ qty ++ BOLD_OFF
     ++ totalStr ++ NORMAL_SIZE ++ LF
     ++ chunkLines (String.length remainingText)
          (fun chunk => LEFT ++ NORMAL_SIZE ++ padEnd chunk (nameWidth - 4)
                        ++ "                 " ++ NORMAL_SIZE ++ LF)
          remainingText nameWidth 0)
  ++ LF.

(** The summary of a bill. *)
Record billSummary : Type := {
  subTotal : Z;
  discount : Z;
  discountAmount : Z;
  sgst : option Z;
  cgst : option Z;
  rounded : Z;
  total : Z
}.

(** The money fields formatBillSummary prints (lines 2471-2512): subtotal,
    discount amount, the two tax components, rounding and total. *)
Definition summaryMoneyFields (s : billSummary) : list string :=
  [toFixed2 (subTotal s);
   toFixed2 (discountAmount s);
   toFixed2 (orZero (sgst s));
   toFixed2 (orZero (cgst s));
   toFixed2 (rounded s);
   toFixed2 (total s)].

(** formatBillSummary without the payment details. *)
Definition formatBillSummary (charsPerLine : Z) (s : billSummary) : result string :=
  do dividerLine <- divider charsPerLine;
  Ok (dividerLine ++ LF
      ++ BOLD_ON ++ keyValue charsPerLine "Subtotal" ("Rs." ++ toFixed2 (subTotal s))
         ++ BOLD_OFF ++ LF
      ++ dividerLine ++ LF
      ++ keyValue charsPerLine ("Discount(" ++ numberToString (discount s) ++ "%)")
           ("-Rs." ++ toFixed2 (discountAmount s)) ++ LF
      ++ keyValue charsPerLine "SGST (2.5%)" ("Rs." ++ toFixed2 (orZero (sgst s))) ++ LF
      ++ keyValue charsPerLine "CGST (2.5%)" ("Rs." ++ toFixed2 (orZero (cgst s))) ++ LF
      ++ keyValue charsPerLine "Round Off" ("-Rs." ++ toFixed2 (rounded s)) ++ LF
      ++ dividerLine ++ LF
      ++ BOLD_ON ++ MEDIUM_SIZE
         ++ keyValue charsPerLine "Total" ("Rs." ++ toFixed2 (total s))
         ++ NORMAL_SIZE ++ BOLD_OFF ++ LF).

(** The item callback of formatBillToHTML in src/print-formatter.js
    (lines 896-909): the texts of the cells name, price, quantity and
    total. *)
Definition billHtmlCells (item : billItem) : list string :=
  let price := orZero (price item) in
  let quantity := orZero (quantity item) in
  let total := (price * quantity)%Z in
  [name item; toFixed2 price; numberToString quantity; toFixed2 total].

(** An item priced at 10 and ordered twice. *)
Definition teaItem : billItem := {| name := "Tea"; price := Some 10%Z; quantity := Some 2%Z |}.

End BillLayout.

(** ** More of the formatter of src/print-formatter.js: clearCache and
       printAsImage *)

Module FormatterOps.
Import Js Raster Formatter.
Local Open Scope string_scope.

(** [file.endsWith(suffix)] *)
Definition endsWith (s suffix : string) : bool :=
  let n := String.length s in
  let m := String.length suffix in
  (m <=? n)%nat && String.eqb (String.substring (n - m) m s) suffix.

(** clearCache: the memory tier is emptied, and when the durable tier is
    in use every file of the cache directory whose name ends in ".json"
    is removed. *)
Definition clearCache (f : formatter) (disk : gmap string file)
    : formatter * gmap string file :=
  ({| config := config f; cacheSettings := cacheSettings f; imageCache := ∅ |},
   if persistToDisk (cacheSettings f)
   then filter (fun entry => endsWith (fst entry) ".json" = false) disk
   else disk).

(** The loop of sortObjectKeys: [keys.reduce((result, key) => { result[key]
    = values[key]; return result; }, start)]. *)
Definition collect (values : list (string * json)) (keys : list string)
    (start : list (string * json)) : list (string * json) :=
  fold_left (fun result key =>
               match getProperty values key with
               | Some v => assign result key v
               | None => result
               end) keys start.

Section Pipeline.

Variable capturePage : list (string * json) -> string -> result capture.

(** printAsImage: the image of a markup document between INIT and the
    beep, line feed, feed and cut; an error of the conversion or of the
    framing is thrown again as it is. *)
Definition printAsImage (f : formatter) (htmlContent : string) : result (list Z) :=
  do imageResult <- convertHTMLToImageNode capturePage f htmlContent;
  do printCommands <- formatImageForPrinter (Some imageResult);
  Ok (Codec.printAsImage_output printCommands).

End Pipeline.

(** A browser that is down. *)
Definition failingBrowser (config : list (string * json)) (html : string) : result capture :=
  Throw "Failed to launch the browser process".

End FormatterOps.

(** ** The printer's side of the raster command *)

Module RasterReader.
Import Raster.

(** The dot a printer prints at column [x] of row [y] of a GS v 0 command:
    bit 7 - x mod 8 of the byte x / 8 of the row, the rows being as many
    bytes apart as the header declares. *)
Definition printedDot (cmd : list Z) (x y : nat) : bool :=
  bitAt (payload cmd) (y * Z.to_nat (declaredWidthBytes cmd) + x / 8) (7 - x mod 8).

End RasterReader.

(** ** The agent of src/local-print-agent.js: paper profiles and printers *)

Module Agent.
Import Js JsString.
Local Open Scope string_scope.

(** [formatRules] *)
Definition formatRules : list (string * json) :=
  [("MM_58", JObj [("lineWidth", JNum 384); ("charsPerLine", JNum 32);
                   ("normalSize", JNum 0); ("largeSize", JNum 24);
                   ("mediumSize", JNum 16); ("smallSize", JNum 0)]);
   ("MM_80", JObj [("lineWidth", JNum 576); ("charsPerLine", JNum 48);
                   ("normalSize", JNum 0); ("largeSize", JNum 24);
                   ("mediumSize", JNum 16); ("smallSize", JNum 0)]);
   ("MM_76", JObj [("lineWidth", JNum 512); ("charsPerLine", JNum 42);
                   ("normalSize", JNum 0); ("largeSize", JNum 24);
                   ("mediumSize", JNum 16); ("smallSize", JNum 0)])].

(** The names every plain object inherits from [Object.prototype]. *)
Definition objectPrototypeKeys : list string :=
  ["constructor"; "__defineGetter__"; "__defineSetter__"; "hasOwnProperty";
   "__lookupGetter__"; "__lookupSetter__"; "isPrototypeOf"; "propertyIsEnumerable";
   "toString"; "valueOf"; "__proto__"; "toLocaleString"].

Definition inherited (key : string) : bool := existsb (String.eqb key) objectPrototypeKeys.

(** [value.key] for a key that no prototype defines ("options", "type",
    "port", ...): the property of an object, and [undefined] on an array,
    a string, a number or a boolean. [None] stands for [undefined]. *)
Definition member (value : option json) (key : string) : option json :=
  match value with
  | Some (JObj fields) => getProperty fields key
  | _ => None
  end.

(** The truth value of a value that may be [undefined]. *)
Definition truthyOpt (value : option json) : bool :=
  match value with
  | Some v => truthy v
  | None => false
  end.

(** [value && value.key] when it is truthy. *)
Definition truthyMember (value : option json) (key : string) : option json :=
  if truthyOpt value then
    match member value key with
    | Some v => if truthy v then Some v else None
    | None => None
    end
  else None.

(** extractPaperWidth *)
Definition extractPaperWidth (job : json) : json :=
  match truthyMember (member (Some job) "options") "paperWidth" with
  | Some paperWidth => paperWidth
  | None =>
    let content := member (Some job) "content" in
    match truthyMember (truthyMember content "options") "paperWidth" with
    | Some paperWidth => paperWidth
    | None =>
      match truthyMember (truthyMember (truthyMember content "content") "options")
              "paperWidth" with
      | Some paperWidth => paperWidth
      | None => JStr "MM_80"
      end
    end
  end.

(** What [formatter.updateConfig(formatRules[paperWidth] || formatRules.MM_58)]
    spreads over the configuration, for a paper width that is a string:
    the rule of that name; for a name inherited from [Object.prototype],
    a function or the prototype itself, which have no enumerable property
    of their own; the rule MM_58 otherwise. *)
Definition formatConfig (paperWidth : string) : list (string * json) :=
  match getProperty formatRules paperWidth with
  | Some (JObj rule) => rule
  | _ =>
    if inherited paperWidth then []
    else match getProperty formatRules "MM_58" with
         | Some (JObj rule) => rule
         | _ => []
         end
  end.

(** The configuration of the formatter when a job is laid out. *)
Definition configureFor (f : Formatter.formatter) (job : json) : option Formatter.formatter :=
  match extractPaperWidth job with
  | JStr paperWidth => Some (Formatter.updateConfig f (formatConfig paperWidth))
  | _ => None   (* a paper width that is not a string is left out *)
  end.

(** *** Printers *)

(** [s.split(sep)] for a separator of one character. *)
Fixpoint split (sep : ascii) (s : string) : list string :=
  match s with
  | EmptyString => [EmptyString]
  | String c s' =>
    if Ascii.eqb c sep then EmptyString :: split sep s'
    else match split sep s' with
         | [] => [String c EmptyString]
         | w :: ws => String c w :: ws
         end
  end.

(** The decimal digits a text starts with. *)
Fixpoint digitsPrefix (s : string) : string :=
  match s with
  | EmptyString => EmptyString
  | String c s' => if isDigit c then String c (digitsPrefix s') else EmptyString
  end.

(** [parseInt(s, 10)]: white space is skipped, a sign is read, then the
    digits up to the first other character; [None] stands for NaN, the
    result when there is no digit. The value is the integer read, which
    the Number holds exactly up to 2^53. *)
Definition parseInt (s : string) : option Z :=
  let s1 := trimStart s in
  let '(negative, s2) :=
    match s1 with
    | String c rest =>
      if Ascii.eqb c "-" then (true, rest)
      else if Ascii.eqb c "+" then (false, rest)
      else (false, s1)
    | EmptyString => (false, s1)
    end in
  match digitsPrefix s2 with
  | EmptyString => None
  | digits =>
    match parseDigits 0 digits with
    | Some n => Some (if negative then (- Z.of_N n)%Z else Z.of_N n)
    | None => None
    end
  end.

(** What getPrinterConfig returns; [None] in a field stands for
    [undefined]. *)
Record printerConfig : Type := {
  id : string;
  ipAddress : option json;
  port : json;
  type : option json;
  paperWidth : option json
}.

(** [a || b] where both may be [undefined]. *)
Definition orUndefined (a b : option json) : option json :=
  if truthyOpt a then a else b.

(** [config.printerMappings[printerId]]: a property of the object read
    from printer-mappings.json, or what the object inherits. *)
Inductive mapping : Type :=
| Own (value : json)
| Inherited (name : string)
| Unmapped.

Definition lookupMapping (printerMappings : list (string * json)) (printerId : string)
    : mapping :=
  match getProperty printerMappings printerId with
  | Some v => Own v
  | None => if inherited printerId then Inherited printerId else Unmapped
  end.

Definition mapped (m : mapping) : bool :=
  match m with
  | Own v => truthy v
  | Inherited _ => true
  | Unmapped => false
  end.

(** The object branch of getPrinterConfig, on the fields of the mapping. *)
Definition objectConfig (printerId : string) (fields : list (string * json)) : printerConfig :=
  {| id := printerId;
     ipAddress := orUndefined (getProperty fields "ipAddress") (getProperty fields "address");
     port := orElse (getProperty fields "port") (JNum 9100);
     type := Some (orElse (getProperty fields "type") (JStr "tcp"));
     paperWidth := Some (orElse (getProperty fields "paperWidth") (JStr "MM_58")) |}.

(** getPrinterConfig(printerId): the configuration or [null], and the
    mappings afterwards; an error when the mapping is neither an object
    nor a string. *)
Definition getPrinterConfig (printerMappings : list (string * json)) (printerId : string)
    : result (option printerConfig * list (string * json)) :=
  match lookupMapping printerMappings printerId with
  | Unmapped => Ok (None, printerMappings)
  | Inherited name =>
    if String.eqb name "__proto__"
    then Ok (Some (objectConfig printerId []), printerMappings)
    else Throw "addressString.split is not a function"
  | Own (JObj fields) =>
    (* if (!printerConfig.ipAddress && printerConfig.address)
         printerConfig.ipAddress = printerConfig.address; *)
    let fields' :=
      if negb (truthyOpt (getProperty fields "ipAddress"))
         && truthyOpt (getProperty fields "address")
      then match getProperty fields "address" with
           | Some address => setProperty fields "ipAddress" address
           | None => fields
           end
      else fields in
    Ok (Some (objectConfig printerId fields'),
        setProperty printerMappings printerId (JObj fields'))
  | Own (JArr items) =>
    if truthy (JArr items)
    then Ok (Some (objectConfig printerId []), printerMappings)
    else Ok (None, printerMappings)
  | Own (JStr addressString) =>
    if truthy (JStr addressString) then
      let parts := split ":" addressString in
      let ipAddress := nth 0 parts "" in
      match nth_error parts 1 with
      | Some portStr =>
        match parseInt portStr with
        | Some port =>
          if String.eqb ipAddress "" || (port =? 0)%Z then Ok (None, printerMappings)
          else Ok (Some {| id := printerId; ipAddress := Some (JStr ipAddress);
                           port := JNum port; type := None; paperWidth := None |},
                   printerMappings)
        | None => Ok (None, printerMappings)
        end
      | None => Ok (None, printerMappings)
      end
    else Ok (None, printerMappings)
  | Own v =>
    if truthy v then Throw "addressString.split is not a function"
    else Ok (None, printerMappings)
  end.

(** *** The first steps of processJob: the printer of a job *)

(** [Object.keys(config.printerMappings)[0]] *)
Definition firstKey (printerMappings : list (string * json)) : option string :=
  match printerMappings with
  | [] => None
  | (k, _) :: _ => Some k
  end.

(** [job.content && job.content.type === tag] *)
Definition contentTypeIs (job : json) (tag : string) : bool :=
  let content := member (Some job) "content" in
  truthyOpt content &&
  match member content "type" with
  | Some (JStr t) => String.eqb t tag
  | _ => false
  end.

(** The printer a job for an unknown printer is sent to instead. *)
Definition defaultPrinterId (printerMappings : list (string * json)) (job : json)
    : option string :=
  if contentTypeIs job "KOT" && mapped (lookupMapping printerMappings "kitchen")
  then Some "kitchen"
  else if contentTypeIs job "BILL" && mapped (lookupMapping printerMappings "receipt")
  then Some "receipt"
  else firstKey printerMappings.

(** The outcome of the lines of processJob up to the printer
    configuration, for a job whose printerId is a string: the printer to
    use, or the error reported. *)
Inductive printerChoice : Type :=
| UsePrinter (printerId : string) (config : printerConfig)
| JobError (error : string).

Definition choosePrinter (printerMappings : list (string * json)) (job : json)
    (printerId : string) : printerChoice * list (string * json) :=
  if String.eqb printerId "" then (JobError "Printer ID is undefined", printerMappings)
  else
    let chosen :=
      if mapped (lookupMapping printerMappings printerId) then Some printerId
      else match defaultPrinterId printerMappings job with
           | Some d => if String.eqb d "" then None else Some d
           | None => None
           end in
    match chosen with
    | None => (JobError "Printer not found in mappings", printerMappings)
    | Some target =>
      match getPrinterConfig printerMappings target with
      | Ok (Some config, mappings') => (UsePrinter target config, mappings')
      | Ok (None, mappings') => (JobError "Printer not configured", mappings')
      | Throw message => (JobError message, printerMappings)
      end
    end.

End Agent.

(** ** The tables of src/unnamed/part_000 (second class): wrapColumnText *)

Module Table.
Import JsString.
Local Open Scope string_scope.

(** The inner loop of wrapColumnText, which cuts a word that is longer
    than the column:
    [while (remainingWord.length > 0) { lines.push(remainingWord.substring(0, width));
       remainingWord = remainingWord.substring(width); }].
    [None] when the fuel runs out. *)
Fixpoint splitLongWord (fuel : nat) (width : Z) (remainingWord : string)
    (lines : list string) : option (list string) :=
  match fuel with
  | O => None
  | S fuel' =>
    if (len remainingWord >? 0)%Z
    then splitLongWord fuel' width (substringFrom remainingWord width)
           (lines ++ [substring remainingWord 0 width])%list
    else Some lines
  end.

(** The loop [for (let i = 0; i < words.length; i++)] of wrapColumnText,
    from word [i] on: the lines and the current line when it ends. *)
Fixpoint wrapWords (fuel : nat) (width : Z) (words : list string)
    (lines : list string) (currentLine : string) : option (list string * string) :=
  match words with
  | [] => Some (lines, currentLine)
  | word :: rest =>
    if (len currentLine + len word + 1 >? width)%Z then
      (* if (currentLine.length > 0) lines.push(currentLine.trim()) *)
      let lines1 := if (len currentLine >? 0)%Z then (lines ++ [trim currentLine])%list else lines in
      if (len word >? width)%Z then
        match splitLongWord fuel width word lines1 with
        | Some lines2 => wrapWords fuel width rest lines2 currentLine
        | None => None
        end
      else wrapWords fuel width rest lines1 word
    else
      let currentLine1 :=
        currentLine ++ (if (len currentLine =? 0)%Z then "" else " ") ++ word in
      (* i === words.length - 1 ||
         (nextWord && currentLine.length + nextWord.length + 1 > width) *)
      let flush :=
        match rest with
        | [] => true
        | nextWord :: _ =>
          negb (String.eqb nextWord "")
          && (len currentLine1 + len nextWord + 1 >? width)%Z
        end in
      if flush then wrapWords fuel width rest (lines ++ [trim currentLine1])%list ""
      else wrapWords fuel width rest lines currentLine1
  end.

(** wrapColumnText(text, width); [fuel] bounds the turns of the inner
    loop on one word. *)
Definition wrapColumnText (fuel : nat) (text : string) (width : Z) : option (list string) :=
  if String.eqb text "" then Some [""]
  else
    match wrapWords fuel width (splitSpaces text) [] "" with
    | Some (lines, currentLine) =>
      Some (if (len currentLine >? 0)%Z then (lines ++ [trim currentLine])%list else lines)
    | None => None
    end.

(** The pieces a word longer than the column is cut into. *)
Fixpoint pieces (fuel : nat) (width : Z) (word : string) : list string :=
  match fuel with
  | O => []
  | S fuel' =>
    if (len word >? 0)%Z
    then substring word 0 width :: pieces fuel' width (substringFrom word width)
    else []
  end.

End Table.

(** ** Wrapped names: the chunks of the continuation lines *)

Module Wrapping.
Import JsString.
Local Open Scope string_scope.

(** The chunks the loop
    [for (let i = 0; i < remainingText.length; i += nameWidth)] of
    formatKOTContent and formatBillContent takes from the rest of a name,
    in order. *)
Fixpoint chunkList (fuel : nat) (remainingText : string) (nameWidth i : Z) : list string :=
  match fuel with
  | O => []
  | S fuel' =>
    if (i <? len remainingText)%Z then
      substring remainingText i (Z.min (i + nameWidth) (len remainingText))
      :: chunkList fuel' remainingText nameWidth (i + nameWidth)
    else []
  end.

End Wrapping.

(** * Properties *)

(** ** The rasterizer *)

Module RasterFacts.
Import Raster.

Lemma setBit_length mono i k : length (setBit mono i k) = length mono.
Proof.
  unfold setBit. destruct (mono !! i); [apply length_insert | reflexivity].
Qed.

Lemma processRow_length w px mono y : length (processRow w px mono y) = length mono.
Proof.
  unfold processRow. generalize (seq 0 w) as xs. intros xs; revert mono.
  induction xs as [|x xs IH]; intros mono; simpl; [reflexivity|].
  rewrite IH. unfold processPixel.
  destruct (pixelBit w px x y); [apply setBit_length | reflexivity].
Qed.

Lemma toMonochrome_length w h px :
  length (toMonochrome w h px) = (widthBytes w * h)%nat.
Proof.
  unfold toMonochrome.
  assert (G : forall ys mono, length (fold_left (processRow w px) ys mono) = length mono).
  { induction ys as [|y ys IH]; intros mono; simpl; [reflexivity|].
    rewrite IH. apply processRow_length. }
  rewrite G. apply length_replicate.
Qed.

(** Every element of the bitmap stays a byte. *)
Lemma setBit_bytes mono i k :
  Forall (fun v => (0 <= v < 256)%Z) mono ->
  Forall (fun v => (0 <= v < 256)%Z) (setBit mono i k).
Proof.
  intros H. unfold setBit. destruct (mono !! i) eqn:E; [|exact H].
  apply Forall_insert; [exact H|]. apply Z.mod_pos_bound. lia.
Qed.

Lemma toMonochrome_bytes w h px :
  Forall (fun v => (0 <= v < 256)%Z) (toMonochrome w h px).
Proof.
  unfold toMonochrome.
  assert (R : forall y xs mono, Forall (fun v => (0 <= v < 256)%Z) mono ->
             Forall (fun v => (0 <= v < 256)%Z) (fold_left (processPixel w px y) xs mono)).
  { intros y xs. induction xs as [|x xs IH]; intros mono Hm; simpl; [exact Hm|].
    apply IH. unfold processPixel.
    destruct (pixelBit w px x y); [apply setBit_bytes|]; exact Hm. }
  assert (G : forall ys mono, Forall (fun v => (0 <= v < 256)%Z) mono ->
             Forall (fun v => (0 <= v < 256)%Z) (fold_left (processRow w px) ys mono)).
  { induction ys as [|y ys IH]; intros mono Hm; simpl; [exact Hm|].
    apply IH. apply R. exact Hm. }
  apply G. apply Forall_replicate. lia.
Qed.

(** Setting one bit changes that bit and no other. *)
Lemma bitAt_setBit mono i k i' k' :
  (i < length mono)%nat -> (k' < 8)%nat ->
  bitAt (setBit mono i k) i' k' = bitAt mono i' k' || ((i =? i')%nat && (k =? k')%nat).
Proof.
  intros Hi Hk'. unfold setBit, bitAt.
  destruct (lookup_lt_is_Some_2 mono i Hi) as [old Hold]. rewrite Hold.
  destruct (Nat.eqb_spec i i') as [->|Hne].
  - rewrite list_lookup_insert_eq by (apply lookup_lt_Some in Hold; exact Hold).
    rewrite Hold.
    change 256%Z with (2 ^ 8)%Z.
    rewrite Z.mod_pow2_bits_low by lia.
    rewrite Z.lor_spec. f_equal.
    rewrite Z.shiftl_spec by lia.
    destruct (Nat.eqb_spec k k') as [->|Hk].
    + rewrite Z.sub_diag. reflexivity.
    + destruct (Z.ltb_spec (Z.of_nat k') (Z.of_nat k)).
      * apply Z.testbit_neg_r. lia.
      * apply Z.bits_above_log2; [lia | change (Z.log2 1) with 0%Z; lia].
  - rewrite list_lookup_insert_ne by exact Hne.
    rewrite andb_false_l, orb_false_r. reflexivity.
Qed.

Lemma div8_lt_widthBytes x w : (x < w)%nat -> (x / 8 < widthBytes w)%nat.
Proof.
  intros H. unfold widthBytes.
  apply Nat.Div0.div_lt_upper_bound.
  pose proof (Nat.Div0.mul_div_le (w + 7) 8) as H1.
  pose proof (Nat.Div0.mod_eq (w + 7) 8) as H2.
  pose proof (Nat.mod_upper_bound (w + 7) 8) as H3.
  lia.
Qed.

Lemma byteIdx_in_range w h x y :
  (x < w)%nat -> (y < h)%nat -> (y * widthBytes w + x / 8 < widthBytes w * h)%nat.
Proof.
  intros Hx Hy. pose proof (div8_lt_widthBytes x w Hx). nia.
Qed.

(** The inner loop sets exactly the bits of the dark pixels it visits. *)
Lemma processPixels_bits w px y xs : forall mono i k,
  (k < 8)%nat ->
  (forall x, In x xs -> (y * widthBytes w + x / 8 < length mono)%nat) ->
  bitAt (fold_left (processPixel w px y) xs mono) i k
  = bitAt mono i k || existsb (inkAt w px i k y) xs.
Proof.
  induction xs as [|x xs IH]; intros mono i k Hk Hin; simpl.
  - rewrite orb_false_r. reflexivity.
  - rewrite IH; [| exact Hk |].
    + rewrite orb_assoc. f_equal.
      unfold processPixel, inkAt.
      destruct (pixelBit w px x y); simpl.
      * apply bitAt_setBit; [apply Hin; left; reflexivity | exact Hk].
      * rewrite orb_false_r. reflexivity.
    + intros x' Hx'. unfold processPixel.
      destruct (pixelBit w px x y); [rewrite setBit_length|]; apply Hin; right; exact Hx'.
Qed.

(** The outer loop does the same for the rows it visits. *)
Lemma processRows_bits w px ys : forall mono i k,
  (k < 8)%nat ->
  (forall y x, In y ys -> (x < w)%nat -> (y * widthBytes w + x / 8 < length mono)%nat) ->
  bitAt (fold_left (processRow w px) ys mono) i k
  = bitAt mono i k || existsb (fun y => existsb (inkAt w px i k y) (seq 0 w)) ys.
Proof.
  induction ys as [|y ys IH]; intros mono i k Hk Hin; simpl.
  - rewrite orb_false_r. reflexivity.
  - rewrite IH; [| exact Hk |].
    + rewrite orb_assoc. f_equal. unfold processRow.
      apply processPixels_bits; [exact Hk|].
      intros x Hx. apply Hin; [left; reflexivity|]. apply in_seq in Hx. lia.
    + intros y' x Hy' Hx. rewrite processRow_length. apply Hin; [right; exact Hy' | exact Hx].
Qed.

Lemma bitAt_replicate_0 n i k : bitAt (replicate n 0%Z) i k = false.
Proof.
  unfold bitAt. destruct (replicate n 0%Z !! i) eqn:E; [|reflexivity].
  apply lookup_replicate in E as [-> _]. apply Z.testbit_0_l.
Qed.

(** Two pixels of the image never share a bit. *)
Lemma position_inj w x y x0 y0 :
  (x < w)%nat -> (x0 < w)%nat ->
  (y * widthBytes w + x / 8 = y0 * widthBytes w + x0 / 8)%nat ->
  (7 - x mod 8 = 7 - x0 mod 8)%nat ->
  x = x0 /\ y = y0.
Proof.
  intros Hx Hx0 Hb Hk.
  pose proof (div8_lt_widthBytes x w Hx) as B.
  pose proof (div8_lt_widthBytes x0 w Hx0) as B0.
  pose proof (Nat.mod_upper_bound x 8) as M.
  pose proof (Nat.mod_upper_bound x0 8) as M0.
  assert (Hy : y = y0) by nia. subst y0.
  assert (Hd : (x / 8 = x0 / 8)%nat) by lia.
  pose proof (Nat.div_mod_eq x 8) as E. pose proof (Nat.div_mod_eq x0 8) as E0.
  split; [lia | reflexivity].
Qed.

(** The bit that holds pixel (x, y) after the two loops. *)
Lemma toMonochrome_bitAt w h px x y :
  (x < w)%nat -> (y < h)%nat ->
  bitAt (toMonochrome w h px) (y * widthBytes w + x / 8) (7 - x mod 8)
  = pixelBit w px x y.
Proof.
  intros Hx Hy. unfold toMonochrome.
  rewrite processRows_bits.
  - rewrite bitAt_replicate_0, orb_false_l.
    apply eq_true_iff_eq. rewrite existsb_exists. split.
    + intros (y' & Hy' & H). apply existsb_exists in H as (x' & Hx' & H).
      unfold inkAt in H. apply andb_true_iff in H as [Hp H].
      apply andb_true_iff in H as [H1 H2].
      apply Nat.eqb_eq in H1. apply Nat.eqb_eq in H2.
      apply in_seq in Hx'.
      destruct (position_inj w x' y' x y) as [-> ->]; auto; lia.
    + intros Hp. exists y. split; [apply in_seq; lia|].
      apply existsb_exists. exists x. split; [apply in_seq; lia|].
      unfold inkAt. rewrite Hp, !Nat.eqb_refl. reflexivity.
  - pose proof (Nat.mod_upper_bound x 8). lia.
  - intros y' x' Hy' Hx'. rewrite length_replicate. apply in_seq in Hy'.
    apply byteIdx_in_range; lia.
Qed.

(** *** The rounded luma against the exact luma *)

(** The check over all 16,777,216 colours. *)
Lemma allColoursAgree : allAgree sampleValues = true.
Proof. vm_compute. reflexivity. Qed.

Lemma sampleValues_In (v : Z) : (0 <= v < 256)%Z -> In (Uint63.of_Z v) sampleValues.
Proof.
  intros Hv. unfold sampleValues. apply in_map_iff. exists (Z.to_nat v). split.
  - rewrite Z2Nat.id by lia. reflexivity.
  - apply in_seq. lia.
Qed.

Lemma allAgree_forall (values : list int) :
  allAgree values = true ->
  forall r g b, In r values -> In g values -> In b values -> agreesWithSpec r g b = true.
Proof.
  unfold allAgree. intros H r g b Hr Hg Hb.
  rewrite forallb_forall in H. specialize (H r Hr).
  rewrite forallb_forall in H. specialize (H g Hg).
  rewrite forallb_forall in H. exact (H b Hb).
Qed.

Lemma agreesWithSpec_samples (r g b : Z) :
  (0 <= r < 256)%Z -> (0 <= g < 256)%Z -> (0 <= b < 256)%Z ->
  agreesWithSpec (Uint63.of_Z r) (Uint63.of_Z g) (Uint63.of_Z b) = true.
Proof.
  intros Hr Hg Hb.
  apply (allAgree_forall sampleValues allColoursAgree); apply sampleValues_In; assumption.
Qed.

Lemma exact_luma_uint63 (r g b : Z) :
  (0 <= r < 256)%Z -> (0 <= g < 256)%Z -> (0 <= b < 256)%Z ->
  Uint63.to_Z (299 * Uint63.of_Z r + 587 * Uint63.of_Z g + 114 * Uint63.of_Z b)%uint63
  = (299 * r + 587 * g + 114 * b)%Z.
Proof.
  intros Hr Hg Hb.
  rewrite !Uint63.add_spec, !Uint63.mul_spec, !Uint63.of_Z_spec.
  change (Uint63.to_Z 299) with 299%Z. change (Uint63.to_Z 587) with 587%Z.
  change (Uint63.to_Z 114) with 114%Z.
  change wB with 9223372036854775808%Z.
  rewrite (Z.mod_small r), (Z.mod_small g), (Z.mod_small b) by lia.
  rewrite (Z.mod_small (299 * r)), (Z.mod_small (587 * g)), (Z.mod_small (114 * b)) by lia.
  rewrite (Z.mod_small (299 * r + 587 * g)) by lia.
  apply Z.mod_small. lia.
Qed.

Lemma lumaSpec_lt (r g b : Z) :
  (lumaSpec r g b < 128)%Q <-> (299 * r + 587 * g + 114 * b < 128000)%Z.
Proof. unfold lumaSpec, Qlt, Qplus, Qmult, inject_Z. simpl. lia. Qed.

Lemma lumaSpec_eq (r g b : Z) :
  (lumaSpec r g b == 128)%Q <-> (299 * r + 587 * g + 114 * b = 128000)%Z.
Proof. unfold lumaSpec, Qeq, Qplus, Qmult, inject_Z. simpl. lia. Qed.

(** For every colour whose luma is not exactly 128, the comparison the code
    makes on the rounded sum is the comparison of the specification. *)
Lemma gray_threshold_exact (r g b : Z) :
  (0 <= r < 256)%Z -> (0 <= g < 256)%Z -> (0 <= b < 256)%Z ->
  ~ (lumaSpec r g b == 128)%Q ->
  (PrimFloat.ltb (gray r g b) 128 = true <-> (lumaSpec r g b < 128)%Q).
Proof.
  intros Hr Hg Hb Hne.
  pose proof (agreesWithSpec_samples r g b Hr Hg Hb) as A.
  pose proof (exact_luma_uint63 r g b Hr Hg Hb) as E.
  rewrite lumaSpec_eq in Hne. rewrite lumaSpec_lt.
  unfold agreesWithSpec in A. cbv zeta in A.
  destruct (Uint63.eqbP (299 * Uint63.of_Z r + 587 * Uint63.of_Z g + 114 * Uint63.of_Z b)
              128000%uint63) as [Heq|_].
  - exfalso. apply Hne. rewrite <- E, Heq. reflexivity.
  - apply Bool.eqb_prop in A. unfold gray. rewrite A.
    rewrite Uint63.ltb_spec, E. reflexivity.
Qed.

(** C4, as the code has it: the bit of a captured pixel, bit 7 - (x mod 8)
    of byte y * ceil(width/8) + floor(x/8), is set exactly when the luma
    the code computes for it in binary64 arithmetic is below 128; that is
    the comparison of the specification for every pixel whose luma is not
    exactly 128. *)
Theorem monochrome_bit_luma_threshold (c : capture) (x y : nat) :
  capture_wf c -> (x < imageWidth c)%nat -> (y < imageHeight c)%nat ->
  exists r g b v,
    pixels c !! ((y * imageWidth c + x) * 4)%nat = Some r /\
    pixels c !! ((y * imageWidth c + x) * 4 + 1)%nat = Some g /\
    pixels c !! ((y * imageWidth c + x) * 4 + 2)%nat = Some b /\
    monochromeData (convertCapture c)
      !! (y * widthBytes (imageWidth c) + x / 8)%nat = Some v /\
    Z.testbit v (Z.of_nat (7 - x mod 8)) = PrimFloat.ltb (gray r g b) 128 /\
    (~ (lumaSpec r g b == 128)%Q ->
     (Z.testbit v (Z.of_nat (7 - x mod 8)) = true <-> (lumaSpec r g b < 128)%Q)).
Proof.
  intros [Hlen Hrange] Hx Hy.
  assert (Hidx : ((y * imageWidth c + x) * 4 + 3 < length (pixels c))%nat) by nia.
  destruct (lookup_lt_is_Some_2 (pixels c) ((y * imageWidth c + x) * 4)) as [r Hr]; [lia|].
  destruct (lookup_lt_is_Some_2 (pixels c) ((y * imageWidth c + x) * 4 + 1)) as [g Hg]; [lia|].
  destruct (lookup_lt_is_Some_2 (pixels c) ((y * imageWidth c + x) * 4 + 2)) as [b Hb]; [lia|].
  destruct (lookup_lt_is_Some_2 (monochromeData (convertCapture c))
              (y * widthBytes (imageWidth c) + x / 8)) as [v Hv].
  { unfold convertCapture; cbn [monochromeData].
    rewrite toMonochrome_length. apply byteIdx_in_range; assumption. }
  exists r, g, b, v. repeat (split; [assumption|]).
  pose proof (toMonochrome_bitAt (imageWidth c) (imageHeight c) (pixels c) x y Hx Hy) as B.
  unfold convertCapture in Hv; cbn [monochromeData] in Hv.
  unfold bitAt in B. rewrite Hv in B.
  assert (E : Z.testbit v (Z.of_nat (7 - x mod 8)) = PrimFloat.ltb (gray r g b) 128).
  { rewrite B. unfold pixelBit. rewrite Hr, Hg, Hb. reflexivity. }
  split; [exact E|].
  intros Hne. rewrite E. apply gray_threshold_exact; try assumption.
  - exact (proj1 (Forall_lookup _ _) Hrange _ _ Hr).
  - exact (proj1 (Forall_lookup _ _) Hrange _ _ Hg).
  - exact (proj1 (Forall_lookup _ _) Hrange _ _ Hb).
Qed.

Lemma monochrome_bit_luma_threshold_witness :
  capture_wf greyCapture /\
  exists r g b v,
    pixels greyCapture !! ((0 * imageWidth greyCapture + 0) * 4)%nat = Some r /\
    pixels greyCapture !! ((0 * imageWidth greyCapture + 0) * 4 + 1)%nat = Some g /\
    pixels greyCapture !! ((0 * imageWidth greyCapture + 0) * 4 + 2)%nat = Some b /\
    monochromeData (convertCapture greyCapture)
      !! (0 * widthBytes (imageWidth greyCapture) + 0 / 8)%nat = Some v /\
    Z.testbit v (Z.of_nat (7 - 0 mod 8)) = PrimFloat.ltb (gray r g b) 128 /\
    (~ (lumaSpec r g b == 128)%Q ->
     (Z.testbit v (Z.of_nat (7 - 0 mod 8)) = true <-> (lumaSpec r g b < 128)%Q)).
Proof.
  assert (W : capture_wf greyCapture).
  { split; [reflexivity|]. repeat constructor; simpl; lia. }
  split; [exact W|].
  apply (monochrome_bit_luma_threshold greyCapture 0 0 W); simpl; lia.
Defined.

(** C4, as the specification words it, fails on a mid-grey pixel: the luma
    of (128, 128, 128) is exactly 128, which is not below 128, yet the sum
    the code computes is 127.99999999999999 and the pixel's bit is set. *)
Lemma luma_threshold_counterexample :
  capture_wf greyCapture /\
  (lumaSpec 128 128 128 == 128)%Q /\
  ~ (lumaSpec 128 128 128 < 128)%Q /\
  monochromeData (convertCapture greyCapture) = [128%Z] /\
  Z.testbit 128 (Z.of_nat (7 - 0 mod 8)) = true.
Proof.
  split; [split; [reflexivity | repeat constructor; simpl; lia]|].
  split; [reflexivity|].
  split; [intros H; vm_compute in H; discriminate|].
  split; reflexivity.
Qed.

Lemma fromCharCode_byte v : (0 <= v < 256)%Z -> fromCharCode v = v.
Proof. intros H. unfold fromCharCode. apply Z.mod_small. lia. Qed.

Lemma map_fromCharCode_bytes l :
  Forall (fun v => (0 <= v < 256)%Z) l -> map fromCharCode l = l.
Proof.
  induction 1 as [|v l Hv _ IH]; simpl; [reflexivity|].
  rewrite fromCharCode_byte by exact Hv. rewrite IH. reflexivity.
Qed.

Lemma land_255 n : Z.land n 255 = (n mod 256)%Z.
Proof. change 255%Z with (Z.ones 8). rewrite Z.land_ones by lia. reflexivity. Qed.

Lemma shiftr_8 n : Z.shiftr n 8 = (n / 256)%Z.
Proof. rewrite Z.shiftr_div_pow2 by lia. reflexivity. Qed.

(** What formatImageForPrinter returns for an image with both dimensions
    nonzero: the prefix GS v 0 0, the low and the high byte of the
    byte-width, the low and the high byte of the height, and the bitmap. *)
Lemma formatImageForPrinter_ok (img : imageResult) :
  width img <> 0%nat -> height img <> 0%nat ->
  Forall (fun v => (0 <= v < 256)%Z) (monochromeData img) ->
  formatImageForPrinter (Some img)
  = Ok ([29; 118; 48; 0;
         Z.of_nat (widthBytes (width img)) mod 256;
         (Z.of_nat (widthBytes (width img)) / 256) mod 256;
         Z.of_nat (height img) mod 256;
         (Z.of_nat (height img) / 256) mod 256]%Z
        ++ monochromeData img).
Proof.
  intros Hw Hh Hb. unfold formatImageForPrinter.
  destruct (Nat.eqb_spec (width img) 0); [contradiction|].
  destruct (Nat.eqb_spec (height img) 0); [contradiction|].
  cbn [orb]. rewrite !land_255, !shiftr_8.
  rewrite map_fromCharCode_bytes by exact Hb.
  rewrite !fromCharCode_byte by (apply Z.mod_pos_bound; lia).
  reflexivity.
Qed.

Lemma header_low_high n :
  (n mod 256 + 256 * ((n / 256) mod 256) = n mod 65536)%Z.
Proof. change 65536%Z with (256 * 256)%Z. rewrite Z.rem_mul_r by lia. reflexivity. Qed.

(** The command formatImageForPrinter builds, read back field by field. *)
Lemma formatImageForPrinter_fields (img : imageResult) :
  width img <> 0%nat -> height img <> 0%nat ->
  Forall (fun v => (0 <= v < 256)%Z) (monochromeData img) ->
  exists cmd,
    formatImageForPrinter (Some img) = Ok cmd /\
    take 4 cmd = [29; 118; 48; 0]%Z /\
    parameterBytes cmd
    = [Z.of_nat (widthBytes (width img)) mod 256;
       (Z.of_nat (widthBytes (width img)) / 256) mod 256;
       Z.of_nat (height img) mod 256;
       (Z.of_nat (height img) / 256) mod 256]%Z /\
    payload cmd = monochromeData img /\
    declaredWidthBytes cmd = (Z.of_nat (widthBytes (width img)) mod 65536)%Z /\
    declaredHeight cmd = (Z.of_nat (height img) mod 65536)%Z.
Proof.
  intros Hw Hh Hb. eexists. split; [apply formatImageForPrinter_ok; assumption|].
  repeat split.
  - unfold declaredWidthBytes. cbn [nth app]. apply header_low_high.
  - unfold declaredHeight. cbn [nth app]. apply header_low_high.
Qed.

(** C5: for an artifact of the rasterizer (a bitmap of bytes, both
    dimensions non-zero) whose byte-width and height are 16-bit values,
    as every image loaded through node-canvas is, formatImageForPrinter
    returns the prefix GS v 0 0, the four parameter bytes
    ceil(width/8) mod 256, floor(ceil(width/8)/256), height mod 256 and
    floor(height/256), and then the packed bitmap bytes and nothing
    else. *)
Theorem formatImageForPrinter_framing (img : imageResult) :
  width img <> 0%nat -> height img <> 0%nat ->
  Forall (fun v => (0 <= v < 256)%Z) (monochromeData img) ->
  (Z.of_nat (widthBytes (width img)) < 65536)%Z ->
  (Z.of_nat (height img) < 65536)%Z ->
  formatImageForPrinter (Some img)
  = Ok ([29; 118; 48; 0]%Z
        ++ [Z.of_nat (widthBytes (width img)) mod 256;
            Z.of_nat (widthBytes (width img)) / 256;
            Z.of_nat (height img) mod 256;
            Z.of_nat (height img) / 256]%Z
        ++ monochromeData img) /\
  parameterBytesSpec img
  = [Z.of_nat (widthBytes (width img)) mod 256;
     Z.of_nat (widthBytes (width img)) / 256;
     Z.of_nat (height img) mod 256;
     Z.of_nat (height img) / 256]%Z /\
  Forall (fun v => (0 <= v < 256)%Z) (parameterBytesSpec img).
Proof.
  intros Hw Hh Hb Hwb Hhb.
  assert (Hhigh : forall n, (0 <= n < 65536)%Z -> (0 <= n / 256 < 256)%Z).
  { intros n Hn. split; [apply Z.div_pos; lia | apply Z.div_lt_upper_bound; lia]. }
  split; [|split; [reflexivity|]].
  - rewrite formatImageForPrinter_ok by assumption.
    rewrite (Z.mod_small (Z.of_nat (widthBytes (width img)) / 256) 256) by (apply Hhigh; lia).
    rewrite (Z.mod_small (Z.of_nat (height img) / 256) 256) by (apply Hhigh; lia).
    reflexivity.
  - unfold parameterBytesSpec.
    repeat constructor;
      try (apply Z.mod_pos_bound; lia); try (apply Hhigh; lia).
Qed.

Lemma formatImageForPrinter_framing_witness :
  formatImageForPrinter (Some (convertCapture greyCapture))
  = Ok ([29; 118; 48; 0]%Z
        ++ [1 mod 256; 1 / 256; 1 mod 256; 1 / 256]%Z
        ++ monochromeData (convertCapture greyCapture)) /\
  parameterBytesSpec (convertCapture greyCapture)
  = [1 mod 256; 1 / 256; 1 mod 256; 1 / 256]%Z /\
  Forall (fun v => (0 <= v < 256)%Z) (parameterBytesSpec (convertCapture greyCapture)).
Proof.
  apply (formatImageForPrinter_framing (convertCapture greyCapture)).
  - simpl. lia.
  - simpl. lia.
  - apply toMonochrome_bytes.
  - vm_compute. reflexivity.
  - vm_compute. reflexivity.
Defined.

(** C10: a conversion returns a bitmap of ceil(width/8) * height bytes,
    and formatImageForPrinter appends exactly those bytes behind a header
    that declares the byte-width ceil(width/8) and the height: the byte
    count of the payload is the product of the two declared values. The
    command is there for dimensions that are not zero, and the two sizes
    are 16-bit values, as those of every image loaded through node-canvas
    are. *)
Theorem payload_size_matches_header (c : capture) :
  length (monochromeData (convertCapture c))
  = (widthBytes (width (convertCapture c)) * height (convertCapture c))%nat /\
  (imageWidth c <> 0%nat -> imageHeight c <> 0%nat ->
   (Z.of_nat (widthBytes (imageWidth c)) < 65536)%Z ->
   (Z.of_nat (imageHeight c) < 65536)%Z ->
   exists cmd,
     formatImageForPrinter (Some (convertCapture c)) = Ok cmd /\
     payload cmd = monochromeData (convertCapture c) /\
     declaredWidthBytes cmd = Z.of_nat (widthBytes (width (convertCapture c))) /\
     declaredHeight cmd = Z.of_nat (height (convertCapture c)) /\
     Z.of_nat (length (payload cmd)) = (declaredWidthBytes cmd * declaredHeight cmd)%Z).
Proof.
  assert (L : length (monochromeData (convertCapture c))
              = (widthBytes (imageWidth c) * imageHeight c)%nat).
  { unfold convertCapture; cbn [monochromeData]. apply toMonochrome_length. }
  split; [exact L|].
  intros Hw Hh Hwb Hhb.
  destruct (formatImageForPrinter_fields (convertCapture c))
    as (cmd & Hcmd & _ & _ & Hpay & Hdw & Hdh); try assumption.
  { apply toMonochrome_bytes. }
  change (width (convertCapture c)) with (imageWidth c) in *.
  change (height (convertCapture c)) with (imageHeight c) in *.
  rewrite Z.mod_small in Hdw by lia. rewrite Z.mod_small in Hdh by lia.
  exists cmd. split; [exact Hcmd|]. split; [exact Hpay|].
  split; [exact Hdw|]. split; [exact Hdh|].
  rewrite Hpay, L, Hdw, Hdh. lia.
Qed.

Lemma payload_size_matches_header_witness :
  length (monochromeData (convertCapture greyCapture))
  = (widthBytes (width (convertCapture greyCapture)) * height (convertCapture greyCapture))%nat /\
  exists cmd,
    formatImageForPrinter (Some (convertCapture greyCapture)) = Ok cmd /\
    payload cmd = monochromeData (convertCapture greyCapture) /\
    declaredWidthBytes cmd = Z.of_nat (widthBytes (width (convertCapture greyCapture))) /\
    declaredHeight cmd = Z.of_nat (height (convertCapture greyCapture)) /\
    Z.of_nat (length (payload cmd)) = (declaredWidthBytes cmd * declaredHeight cmd)%Z.
Proof.
  destruct (payload_size_matches_header greyCapture) as [Hlength Hcommand].
  split; [exact Hlength|].
  apply Hcommand; first [simpl; lia | vm_compute; reflexivity].
Defined.

End RasterFacts.


(** ** JSON values and their printed form *)

Module JsFacts.
Import Js.
Local Open Scope string_scope.

(** Induction on JSON values that reaches the elements of arrays and the
    values of objects. *)
Lemma json_rect' (P : json -> Prop)
  (Hnull : P JNull) (Hbool : forall b, P (JBool b)) (Hnum : forall n, P (JNum n))
  (Hstr : forall s, P (JStr s))
  (Harr : forall items, Forall P items -> P (JArr items))
  (Hobj : forall fields, Forall (fun kv => P (snd kv)) fields -> P (JObj fields)) :
  forall v, P v.
Proof.
  fix IH 1. intros [| b | n | s | items | fields].
  - exact Hnull.
  - apply Hbool.
  - apply Hnum.
  - apply Hstr.
  - apply Harr. induction items as [|x items IHitems]; constructor; [apply IH | exact IHitems].
  - apply Hobj. induction fields as [|[k x] fields IHfields]; constructor;
      [apply IH | exact IHfields].
Qed.

Lemma append_cons x (a b : string) : String x a ++ b = String x (a ++ b).
Proof. reflexivity. Qed.
Lemma append_nil_l (b : string) : "" ++ b = b.
Proof. reflexivity. Qed.
Lemma append_assoc (a b c : string) : (a ++ b) ++ c = a ++ (b ++ c).
Proof. induction a as [|x a IH]; rewrite ?append_cons, ?append_nil_l; [reflexivity | rewrite IH; reflexivity]. Qed.
Lemma append_cancel_l (p a b : string) : p ++ a = p ++ b -> a = b.
Proof.
  induction p as [|x p IH]; rewrite ?append_cons, ?append_nil_l; intros H; [exact H|].
  injection H as H. apply IH. exact H.
Qed.

Lemma length_append (a b : string) :
  String.length (a ++ b) = (String.length a + String.length b)%nat.
Proof. induction a as [|x a IH]; rewrite ?append_cons, ?append_nil_l; simpl; [reflexivity | rewrite IH; reflexivity]. Qed.

Lemma append_cancel_r (a b t : string) : a ++ t = b ++ t -> a = b.
Proof.
  revert b. induction a as [|x a IH]; intros [|y b] H; rewrite ?append_cons, ?append_nil_l in H.
  - reflexivity.
  - exfalso. apply (f_equal String.length) in H. simpl in H.
    rewrite length_append in H. lia.
  - exfalso. apply (f_equal String.length) in H. simpl in H.
    rewrite length_append in H. lia.
  - injection H as -> H. f_equal. apply IH. exact H.
Qed.

Lemma pretty_N_char_digit x : isDigit (pretty_N_char x) = true.
Proof. unfold pretty_N_char. repeat case_match; reflexivity. Qed.

Lemma pretty_N_go_digits x : forall s,
  allDigits s = true -> allDigits (pretty_N_go x s) = true.
Proof.
  induction (N.lt_wf_0 x) as [x _ IH]; intros s Hs.
  destruct (N.eq_dec x 0%N) as [->|Hx].
  - rewrite pretty_N_go_0. exact Hs.
  - rewrite pretty_N_go_step by lia. apply IH.
    + apply N.div_lt; lia.
    + simpl. rewrite pretty_N_char_digit, Hs. reflexivity.
Qed.

Lemma pretty_N_go_nonempty x : forall s, s <> "" -> pretty_N_go x s <> "".
Proof.
  induction (N.lt_wf_0 x) as [x _ IH]; intros s Hs.
  destruct (N.eq_dec x 0%N) as [->|Hx].
  - rewrite pretty_N_go_0. exact Hs.
  - rewrite pretty_N_go_step by lia. apply IH; [apply N.div_lt; lia | discriminate].
Qed.

Lemma pretty_N_digits (n : N) : allDigits (pretty n) = true /\ pretty n <> "".
Proof.
  unfold pretty, pretty_N. case_decide as H; [split; [reflexivity | discriminate]|].
  split; [apply pretty_N_go_digits; reflexivity|].
  rewrite pretty_N_go_step by lia. apply pretty_N_go_nonempty. discriminate.
Qed.


(** *** JSON.stringify is injective *)

Lemma pretty_Z_shape (n : Z) :
  exists digits, allDigits digits = true /\ digits <> "" /\
    (pretty n = digits \/ pretty n = String "-" digits).
Proof.
  unfold pretty, pretty_Z. destruct n as [|p|p].
  - exists "0". repeat split; [discriminate | left; reflexivity].
  - exists (pretty (Npos p)). destruct (pretty_N_digits (Npos p)) as [Hd Hne].
    repeat split; [exact Hd | exact Hne | left; reflexivity].
  - exists (pretty (Npos p)). destruct (pretty_N_digits (Npos p)) as [Hd Hne].
    repeat split; [exact Hd | exact Hne | right; reflexivity].
Qed.

Lemma digit_kind c rest : isDigit c = true -> kindOfHead (String c rest) = KNumber.
Proof.
  intros H. destruct c as [[] [] [] [] [] [] [] []]; try discriminate H; reflexivity.
Qed.

(** The first character of a printed value tells its kind. *)
Lemma stringify_kind v rest : kindOfHead (stringify v ++ rest) = kindOf v.
Proof.
  destruct v as [| [|] | n | s | items | fields]; try reflexivity.
  cbn [stringify kindOf].
  destruct (pretty_Z_shape n) as (digits & Hd & Hne & [E|E]); rewrite E.
  - destruct digits as [|c digits]; [contradiction|].
    rewrite append_cons. apply digit_kind.
    simpl in Hd. apply andb_true_iff in Hd as [Hc _]. exact Hc.
  - reflexivity.
Qed.

Lemma digits_prefix d1 : forall d2 r1 r2,
  allDigits d1 = true -> allDigits d2 = true ->
  noDigitHead r1 -> noDigitHead r2 ->
  d1 ++ r1 = d2 ++ r2 -> d1 = d2 /\ r1 = r2.
Proof.
  induction d1 as [|c1 d1 IH]; intros [|c2 d2] r1 r2 H1 H2 N1 N2 E;
    rewrite ?append_cons, ?append_nil_l in E.
  - split; [reflexivity | exact E].
  - exfalso. subst r1. simpl in N1, H2.
    apply andb_true_iff in H2 as [Hc _]. congruence.
  - exfalso. subst r2. simpl in N2, H1.
    apply andb_true_iff in H1 as [Hc _]. congruence.
  - injection E as -> E. simpl in H1, H2.
    apply andb_true_iff in H1 as [_ H1]. apply andb_true_iff in H2 as [_ H2].
    destruct (IH d2 r1 r2 H1 H2 N1 N2 E) as [-> ->]. split; reflexivity.
Qed.

Lemma number_prefix (n1 n2 : Z) r1 r2 :
  noDigitHead r1 -> noDigitHead r2 ->
  pretty n1 ++ r1 = pretty n2 ++ r2 -> n1 = n2 /\ r1 = r2.
Proof.
  intros N1 N2 E.
  destruct (pretty_Z_shape n1) as (d1 & Hd1 & Hne1 & S1).
  destruct (pretty_Z_shape n2) as (d2 & Hd2 & Hne2 & S2).
  assert (G : pretty n1 = pretty n2 /\ r1 = r2).
  { destruct S1 as [S1|S1], S2 as [S2|S2]; rewrite S1, S2 in E |- *;
      rewrite ?append_cons in E.
    - destruct (digits_prefix d1 d2 r1 r2 Hd1 Hd2 N1 N2 E) as [-> ->].
      split; reflexivity.
    - exfalso. destruct d1 as [|c d1]; [contradiction|].
      rewrite append_cons in E. injection E as -> _. discriminate Hd1.
    - exfalso. destruct d2 as [|c d2]; [contradiction|].
      rewrite append_cons in E. injection E as <- _. discriminate Hd2.
    - injection E as E.
      destruct (digits_prefix d1 d2 r1 r2 Hd1 Hd2 N1 N2 E) as [-> ->].
      split; reflexivity. }
  destruct G as [G ->]. split; [|reflexivity].
  apply (inj pretty). exact G.
Qed.

Lemma unquoteChar_quoteChar c rest : unquoteChar (quoteChar c ++ rest) = Some (c, rest).
Proof. destruct c as [[] [] [] [] [] [] [] []]; reflexivity. Qed.

Lemma quoteChar_head c rest :
  exists h t, quoteChar c ++ rest = String h t /\ h <> ascii_of_nat 34.
Proof.
  destruct c as [[] [] [] [] [] [] [] []];
    (eexists; eexists; split; [reflexivity | discriminate]).
Qed.

Lemma quoteBody_prefix s1 : forall s2 r1 r2,
  quoteBody s1 ++ dquote ++ r1 = quoteBody s2 ++ dquote ++ r2 -> s1 = s2 /\ r1 = r2.
Proof.
  induction s1 as [|c1 s1 IH]; intros [|c2 s2] r1 r2 E; cbn [quoteBody] in E;
    rewrite ?append_assoc, ?append_nil_l in E.
  - unfold dquote in E. rewrite !append_cons, !append_nil_l in E.
    injection E as ->. split; reflexivity.
  - exfalso. destruct (quoteChar_head c2 (quoteBody s2 ++ dquote ++ r2)) as (h & t & Eh & Hh).
    rewrite Eh in E. unfold dquote in E. rewrite append_cons in E.
    injection E as E _. congruence.
  - exfalso. destruct (quoteChar_head c1 (quoteBody s1 ++ dquote ++ r1)) as (h & t & Eh & Hh).
    rewrite Eh in E. unfold dquote in E. rewrite append_cons in E.
    injection E as E _. congruence.
  - apply (f_equal unquoteChar) in E. rewrite !unquoteChar_quoteChar in E.
    injection E as -> E. destruct (IH s2 r1 r2 E) as [-> ->]. split; reflexivity.
Qed.

Lemma quote_prefix s1 s2 r1 r2 :
  quote s1 ++ r1 = quote s2 ++ r2 -> s1 = s2 /\ r1 = r2.
Proof.
  unfold quote. rewrite !append_assoc. unfold dquote at 1 3.
  rewrite !append_cons, !append_nil_l. intros E. injection E as E.
  apply quoteBody_prefix. exact E.
Qed.

Lemma join_joinRest p rest : join "," (p :: rest) = p ++ joinRest rest.
Proof.
  revert p. induction rest as [|q rest IH]; intros p.
  - cbn [join joinRest]. induction p as [|c p IHp]; [reflexivity|].
    rewrite append_cons, <- IHp. reflexivity.
  - cbn [joinRest]. rewrite <- IH. reflexivity.
Qed.

(** The printed values of a list, each after a comma, can be read back
    when each value can. *)
Lemma joinRest_prefix {A} (print : A -> string) (close : ascii) (xs : list A) :
  isDigit close = false -> close <> ","%char ->
  (forall x rest, exists h t, print x ++ rest = String h t /\ h <> close) ->
  Forall (fun x => forall y r1 r2, noDigitHead r1 -> noDigitHead r2 ->
                     print x ++ r1 = print y ++ r2 -> x = y /\ r1 = r2) xs ->
  forall ys r1 r2,
    joinRest (map print xs) ++ String close r1 = joinRest (map print ys) ++ String close r2 ->
    xs = ys /\ r1 = r2.
Proof.
  intros Hclose Hcomma Hhead. induction 1 as [|x xs Hx _ IH]; intros [|y ys] r1 r2 E;
    cbn [map joinRest] in E; rewrite ?append_assoc, ?append_cons, ?append_nil_l in E.
  - injection E as ->. split; reflexivity.
  - exfalso. injection E as E _. congruence.
  - exfalso. injection E as E _. congruence.
  - injection E as E.
    assert (N : forall zs r, noDigitHead (joinRest (map print zs) ++ String close r)).
    { intros [|z zs] r; cbn [map joinRest];
        rewrite ?append_assoc, ?append_cons, ?append_nil_l; [exact Hclose | reflexivity]. }
    destruct (Hx y _ _ (N xs r1) (N ys r2) E) as [-> E'].
    destruct (IH ys r1 r2 E') as [-> ->]. split; reflexivity.
Qed.

(** The elements of an array or the fields of an object, between the
    opening character (stripped) and the closing one. *)
Lemma joined_prefix {A} (print : A -> string) (close : ascii) (xs : list A) :
  isDigit close = false -> close <> ","%char ->
  (forall x rest, exists h t, print x ++ rest = String h t /\ h <> close) ->
  Forall (fun x => forall y r1 r2, noDigitHead r1 -> noDigitHead r2 ->
                     print x ++ r1 = print y ++ r2 -> x = y /\ r1 = r2) xs ->
  forall ys r1 r2,
    join "," (map print xs) ++ String close r1 = join "," (map print ys) ++ String close r2 ->
    xs = ys /\ r1 = r2.
Proof.
  intros Hclose Hcomma Hhead Hall ys r1 r2 E.
  assert (N : forall zs r, noDigitHead (joinRest (map print zs) ++ String close r)).
  { intros [|z zs] r; cbn [map joinRest];
      rewrite ?append_assoc, ?append_cons, ?append_nil_l; [exact Hclose | reflexivity]. }
  destruct xs as [|x xs], ys as [|y ys].
  - cbn [map join] in E. rewrite !append_nil_l in E. injection E as ->. split; reflexivity.
  - exfalso. cbn [map] in E. rewrite join_joinRest in E. cbn [join] in E.
    rewrite append_nil_l, append_assoc in E.
    destruct (Hhead y (joinRest (map print ys) ++ String close r2)) as (h & t & Eh & Hh).
    rewrite Eh in E. injection E as E _. congruence.
  - exfalso. cbn [map] in E. rewrite join_joinRest in E. cbn [join] in E.
    rewrite append_nil_l, append_assoc in E.
    destruct (Hhead x (joinRest (map print xs) ++ String close r1)) as (h & t & Eh & Hh).
    rewrite Eh in E. injection E as E _. congruence.
  - cbn [map] in E. rewrite !join_joinRest, !append_assoc in E.
    apply Forall_cons in Hall as [Hx Hxs].
    destruct (Hx y _ _ (N xs r1) (N ys r2) E) as [-> E'].
    destruct (joinRest_prefix print close xs Hclose Hcomma Hhead Hxs ys r1 r2 E') as [-> ->].
    split; reflexivity.
Qed.

Lemma stringify_head_not v rest (close : ascii) :
  kindOfHead (String close "") = KOther ->
  exists h t, stringify v ++ rest = String h t /\ h <> close.
Proof.
  intros Hclose. pose proof (stringify_kind v rest) as K.
  destruct (stringify v ++ rest) as [|h t] eqn:E.
  - destruct v as [| [|] | | | |]; discriminate K.
  - exists h, t. split; [reflexivity|]. intros ->.
    change (kindOfHead (String close t)) with (kindOfHead (String close "")) in K.
    rewrite Hclose in K. destruct v as [| [|] | | | |]; discriminate K.
Qed.

(** A printed value followed by a text that cannot continue a number
    determines the value and the text. *)
Lemma stringify_prefix v1 : forall v2 r1 r2,
  noDigitHead r1 -> noDigitHead r2 ->
  stringify v1 ++ r1 = stringify v2 ++ r2 -> v1 = v2 /\ r1 = r2.
Proof.
  induction v1 as [| b1 | n1 | s1 | items1 IH | fields1 IH] using json_rect';
    intros v2 r1 r2 N1 N2 E;
    pose proof (f_equal kindOfHead E) as K; rewrite !stringify_kind in K.
  - destruct v2 as [| [|] | | | |]; try discriminate K.
    cbn [stringify] in E. apply append_cancel_l in E. split; [reflexivity | exact E].
  - destruct b1, v2 as [| [|] | | | |]; try discriminate K;
      cbn [stringify] in E; apply append_cancel_l in E; (split; [reflexivity | exact E]).
  - destruct v2 as [| [|] | n2 | | |]; try discriminate K.
    cbn [stringify] in E. destruct (number_prefix n1 n2 r1 r2 N1 N2 E) as [-> ->].
    split; reflexivity.
  - destruct v2 as [| [|] | | s2 | |]; try discriminate K.
    cbn [stringify] in E. destruct (quote_prefix s1 s2 r1 r2 E) as [-> ->].
    split; reflexivity.
  - destruct v2 as [| [|] | | | items2 |]; try discriminate K.
    cbn [stringify] in E. rewrite !append_assoc, !append_cons, !append_nil_l in E.
    injection E as E.
    destruct (joined_prefix stringify "]"%char items1) with (ys := items2) (r1 := r1) (r2 := r2)
      as [-> ->]; try assumption; try reflexivity; try discriminate.
    + intros x rest. apply stringify_head_not. reflexivity.
    + split; reflexivity.
  - destruct v2 as [| [|] | | | | fields2]; try discriminate K.
    cbn [stringify] in E. rewrite !append_assoc, !append_cons, !append_nil_l in E.
    injection E as E.
    destruct (joined_prefix (fun '(k, v) => quote k ++ ":" ++ stringify v) "}"%char fields1)
      with (ys := fields2) (r1 := r1) (r2 := r2) as [-> ->];
      try assumption; try reflexivity; try discriminate.
    + intros [k v] rest. unfold quote, dquote.
      rewrite !append_assoc, !append_cons, !append_nil_l.
      eexists. eexists. split; [reflexivity | discriminate].
    + eapply Forall_impl; [exact IH|].
      intros [k1 v1] IHv [k2 v2] q1 q2 Nq1 Nq2 Eq. cbn [snd] in IHv.
      rewrite !append_assoc in Eq.
      destruct (quote_prefix _ _ _ _ Eq) as [-> Eq'].
      rewrite !append_cons, !append_nil_l in Eq'. injection Eq' as Eq'.
      destruct (IHv v2 q1 q2 Nq1 Nq2 Eq') as [-> ->]. split; reflexivity.
    + split; reflexivity.
Qed.

(** JSON.stringify prints two different values differently. *)
Lemma stringify_inj v1 v2 : stringify v1 = stringify v2 -> v1 = v2.
Proof.
  intros E.
  assert (E' : stringify v1 ++ "" = stringify v2 ++ "") by (rewrite E; reflexivity).
  exact (proj1 (stringify_prefix v1 v2 "" "" I I E')).
Qed.

End JsFacts.
(** ** Tickets *)

Module TicketFacts.
Import Ticket.
Local Open Scope string_scope.










Example getStatusIndicator_mixed_case :
  getStatusIndicator "Cancelled" = "C" /\ getStatusIndicator "repeat" = "R" /\
  getStatusIndicator "served" = "" /\ getStatusIndicator "NEWS" = "".
Proof. repeat split. Qed.

End TicketFacts.

(** ** The device codec *)

Module CodecFacts.
Import Raster Codec.

Lemma bufferFromBinary_bytes data :
  Forall (fun c => (0 <= c < 256)%Z) data -> bufferFromBinary data = data.
Proof.
  unfold bufferFromBinary.
  induction 1 as [|c data Hc _ IH]; cbn [map]; [reflexivity|].
  rewrite Z.mod_small by exact Hc. rewrite IH. reflexivity.
Qed.

Lemma includes_false_occurrences data pattern :
  includes data pattern = false -> occurrences pattern data = 0%nat.
Proof.
  induction data as [|d data IH]; simpl; intros H;
    apply orb_false_iff in H as [H1 H2]; rewrite H1; [reflexivity|].
  rewrite IH by exact H2. reflexivity.
Qed.


Lemma includes_app_r data suffix pattern :
  includes suffix pattern = true -> includes (data ++ suffix) pattern = true.
Proof.
  intros H. induction data as [|d data IH]; [exact H|].
  rewrite <- app_comm_cons. cbn [includes]. rewrite IH. apply orb_true_r.
Qed.

(** Every formatter path that ends a job itself ends it with a byte pair
    printToTCPPrinter takes for a cut, so nothing is appended to it. *)
Lemma formatter_output_kept (printCommands : list Z) :
  hasCutCommand (addCuttingCommands printCommands) = true /\
  hasCutCommand (printAsImage_output printCommands) = true /\
  hasCutCommand (printContentAsImage_output printCommands) = true.
Proof.
  unfold hasCutCommand, addCuttingCommands, printAsImage_output, printContentAsImage_output.
  repeat split.
  - rewrite (includes_app_r printCommands _ [27; 100]%Z) by reflexivity. reflexivity.
  - rewrite (includes_app_r [ESC; 64]%Z _ [27; 100]%Z); [reflexivity|].
    apply includes_app_r. reflexivity.
  - rewrite (includes_app_r [ESC; 64]%Z _ [27; 100]%Z); [reflexivity|].
    apply includes_app_r. reflexivity.
Qed.





End CodecFacts.


(** ** The content fingerprint *)

Module HashFacts.
Import Js Formatter.
Local Open Scope string_scope.

(** Sorting the keys of two objects that hold the same keys gives the same
    list. *)
Lemma sorted_keys_permutation (keys1 keys2 : list string) :
  keys1 ≡ₚ keys2 -> merge_sort String.le keys1 = merge_sort String.le keys2.
Proof.
  intros H. apply (Sorted_unique String.le).
  - apply (Sorted_merge_sort String.le).
  - apply (Sorted_merge_sort String.le).
  - rewrite !merge_sort_Permutation. exact H.
Qed.

Lemma getProperty_cons k v fields key :
  getProperty ((k, v) :: fields) key
  = if String.eqb k key then Some v else getProperty fields key.
Proof. unfold getProperty. simpl. destruct (String.eqb k key); reflexivity. Qed.

Lemma getProperty_None fields key :
  ~ In key (map fst fields) -> getProperty fields key = None.
Proof.
  induction fields as [|[k v] fields IH]; intros H; [reflexivity|].
  rewrite getProperty_cons. destruct (String.eqb_spec k key) as [->|_].
  - exfalso. apply H. left. reflexivity.
  - apply IH. intros Hin. apply H. right. exact Hin.
Qed.

(** With distinct keys, the order of the fields does not matter to a
    lookup. *)
Lemma getProperty_permutation fields1 fields2 key :
  fields1 ≡ₚ fields2 -> NoDup (map fst fields1) ->
  getProperty fields1 key = getProperty fields2 key.
Proof.
  induction 1 as [| [k v] l l' Hp IH | [k1 v1] [k2 v2] l | l l' l'' Hp1 IH1 Hp2 IH2];
    intros Hnd.
  - reflexivity.
  - rewrite !getProperty_cons. simpl in Hnd. apply NoDup_cons in Hnd as [_ Hnd].
    rewrite IH by exact Hnd. reflexivity.
  - rewrite !getProperty_cons. simpl in Hnd.
    destruct (String.eqb_spec k1 key) as [->|_]; [|reflexivity].
    destruct (String.eqb_spec k2 key) as [->|_]; [|reflexivity].
    apply NoDup_cons in Hnd as [Hnotin _]. exfalso. apply Hnotin. constructor.
  - rewrite IH1 by exact Hnd. apply IH2.
    assert (Hm : map fst l ≡ₚ map fst l') by (apply Permutation_map; exact Hp1).
    rewrite <- Hm. exact Hnd.
Qed.

Lemma fold_left_ext_all {A B} (f g : A -> B -> A) (l : list B) (a : A) :
  (forall x y, f x y = g x y) -> fold_left f l a = fold_left g l a.
Proof.
  intros H. revert a. induction l as [|y l IH]; intros a; simpl; [reflexivity|].
  rewrite H. apply IH.
Qed.

(** Mapping a function over two lists related element by element, when
    the function identifies related elements. *)
Lemma map_related {A B} (R : A -> A -> Prop) (Q : A -> Prop) (f g : A -> B)
    (xs ys : list A) :
  Forall2 R xs ys ->
  Forall Q xs ->
  Forall (fun x => Q x -> forall y, R x y -> f x = g y) xs ->
  map f xs = map g ys.
Proof.
  induction 1 as [|x y xs ys Hxy _ IH]; intros HQ HP; [reflexivity|].
  apply Forall_cons in HQ as [Qx Qxs]. apply Forall_cons in HP as [Px Pxs].
  simpl. rewrite (Px Qx y Hxy). f_equal. apply IH; assumption.
Qed.

(** sortObjectKeys gives the same value for two values that differ in the
    order of their keys only. *)
Lemma sortObjectKeys_keyEquiv c1 :
  wfJson c1 -> forall c2, keyEquiv c1 c2 -> sortObjectKeys c1 = sortObjectKeys c2.
Proof.
  induction c1 as [| b | n | s | items IH | fields IH] using JsFacts.json_rect';
    intros Hwf c2 He; inversion He; subst; try reflexivity.
  - (* arrays *)
    inversion Hwf as [| | | | items' Hall |]; subst.
    simpl. f_equal.
    apply (map_related keyEquiv wfJson); assumption.
  - (* objects *)
    inversion Hwf as [| | | | | fields' Hnd Hall]; subst.
    match goal with
    | Hp : Permutation _ reordered, H2 : Forall2 _ fields reordered |- _ =>
      rename Hp into Hperm; rename H2 into Hpairs
    end.
    assert (Hvalues :
      map (fun '(k, v) => (k, sortObjectKeys v)) fields
      = map (fun '(k, v) => (k, sortObjectKeys v)) reordered).
    { apply (map_related
               (fun kv1 kv2 => fst kv1 = fst kv2 /\ keyEquiv (snd kv1) (snd kv2))
               (fun kv => wfJson (snd kv))); [exact Hpairs | exact Hall |].
      eapply Forall_impl; [exact IH|].
      intros [k1 v1] IHv Hv [k2 v2] [Hk Hkv]. simpl in *. subst k2.
      rewrite (IHv Hv v2 Hkv). reflexivity. }
    assert (Hkeys : map fst fields = map fst reordered).
    { clear -Hpairs. induction Hpairs as [|[k1 v1] [k2 v2] xs ys [Hk _] _ IHrest];
        [reflexivity|].
      simpl in *. subst. f_equal. exact IHrest. }
    simpl. f_equal.
    rewrite (sorted_keys_permutation (map fst fields) (map fst fields2))
      by (rewrite Hkeys; apply Permutation_map; symmetry; exact Hperm).
    apply fold_left_ext_all. intros result key.
    rewrite Hvalues.
    rewrite (getProperty_permutation
               (map (fun '(k, v) => (k, sortObjectKeys v)) reordered)
               (map (fun '(k, v) => (k, sortObjectKeys v)) fields2)).
    + reflexivity.
    + apply Permutation_map. symmetry. exact Hperm.
    + rewrite map_map.
      rewrite (map_ext _ fst) by (intros [k v]; reflexivity).
      rewrite <- Hkeys. exact Hnd.
Qed.

(** The string that is digested, laid out: the canonical content, the
    type tag and the configuration, in this order. *)
Lemma contentString_layout config content type :
  contentString config content type
  = "{" ++ quote "content" ++ ":" ++ stringify (sortObjectKeys content)
    ++ "," ++ quote "type" ++ ":" ++ quote type
    ++ "," ++ quote "config" ++ ":" ++ stringify (JObj config) ++ "}".
Proof.
  unfold contentString. cbn [stringify map join].
  rewrite ?JsFacts.append_assoc. reflexivity.
Qed.

(** The string that is digested determines the canonical content, the
    type tag and the configuration: two requests that differ in one of
    them are digested from two different strings. *)
Lemma contentString_inj config1 config2 content1 content2 type1 type2 :
  contentString config1 content1 type1 = contentString config2 content2 type2 ->
  sortObjectKeys content1 = sortObjectKeys content2 /\ type1 = type2 /\ config1 = config2.
Proof.
  unfold contentString. intros H. apply JsFacts.stringify_inj in H.
  injection H as Hc Ht Hcfg. repeat split; assumption.
Qed.

Lemma contentString_config config1 config2 content type :
  config1 <> config2 ->
  contentString config1 content type <> contentString config2 content type.
Proof.
  intros Hne H. apply contentString_inj in H as (_ & _ & Hcfg). contradiction.
Qed.

(** In src/unnamed/part_000 the content is printed as it is, so the string
    that is digested determines the content with its key order. *)
Lemma contentStringUnsorted_inj config1 config2 content1 content2 type1 type2 :
  contentStringUnsorted config1 content1 type1
  = contentStringUnsorted config2 content2 type2 ->
  content1 = content2 /\ type1 = type2 /\ config1 = config2.
Proof.
  unfold contentStringUnsorted. intros H. apply JsFacts.stringify_inj in H.
  injection H as Hc Ht Hcfg. repeat split; assumption.
Qed.

Lemma contentStringUnsorted_key_order config content1 content2 type :
  content1 <> content2 ->
  contentStringUnsorted config content1 type <> contentStringUnsorted config content2 type.
Proof.
  intros Hne H. apply contentStringUnsorted_inj in H as (Hc & _ & _). contradiction.
Qed.

Section Digest.

Variable sha256hex : string -> string.

(** The fingerprint of src/print-formatter.js does not depend on the order
    of the keys of the content, at any depth; the string it digests holds
    the canonical content, the type tag and the configuration, and differs
    as soon as the configurations print differently. *)
Lemma fingerprint_key_order (f : formatter) (type : string) (c1 c2 : json) :
  wfJson c1 -> keyEquiv c1 c2 ->
  contentString (config f) c1 type = contentString (config f) c2 type /\
  generateContentHash sha256hex f c1 type = generateContentHash sha256hex f c2 type.
Proof.
  intros Hwf He. unfold generateContentHash, contentString.
  rewrite (sortObjectKeys_keyEquiv c1 Hwf c2 He). split; reflexivity.
Qed.

End Digest.

Ltac distinct_keys := apply (bool_decide_unpack _); vm_compute; exact I.

Lemma sampleTicket_wf : wfJson (JObj sampleTicket).
Proof.
  unfold sampleTicket. constructor; [distinct_keys|].
  repeat first
    [ match goal with
      | |- NoDup _ => distinct_keys
      | |- Forall _ [] => apply List.Forall_nil
      | |- Forall _ (_ :: _) => apply List.Forall_cons
      | |- wfJson (snd _) => cbn [snd]
      | |- wfJson _ => constructor
      end ].
Qed.

Lemma sampleTicket_reordered : keyEquiv (JObj sampleTicket) (JObj sampleTicketReordered).
Proof.
  unfold sampleTicket, sampleTicketReordered.
  eapply KeObj; [apply perm_swap|].
  repeat constructor; simpl.
  - eapply KeObj; [apply perm_swap|]. repeat constructor.
  - eapply KeObj.
    + eapply perm_trans; [apply perm_swap | apply perm_skip, perm_swap].
    + repeat constructor.
Qed.

Example fingerprint_sample_key_order :
  contentString profile58 (JObj sampleTicket) "kot"
  = contentString profile58 (JObj sampleTicketReordered) "kot".
Proof. vm_compute. reflexivity. Qed.

Example fingerprint_sample_profiles :
  contentString profile58 (JObj sampleTicket) "kot"
  <> contentString profile80 (JObj sampleTicket) "kot".
Proof. vm_compute. discriminate. Qed.

(** C2 on generateContentHash of src/unnamed/part_000: the sample ticket
    and the same ticket with its keys in another order are digested from
    two different strings, as JSON.stringify prints each in its own key
    order. *)
Theorem unsorted_fingerprint_input_differs :
  wfJson (JObj sampleTicket) /\
  keyEquiv (JObj sampleTicket) (JObj sampleTicketReordered) /\
  contentStringUnsorted profile58 (JObj sampleTicket) "kot"
  <> contentStringUnsorted profile58 (JObj sampleTicketReordered) "kot" /\
  contentString profile58 (JObj sampleTicket) "kot"
  = contentString profile58 (JObj sampleTicketReordered) "kot".
Proof.
  split; [exact sampleTicket_wf|]. split; [exact sampleTicket_reordered|].
  split; [vm_compute; discriminate | vm_compute; reflexivity].
Qed.

End HashFacts.

(** ** The cache and the content object *)

Module FormatterFacts.
Import Js Raster Formatter.
Local Open Scope string_scope.

Lemma getProperty_replaceField_same fields key v :
  hasKey fields key = true -> getProperty (replaceField fields key v) key = Some v.
Proof.
  induction fields as [|[k x] fields IH]; simpl; [discriminate|].
  destruct (String.eqb_spec k key) as [->|Hne]; simpl.
  - intros _. rewrite HashFacts.getProperty_cons, String.eqb_refl. reflexivity.
  - intros H. rewrite HashFacts.getProperty_cons.
    destruct (String.eqb_spec k key); [contradiction|]. apply IH. exact H.
Qed.

Lemma getProperty_replaceField_other fields key v key' :
  key' <> key -> getProperty (replaceField fields key v) key' = getProperty fields key'.
Proof.
  intros Hne. induction fields as [|[k x] fields IH]; simpl; [reflexivity|].
  destruct (String.eqb_spec k key) as [->|Hk].
  - rewrite !HashFacts.getProperty_cons.
    destruct (String.eqb_spec key key'); [congruence | reflexivity].
  - rewrite !HashFacts.getProperty_cons. rewrite IH. reflexivity.
Qed.

Lemma getProperty_hasKey_false fields key :
  hasKey fields key = false -> getProperty fields key = None.
Proof.
  induction fields as [|[k x] fields IH]; simpl; [reflexivity|].
  intros H. apply orb_false_iff in H as [H1 H2].
  rewrite HashFacts.getProperty_cons. simpl in H1. rewrite H1. apply IH. exact H2.
Qed.

Lemma getProperty_app fields1 fields2 key :
  getProperty (fields1 ++ fields2) key
  = match getProperty fields1 key with
    | Some v => Some v
    | None => getProperty fields2 key
    end.
Proof.
  induction fields1 as [|[k x] fields1 IH]; [reflexivity|].
  rewrite <- app_comm_cons, !HashFacts.getProperty_cons.
  destruct (String.eqb k key); [reflexivity | exact IH].
Qed.

Lemma getProperty_insertIndex fields n key v key' :
  hasKey fields key = false ->
  getProperty (insertIndex fields n key v) key'
  = if String.eqb key key' then Some v else getProperty fields key'.
Proof.
  induction fields as [|[k x] fields IH]; intros H.
  - simpl. rewrite HashFacts.getProperty_cons. reflexivity.
  - simpl in H. apply orb_false_iff in H as [H1 H2]. simpl in H1.
    simpl. destruct (arrayIndex k) as [m|]; [destruct (m <? n)%N|];
      rewrite ?HashFacts.getProperty_cons; try reflexivity.
    rewrite IH by exact H2.
    destruct (String.eqb_spec k key') as [->|_]; [|reflexivity].
    destruct (String.eqb_spec key key') as [->|_]; [|reflexivity].
    rewrite String.eqb_refl in H1. discriminate.
Qed.

(** Reading a property back after an assignment. *)
Lemma getProperty_setProperty fields key v key' :
  getProperty (setProperty fields key v) key'
  = if String.eqb key key' then Some v else getProperty fields key'.
Proof.
  unfold setProperty. destruct (hasKey fields key) eqn:Hk.
  - destruct (String.eqb_spec key key') as [<-|Hne].
    + apply getProperty_replaceField_same. exact Hk.
    + apply getProperty_replaceField_other. congruence.
  - destruct (arrayIndex key) as [n|].
    + apply getProperty_insertIndex. exact Hk.
    + rewrite getProperty_app, HashFacts.getProperty_cons.
      destruct (String.eqb_spec key key') as [<-|Hne].
      * rewrite getProperty_hasKey_false by exact Hk. reflexivity.
      * destruct (getProperty fields key'); reflexivity.
Qed.

Section Pipeline.

Variable sha256hex : string -> string.
Variable capturePage : list (string * json) -> string -> result capture.
Variable formatKOTToHTML : list (string * json) -> json -> result string.
Variable formatBillToHTML : list (string * json) -> json -> result string.
Variable nowRead nowWrite : Z.

Let run := printContentAsImage sha256hex capturePage formatKOTToHTML formatBillToHTML
             nowRead nowWrite.

(** The content object after printContentAsImage, whatever the call
    returns or throws. *)
Lemma printContentAsImage_content s type options :
  content (snd (run s type options))
  = setProperty (content s) "_printMethod" (JStr "html-image").
Proof.
  unfold run, printContentAsImage.
  repeat (match goal with
          | |- context [match ?x with _ => _ end] => destruct x
          | |- context [if ?x then _ else _] => destruct x
          end; try reflexivity).
Qed.

(** loadCacheFromDisk on a record of the durable tier. *)
Lemma loadCacheFromDisk_entry c now hash d entry :
  d !! cachePath hash = Some (CacheFile entry) ->
  loadCacheFromDisk c now hash d
  = if (now - timestamp entry >? maxAge c)%Z
    then (None, delete (cachePath hash) d)
    else (Some (entryImage entry), d).
Proof. intros H. unfold loadCacheFromDisk. rewrite H. reflexivity. Qed.

(** What printContentAsImage does when the fingerprint is not in memory
    and the durable tier holds a record for it. *)
Lemma printContentAsImage_durable s type options entry :
  let f := applyOptions (self s) options in
  let content' := setProperty (content s) "_printMethod" (JStr "html-image") in
  let hash := generateContentHash sha256hex f (JObj content') type in
  enabled (cacheSettings f) = true -> skipCache options = false ->
  persistToDisk (cacheSettings f) = true ->
  imageCache f !! hash = None ->
  disk s !! cachePath hash = Some (CacheFile entry) ->
  run s type options
  = if (nowRead - timestamp entry >? maxAge (cacheSettings f))%Z
    then
      match formatToHTML formatKOTToHTML formatBillToHTML f (JObj content') type with
      | Throw m =>
        (failed type (Throw m),
         {| content := content'; self := f; disk := delete (cachePath hash) (disk s) |})
      | Ok htmlContent =>
        match capturePage (config f) htmlContent with
        | Throw m =>
          (failed type (Throw m),
           {| content := content'; self := f; disk := delete (cachePath hash) (disk s) |})
        | Ok c =>
          (failed type (formatImageForPrinter (Some (convertCapture c))),
           {| content := content';
              self := cacheSet f hash (convertCapture c);
              disk := saveCacheToDisk nowWrite hash (convertCapture c)
                        (delete (cachePath hash) (disk s)) |})
        end
      end
    else
      (failed type (formatImageForPrinter (Some (entryImage entry))),
       {| content := content';
          self := cacheSet f hash (entryImage entry);
          disk := disk s |}).
Proof.
  intros f content' hash Hen Hskip Hpersist Hmem Hdisk.
  unfold run, printContentAsImage.
  fold f. fold content'. fold hash.
  rewrite Hen, Hskip, Hmem, Hpersist. cbn [negb andb].
  rewrite (loadCacheFromDisk_entry _ _ _ _ _ Hdisk).
  destruct (nowRead - timestamp entry >? maxAge (cacheSettings f))%Z.
  - destruct (formatToHTML _ _ f (JObj content') type) as [html|m]; [|reflexivity].
    unfold convertHTMLToImageNode.
    destruct (capturePage (config f) html) as [c|m]; [|reflexivity].
    cbn [bind]. rewrite ?Hen, ?Hpersist. reflexivity.
  - reflexivity.
Qed.

(** C3: a record of the durable tier whose timestamp is more than maxAge
    (24 hours unless reconfigured) before the time of reading is deleted
    and read as null, and the caller, which had missed in memory, renders
    the content again and stores the new image in both tiers; a record at
    or under maxAge is returned, promoted to memory and framed without any
    rendering. *)
Theorem durable_entry_expiry (c : cacheConfig) (now : Z) (hash : string)
    (d : gmap string file) (entry : cacheEntry) :
  d !! cachePath hash = Some (CacheFile entry) ->
  maxAge defaultCacheConfig = (24 * 60 * 60 * 1000)%Z /\
  ((now - timestamp entry > maxAge c)%Z ->
     loadCacheFromDisk c now hash d = (None, delete (cachePath hash) d) /\
     snd (loadCacheFromDisk c now hash d) !! cachePath hash = None) /\
  ((now - timestamp entry <= maxAge c)%Z ->
     loadCacheFromDisk c now hash d = (Some (entryImage entry), d)) /\
  (forall s type options,
     let f := applyOptions (self s) options in
     let content' := setProperty (content s) "_printMethod" (JStr "html-image") in
     enabled (cacheSettings f) = true -> skipCache options = false ->
     persistToDisk (cacheSettings f) = true ->
     cacheSettings f = c -> nowRead = now -> disk s = d ->
     generateContentHash sha256hex f (JObj content') type = hash ->
     imageCache f !! hash = None ->
     ((now - timestamp entry > maxAge c)%Z ->
      forall htmlContent capture,
        formatToHTML formatKOTToHTML formatBillToHTML f (JObj content') type
          = Ok htmlContent ->
        capturePage (config f) htmlContent = Ok capture ->
        run s type options
        = (failed type (formatImageForPrinter (Some (convertCapture capture))),
           {| content := content';
              self := cacheSet f hash (convertCapture capture);
              disk := saveCacheToDisk nowWrite hash (convertCapture capture)
                        (delete (cachePath hash) d) |})) /\
     ((now - timestamp entry <= maxAge c)%Z ->
        run s type options
        = (failed type (formatImageForPrinter (Some (entryImage entry))),
           {| content := content';
              self := cacheSet f hash (entryImage entry);
              disk := d |}))).
Proof.
  intros Hd. split; [reflexivity|].
  pose proof (loadCacheFromDisk_entry c now hash d entry Hd) as L.
  split.
  { intros Hexp. rewrite L.
    destruct (Z.gtb_spec (now - timestamp entry) (maxAge c)); [|lia].
    split; [reflexivity|]. cbn [snd]. apply lookup_delete_eq. }
  split.
  { intros Hfresh. rewrite L.
    destruct (Z.gtb_spec (now - timestamp entry) (maxAge c)); [lia|]. reflexivity. }
  intros s type options f content' Hen Hskip Hpersist Hc Hnow Hdisk Hhash Hmem.
  subst c now d.
  pose proof (printContentAsImage_durable s type options entry) as P.
  cbv zeta in P. fold f content' in P. rewrite Hhash in P.
  specialize (P Hen Hskip Hpersist Hmem Hd).
  split.
  - intros Hexp html cap Hhtml Hcap. rewrite P.
    destruct (Z.gtb_spec (nowRead - timestamp entry) (maxAge (cacheSettings f))); [|lia].
    rewrite Hhtml, Hcap. reflexivity.
  - intros Hfresh. rewrite P.
    destruct (Z.gtb_spec (nowRead - timestamp entry) (maxAge (cacheSettings f))); [lia|].
    reflexivity.
Qed.

End Pipeline.

Lemma durable_entry_expiry_witness :
  sampleDisk !! cachePath "abc" = Some (CacheFile sampleEntry) /\
  loadCacheFromDisk defaultCacheConfig 100000000 "abc" sampleDisk
  = (None, delete (cachePath "abc") sampleDisk) /\
  loadCacheFromDisk defaultCacheConfig 86401000 "abc" sampleDisk
  = (Some sampleImage, sampleDisk).
Proof.
  assert (H : sampleDisk !! cachePath "abc" = Some (CacheFile sampleEntry))
    by apply lookup_singleton_eq.
  split; [exact H|]. split.
  - apply (durable_entry_expiry constantDigest greyBrowser fixedTemplate fixedTemplate
             100000000 100000005 defaultCacheConfig 100000000 "abc" sampleDisk sampleEntry H).
    simpl. lia.
  - apply (durable_entry_expiry constantDigest greyBrowser fixedTemplate fixedTemplate
             86401000 86401005 defaultCacheConfig 86401000 "abc" sampleDisk sampleEntry H).
    simpl. lia.
Defined.

End FormatterFacts.

(** ** The content object across a call *)

Module ContentFacts.
Import Js Raster Formatter.
Local Open Scope string_scope.

Section Pipeline.

Variable sha256hex : string -> string.
Variable capturePage : list (string * json) -> string -> result capture.
Variable formatKOTToHTML : list (string * json) -> json -> result string.
Variable formatBillToHTML : list (string * json) -> json -> result string.
Variable nowRead nowWrite : Z.
Variable formatKOTContent : list (string * json) -> json -> result (list Z).
Variable formatBillContent : list (string * json) -> json -> result (list Z).

(** [options.printMethod || "text"] *)
Let methodOf (options : TextFormatter.options) : string :=
  match TextFormatter.printMethod options with
  | Some m => if String.eqb m "" then "text" else m
  | None => "text"
  end.

Lemma printContent_content s type options :
  content (snd (TextFormatter.printContent sha256hex capturePage formatKOTToHTML
                  formatBillToHTML nowRead nowWrite formatKOTContent formatBillContent
                  s type options))
  = setProperty (content s) "_printMethod" (JStr (methodOf options)).
Proof.
  unfold TextFormatter.printContent, methodOf.
  destruct (String.eqb _ "image"); [|reflexivity].
  destruct (TextFormatter.printContentAsImage _ _ _ _ _ _ _ _ _ _ _) as [[r f2] disk2].
  reflexivity.
Qed.

(** C9, as the code has it: a call of printContentAsImage
    (src/print-formatter.js) or of printContent (src/unnamed/part_000)
    assigns the property _printMethod of the content object, adding it
    when it is missing, and leaves every other property as it was. *)
Theorem content_only_marked (s : state) (type : string) :
  (forall options,
     let s' := snd (printContentAsImage sha256hex capturePage formatKOTToHTML
                      formatBillToHTML nowRead nowWrite s type options) in
     content s' = setProperty (content s) "_printMethod" (JStr "html-image") /\
     getProperty (content s') "_printMethod" = Some (JStr "html-image") /\
     forall key, key <> "_printMethod" ->
       getProperty (content s') key = getProperty (content s) key) /\
  (forall options,
     let s' := snd (TextFormatter.printContent sha256hex capturePage formatKOTToHTML
                      formatBillToHTML nowRead nowWrite formatKOTContent formatBillContent
                      s type options) in
     content s' = setProperty (content s) "_printMethod" (JStr (methodOf options)) /\
     getProperty (content s') "_printMethod" = Some (JStr (methodOf options)) /\
     forall key, key <> "_printMethod" ->
       getProperty (content s') key = getProperty (content s) key).
Proof.
  split; intros options s'; subst s'.
  - rewrite FormatterFacts.printContentAsImage_content.
    split; [reflexivity|]. split.
    + rewrite FormatterFacts.getProperty_setProperty, String.eqb_refl. reflexivity.
    + intros key Hkey. rewrite FormatterFacts.getProperty_setProperty.
      destruct (String.eqb_spec "_printMethod" key); [congruence | reflexivity].
  - rewrite printContent_content.
    split; [reflexivity|]. split.
    + rewrite FormatterFacts.getProperty_setProperty, String.eqb_refl. reflexivity.
    + intros key Hkey. rewrite FormatterFacts.getProperty_setProperty.
      destruct (String.eqb_spec "_printMethod" key); [congruence | reflexivity].
Qed.

End Pipeline.

(** C9, as the specification words it, fails on every call: after
    printContentAsImage the sample ticket has a property it did not have. *)
Lemma content_unchanged_counterexample :
  let s' := snd (printContentAsImage constantDigest greyBrowser fixedTemplate
                   fixedTemplate 0 0 sampleState "kot" noOptions) in
  getProperty (content sampleState) "_printMethod" = None /\
  getProperty (content s') "_printMethod" = Some (JStr "html-image") /\
  content s' = (sampleTicket ++ [("_printMethod", JStr "html-image")])%list /\
  content s' <> content sampleState.
Proof.
  cbv zeta. rewrite FormatterFacts.printContentAsImage_content.
  repeat split; try reflexivity. discriminate.
Qed.

End ContentFacts.

(** ** The text layouts *)

Module LayoutFacts.
Import Js JsString TextLayout BillLayout.
Local Open Scope string_scope.

(** *** Numbers printed with two decimals *)

Lemma digitsThenFraction_digits s seen :
  allDigits s = true -> (s <> "" \/ seen = true) ->
  digitsThenFraction (s ++ ".00") seen = true.
Proof.
  revert seen. induction s as [|c s IH]; intros seen Hd Hne.
  - destruct Hne as [Hne | ->]; [contradiction | reflexivity].
  - simpl in Hd. apply andb_true_iff in Hd as [Hc Hs].
    change (String c s ++ ".00") with (String c (s ++ ".00")).
    cbn [digitsThenFraction].
    destruct (Ascii.eqb_spec c ".") as [->|_]; [discriminate Hc|].
    rewrite Hc. cbn [andb]. apply IH; [exact Hs | right; reflexivity].
Qed.

(** [n.toFixed(2)] always has exactly two decimal digits. *)
Lemma toFixed2_two_decimals (n : Z) : hasTwoDecimals (toFixed2 n) = true.
Proof.
  unfold toFixed2, pretty, pretty_Z. destruct n as [|p|p].
  - reflexivity.
  - destruct (JsFacts.pretty_N_digits (Npos p)) as [Hd Hne].
    change (pretty p) with (pretty (Npos p)).
    unfold hasTwoDecimals.
    destruct (pretty (N.pos p)) as [|c s] eqn:E; [contradiction|].
    change (String c s ++ ".00") with (String c (s ++ ".00")).
    destruct (Ascii.eqb_spec c "-") as [->|Hc]; [discriminate Hd|].
    assert (G : digitsThenFraction (String c (s ++ ".00")) false = true)
      by (apply (digitsThenFraction_digits (String c s)); [exact Hd | left; discriminate]).
    destruct c as [[] [] [] [] [] [] [] []]; try exact G; contradiction.
  - destruct (JsFacts.pretty_N_digits (Npos p)) as [Hd Hne].
    change (pretty p) with (pretty (Npos p)).
    change (("-" +:+ pretty (N.pos p)) ++ ".00")
      with (String "-" (pretty (N.pos p) ++ ".00")).
    cbn [hasTwoDecimals].
    apply digitsThenFraction_digits; [exact Hd | left; exact Hne].
Qed.

(** A whole number printed by a template literal has no decimal digits. *)
Lemma numberToString_no_decimals (n : Z) : hasTwoDecimals (numberToString n) = false.
Proof.
  assert (G : forall s seen, allDigits s = true -> digitsThenFraction s seen = false).
  { induction s as [|c s IH]; intros seen Hd; [reflexivity|].
    simpl in Hd. apply andb_true_iff in Hd as [Hc Hs]. cbn [digitsThenFraction].
    destruct (Ascii.eqb_spec c ".") as [->|_]; [discriminate Hc|].
    rewrite Hc. cbn [andb]. apply IH. exact Hs. }
  unfold numberToString, pretty, pretty_Z. destruct n as [|p|p].
  - reflexivity.
  - destruct (JsFacts.pretty_N_digits (Npos p)) as [Hd Hne].
    change (pretty p) with (pretty (Npos p)).
    unfold hasTwoDecimals.
    destruct (pretty (N.pos p)) as [|c s] eqn:E; [contradiction|].
    pose proof (G (String c s) false Hd) as G1.
    simpl in Hd. apply andb_true_iff in Hd as [Hc _].
    destruct c as [[] [] [] [] [] [] [] []]; try exact G1; discriminate Hc.
  - destruct (JsFacts.pretty_N_digits (Npos p)) as [Hd Hne].
    change (pretty p) with (pretty (Npos p)).
    change ("-" +:+ pretty (N.pos p)) with (String "-" (pretty (N.pos p))).
    cbn [hasTwoDecimals]. apply G. exact Hd.
Qed.

(** The money fields that do go through toFixed(2): the totals of the
    rows, every field of the summary, and every money cell of the markup
    path of src/print-formatter.js. *)
Lemma summary_two_decimals (s : billSummary) :
  Forall (fun field => hasTwoDecimals field = true) (summaryMoneyFields s).
Proof. unfold summaryMoneyFields. repeat constructor; apply toFixed2_two_decimals. Qed.

Lemma billHtmlCells_two_decimals (item : billItem) :
  exists name price quantity total,
    billHtmlCells item = [name; price; quantity; total] /\
    hasTwoDecimals price = true /\ hasTwoDecimals total = true /\
    quantity = numberToString (orZero (BillLayout.quantity item)).
Proof.
  unfold billHtmlCells. do 4 eexists. split; [reflexivity|].
  repeat split; apply toFixed2_two_decimals.
Qed.

Lemma trim_noSpace s : noSpace s = true -> trim s = s.
Proof.
  intros H. unfold trim.
  assert (S1 : trimStart s = s).
  { destruct s as [|c s]; [reflexivity|]. simpl in *.
    apply andb_true_iff in H as [Hc _]. destruct (isSpace c); [discriminate | reflexivity]. }
  rewrite S1. clear S1.
  induction s as [|c s IH]; [reflexivity|]. simpl in *.
  apply andb_true_iff in H as [Hc Hs]. rewrite (IH Hs).
  destruct s; [|reflexivity]. destruct (isSpace c); [discriminate | reflexivity].
Qed.

Lemma allDigits_noSpace s : allDigits s = true -> noSpace s = true.
Proof.
  induction s as [|c s IH]; intros H; [reflexivity|]. simpl in *.
  apply andb_true_iff in H as [Hc Hs]. rewrite (IH Hs), andb_true_r.
  destruct c as [[] [] [] [] [] [] [] []]; try discriminate Hc; reflexivity.
Qed.

Lemma numberToString_noSpace (n : Z) : noSpace (numberToString n) = true.
Proof.
  unfold numberToString, pretty, pretty_Z. destruct n as [|p|p].
  - reflexivity.
  - change (pretty p) with (pretty (Npos p)).
    apply allDigits_noSpace. apply JsFacts.pretty_N_digits.
  - change (pretty p) with (pretty (Npos p)).
    change ("-" +:+ pretty (N.pos p)) with (String "-" (pretty (N.pos p))).
    cbn [noSpace]. rewrite allDigits_noSpace by apply JsFacts.pretty_N_digits. reflexivity.
Qed.

Lemma trim_padStart s n : trim (padStart s n) = trim s.
Proof.
  unfold padStart, spaces, trim.
  induction (Z.to_nat (Z.max 0 (n - len s))) as [|k IH]; [reflexivity|].
  simpl. exact IH.
Qed.

(** C7 on the text path of src/unnamed/part_000: a unit price of 10 is
    printed as "10" by formatBillContent and as "Rs.10" by formatBillTable,
    without decimals, next to a line total of "20.00"; so is every unit
    price on the first line of an item whose name fits the column. *)
Theorem bill_price_without_decimals :
  billLineFields 32 teaItem = ("      10", "  2", "     20.00") /\
  hasTwoDecimals (trim "      10") = false /\
  hasTwoDecimals (trim "     20.00") = true /\
  billTableCells teaItem = ["Tea"; "Rs.10"; " 2"; "Rs.20.00"] /\
  billHtmlCells teaItem = ["Tea"; "10.00"; "2"; "20.00"] /\
  (forall item charsPerLine,
     (len (trim (name item)) <= Z.max 10 (charsPerLine - 22))%Z ->
     hasTwoDecimals (trim (fst (fst (billLineFields charsPerLine item)))) = false).
Proof.
  repeat split.
  intros item charsPerLine Hfit. unfold billLineFields.
  destruct (Z.leb_spec (len (trim (name item))) (Z.max 10 (charsPerLine - 22))); [|lia].
  cbn [fst]. rewrite trim_padStart, trim_noSpace by apply numberToString_noSpace.
  apply numberToString_no_decimals.
Qed.

(** *** A profile with zero characters per line *)

(** A property after [{...target, ...source}]: the source's, when it has
    one. *)
Lemma getProperty_spread source : forall target key,
  getProperty (spread target source) key
  = match getProperty (rev source) key with
    | Some v => Some v
    | None => getProperty target key
    end.
Proof.
  unfold spread. induction source as [|[k v] source IH]; intros target key; [reflexivity|].
  cbn [fold_left fst snd]. rewrite IH. cbn [rev].
  rewrite FormatterFacts.getProperty_app, FormatterFacts.getProperty_setProperty.
  destruct (getProperty (rev source) key); [reflexivity|].
  rewrite HashFacts.getProperty_cons.
  destruct (String.eqb k key); reflexivity.
Qed.

Lemma getProperty_spread_source target source key v :
  NoDup (map fst source) -> getProperty source key = Some v ->
  getProperty (spread target source) key = Some v.
Proof.
  intros Hnd H. rewrite getProperty_spread.
  rewrite <- (HashFacts.getProperty_permutation source (rev source) key)
    by (try apply Permutation_rev; exact Hnd).
  rewrite H. reflexivity.
Qed.

(** With an item column of width zero the loop that wraps an item name
    takes nothing off a name that is not empty. *)
Lemma wrapItemName_stuck tempName : forall fuel nameLines,
  tempName <> "" -> wrapItemName fuel 0 tempName nameLines = None.
Proof.
  intros fuel nameLines Hne.
  assert (Hlen : (len tempName >? 0)%Z = true).
  { destruct tempName; [contradiction | reflexivity]. }
  assert (Hfirst : substring tempName 0 0 = "").
  { unfold substring, clamp. cbn. destruct tempName; reflexivity. }
  assert (Hrest : substringFrom tempName 0 = tempName).
  { unfold substringFrom, substring, clamp.
    replace (Z.to_nat (Z.min (Z.max 0 0) (len tempName))) with 0%nat by (unfold len; lia).
    replace (Z.to_nat (Z.min (Z.max 0 (len tempName)) (len tempName)))
      with (String.length tempName) by (unfold len; lia).
    cbn [Nat.min Nat.max]. rewrite Nat.sub_0_r.
    clear. induction tempName as [|c s IH]; [reflexivity|].
    cbn [String.length String.substring]. rewrite IH. reflexivity. }
  revert nameLines. induction fuel as [|fuel IH]; intros nameLines; [reflexivity|].
  cbn [wrapItemName]. rewrite Hlen, Hfirst. cbn [lastIndexOfSpace Z.eqb].
  rewrite Hrest. apply IH.
Qed.

(** C8: a profile whose charsPerLine is zero is accepted and laid out
    with. The constructor, which means to replace a missing or zero
    charsPerLine by 32, spreads the caller's fields over its defaults and
    so keeps the zero; updateConfig stores it; the divider is the empty
    string; the text path lays a ticket out and returns its commands
    without any error; and in the bill layout of the same class the item
    column then has width zero, and the loop that wraps an item name runs
    for ever on every name that is not empty. *)
Theorem zero_charsPerLine_accepted :
  (forall config,
     NoDup (map fst config) ->
     getProperty config "charsPerLine" = Some (JNum 0) ->
     charsPerLineOf (Formatter.config (TextFormatter.construct config)) = Some 0%Z) /\
  (forall f newConfig,
     NoDup (map fst newConfig) ->
     getProperty newConfig "charsPerLine" = Some (JNum 0) ->
     charsPerLineOf (Formatter.config (Formatter.updateConfig f newConfig)) = Some 0%Z) /\
  charsPerLineOf (Formatter.config (TextFormatter.construct [])) = Some 32%Z /\
  charsPerLineOf (Formatter.config (TextFormatter.construct [("charsPerLine", JNum 0)]))
  = Some 0%Z /\
  divider 0 = Ok "" /\
  (exists out, printTicketAsText 0 teaTicket = Ok out /\ String.length out = 218%nat) /\
  itemWidthOf 0 = 0%Z /\
  (forall fuel name,
     trim name <> "" -> wrapItemName fuel (itemWidthOf 0) (trim name) [] = None).
Proof.
  split; [|split; [|split; [|split; [|split; [|split; [|split]]]]]].
  - intros config Hnd H. unfold charsPerLineOf, TextFormatter.construct.
    cbn [Formatter.config]. unfold TextFormatter.initialConfig.
    rewrite (getProperty_spread_source _ _ _ _ Hnd H). reflexivity.
  - intros f newConfig Hnd H. unfold charsPerLineOf, Formatter.updateConfig.
    cbn [Formatter.config].
    rewrite (getProperty_spread_source _ _ _ _ Hnd H). reflexivity.
  - reflexivity.
  - reflexivity.
  - reflexivity.
  - eexists. split; [vm_compute; reflexivity|]. vm_compute. reflexivity.
  - reflexivity.
  - intros fuel name Hne. apply wrapItemName_stuck. exact Hne.
Qed.

End LayoutFacts.

(** ** The bitmap, position by position *)

Module BitmapFacts.
Import Raster RasterReader.

Lemma bitAt_high mono i k :
  Forall (fun v => (0 <= v < 256)%Z) mono -> (8 <= k)%nat -> bitAt mono i k = false.
Proof.
  intros Hb Hk. unfold bitAt. destruct (mono !! i) as [v|] eqn:E; [|reflexivity].
  assert (Hv : (0 <= v < 256)%Z).
  { exact (Forall_lookup_1 _ _ _ _ Hb E). }
  destruct (Z.eq_dec v 0%Z) as [->|Hnz]; [apply Z.testbit_0_l|].
  apply Z.bits_above_log2; [lia|].
  assert (Z.log2 v < 8)%Z by (apply Z.log2_lt_pow2; lia). lia.
Qed.

(** The bits of the bitmap are the dark pixels, each at its position. *)
Lemma toMonochrome_bits w h px i k :
  (k < 8)%nat ->
  bitAt (toMonochrome w h px) i k
  = existsb (fun y => existsb (inkAt w px i k y) (seq 0 w)) (seq 0 h).
Proof.
  intros Hk. unfold toMonochrome.
  rewrite RasterFacts.processRows_bits.
  - rewrite RasterFacts.bitAt_replicate_0. reflexivity.
  - exact Hk.
  - intros y x Hy Hx. rewrite length_replicate.
    apply RasterFacts.byteIdx_in_range; [exact Hx|].
    apply in_seq in Hy. lia.
Qed.

Lemma inkAt_true w px i k y x :
  inkAt w px i k y x = true <->
  pixelBit w px x y = true /\ i = (y * widthBytes w + x / 8)%nat /\ k = (7 - x mod 8)%nat.
Proof.
  unfold inkAt. rewrite !andb_true_iff, !Nat.eqb_eq. intuition congruence.
Qed.

(** X1: the bitmap holds a dot exactly where the capture holds a dark
    pixel: a bit is set if and only if it is the bit of a pixel of the
    image whose luma test succeeds. In particular the bits that pad a row
    to a whole byte are never set. *)
Theorem bitmap_dots_are_dark_pixels (c : capture) :
  (forall i k,
     bitAt (monochromeData (convertCapture c)) i k = true <->
     exists x y,
       (x < imageWidth c)%nat /\ (y < imageHeight c)%nat /\
       i = (y * widthBytes (imageWidth c) + x / 8)%nat /\ k = (7 - x mod 8)%nat /\
       pixelBit (imageWidth c) (pixels c) x y = true) /\
  (forall x y,
     (imageWidth c <= x < 8 * widthBytes (imageWidth c))%nat ->
     bitAt (monochromeData (convertCapture c))
       (y * widthBytes (imageWidth c) + x / 8) (7 - x mod 8) = false).
Proof.
  assert (Hchar : forall i k,
     bitAt (monochromeData (convertCapture c)) i k = true <->
     exists x y,
       (x < imageWidth c)%nat /\ (y < imageHeight c)%nat /\
       i = (y * widthBytes (imageWidth c) + x / 8)%nat /\ k = (7 - x mod 8)%nat /\
       pixelBit (imageWidth c) (pixels c) x y = true).
  { intros i k. unfold convertCapture; cbn [monochromeData].
    destruct (le_lt_dec 8 k) as [Hk|Hk].
    - rewrite bitAt_high by (apply RasterFacts.toMonochrome_bytes || exact Hk).
      split; [discriminate|]. intros (x & y & _ & _ & _ & Hk' & _). lia.
    - rewrite toMonochrome_bits by exact Hk. rewrite existsb_exists. split.
      + intros (y & Hy & Hex). apply existsb_exists in Hex as (x & Hx & Hink).
        apply in_seq in Hy. apply in_seq in Hx. apply inkAt_true in Hink as (Hp & Hi & Hk').
        exists x, y. repeat split; (lia || assumption).
      + intros (x & y & Hx & Hy & Hi & Hk' & Hp). exists y. split; [apply in_seq; lia|].
        apply existsb_exists. exists x. split; [apply in_seq; lia|].
        apply inkAt_true. repeat split; assumption. }
  split; [exact Hchar|].
  intros x y [Hlo Hhi].
  destruct (bitAt _ _ _) eqn:E; [|reflexivity]. exfalso.
  apply Hchar in E as (x0 & y0 & Hx0 & Hy0 & Hi & Hk & _).
  set (wb := widthBytes (imageWidth c)) in *.
  assert (Hq : (x / 8 < wb)%nat) by (apply Nat.Div0.div_lt_upper_bound; lia).
  assert (Hq0 : (x0 / 8 < wb)%nat) by (apply RasterFacts.div8_lt_widthBytes; exact Hx0).
  assert (Hm : (x mod 8 < 8)%nat) by (apply Nat.mod_upper_bound; lia).
  assert (Hm0 : (x0 mod 8 < 8)%nat) by (apply Nat.mod_upper_bound; lia).
  assert (Hy : y = y0) by nia. subst y0.
  assert (Hd : (x / 8 = x0 / 8)%nat) by nia.
  pose proof (Nat.div_mod_eq x 8). pose proof (Nat.div_mod_eq x0 8). lia.
Qed.

(** X2: what the printer prints is the thresholded image: when the row
    takes fewer than 65536 bytes, the dot the printer reads at (x, y) of
    the emitted command, with the stride the header declares, is the
    result of the luma test on pixel (x, y); and when the image has fewer
    than 65536 rows, row y is among the rows the header declares. *)
Theorem printed_dots_are_pixels (c : capture) (cmd : list Z) (x y : nat) :
  formatImageForPrinter (Some (convertCapture c)) = Ok cmd ->
  (Z.of_nat (widthBytes (imageWidth c)) < 65536)%Z ->
  (x < imageWidth c)%nat -> (y < imageHeight c)%nat ->
  printedDot cmd x y = pixelBit (imageWidth c) (pixels c) x y /\
  (Z.of_nat x < 8 * declaredWidthBytes cmd)%Z /\
  ((Z.of_nat (imageHeight c) < 65536)%Z -> (Z.of_nat y < declaredHeight cmd)%Z).
Proof.
  intros Hcmd Hwb Hx Hy.
  assert (Hw : width (convertCapture c) <> 0%nat) by (cbn [convertCapture width]; lia).
  assert (Hh : height (convertCapture c) <> 0%nat) by (cbn [convertCapture height]; lia).
  destruct (RasterFacts.formatImageForPrinter_fields (convertCapture c) Hw Hh)
    as (cmd' & Hcmd' & _ & _ & Hpay & Hdw & Hdh).
  { apply RasterFacts.toMonochrome_bytes. }
  rewrite Hcmd in Hcmd'. injection Hcmd' as <-.
  cbn [convertCapture width height] in Hdw, Hdh.
  rewrite Z.mod_small in Hdw by lia.
  pose proof (RasterFacts.div8_lt_widthBytes x (imageWidth c) Hx) as Hq.
  split; [|split].
  - unfold printedDot. rewrite Hpay, Hdw, Nat2Z.id.
    unfold convertCapture; cbn [monochromeData].
    apply RasterFacts.toMonochrome_bitAt; assumption.
  - rewrite Hdw. pose proof (Nat.div_mod_eq x 8).
    assert (x mod 8 < 8)%nat by (apply Nat.mod_upper_bound; lia). lia.
  - intros Hhb. rewrite Hdh, Z.mod_small by lia. lia.
Qed.

Lemma printed_dots_are_pixels_witness :
  printedDot [29; 118; 48; 0; 1; 0; 1; 0; 128]%Z 0 0
  = pixelBit (imageWidth greyCapture) (pixels greyCapture) 0 0 /\
  (Z.of_nat 0 < 8 * declaredWidthBytes [29; 118; 48; 0; 1; 0; 1; 0; 128]%Z)%Z /\
  ((Z.of_nat (imageHeight greyCapture) < 65536)%Z ->
   (Z.of_nat 0 < declaredHeight [29; 118; 48; 0; 1; 0; 1; 0; 128]%Z)%Z).
Proof.
  apply (printed_dots_are_pixels greyCapture [29; 118; 48; 0; 1; 0; 1; 0; 128]%Z 0 0).
  - reflexivity.
  - vm_compute. reflexivity.
  - simpl. lia.
  - simpl. lia.
Defined.

End BitmapFacts.

(** ** The stream printToTCPPrinter sends *)

Module StreamFacts.
Import Raster Codec.

Lemma startsWith_low_bytes pattern : forall data,
  Forall (fun c => (0 <= c < 256)%Z) pattern ->
  startsWith pattern data = true ->
  startsWith pattern (bufferFromBinary data) = true.
Proof.
  unfold bufferFromBinary.
  induction pattern as [|p pattern IH]; intros [|d data] Hp H; cbn [map startsWith] in *;
    try (reflexivity || discriminate).
  apply Forall_cons in Hp as [Hp0 Hp]. apply andb_true_iff in H as [H0 H].
  apply Z.eqb_eq in H0. subst d. rewrite Z.mod_small by exact Hp0.
  rewrite Z.eqb_refl. apply IH; assumption.
Qed.

Lemma includes_low_bytes pattern data :
  Forall (fun c => (0 <= c < 256)%Z) pattern ->
  includes data pattern = true ->
  includes (bufferFromBinary data) pattern = true.
Proof.
  intros Hp. induction data as [|d data IH]; intros H.
  - destruct pattern; [reflexivity | discriminate H].
  - cbn [includes] in H. apply orb_true_iff in H as [H|H].
    + change (bufferFromBinary (d :: data)) with ((d mod 256)%Z :: bufferFromBinary data).
      cbn [includes].
      change ((d mod 256)%Z :: bufferFromBinary data) with (bufferFromBinary (d :: data)).
      rewrite (startsWith_low_bytes pattern (d :: data) Hp H). reflexivity.
    + change (bufferFromBinary (d :: data)) with ((d mod 256)%Z :: bufferFromBinary data).
      cbn [includes]. rewrite (IH H). apply orb_true_r.
Qed.

Lemma hasCutCommand_low_bytes data :
  hasCutCommand data = true -> hasCutCommand (bufferFromBinary data) = true.
Proof.
  unfold hasCutCommand. intros H.
  apply orb_true_iff in H as [H|H]; [apply orb_true_iff in H as [H|H]|].
  - rewrite (includes_low_bytes [27; 100]%Z data); [reflexivity | | exact H].
    repeat constructor; lia.
  - rewrite (includes_low_bytes [27; 86]%Z data); [| | exact H].
    + rewrite orb_true_r. reflexivity.
    + repeat constructor; lia.
  - rewrite (includes_low_bytes [29; 86]%Z data); [apply orb_true_r | | exact H].
    repeat constructor; lia.
Qed.

Lemma bufferFromBinary_range data :
  Forall (fun c => (0 <= c < 256)%Z) (bufferFromBinary data).
Proof.
  unfold bufferFromBinary. apply Forall_map, Forall_forall. intros c _.
  apply Z.mod_pos_bound. lia.
Qed.

(** X3: whatever the data, the buffer printToTCPPrinter writes to the
    socket is the low bytes of the data followed by nothing or by the four
    bytes GS V A 16; it consists of bytes, it is four bytes longer than the
    data exactly when the data held none of the three byte pairs, and it
    always holds one of them. *)
Theorem finalBuffer_shape (data : list Z) :
  finalBuffer data
  = (bufferFromBinary data ++ (if hasCutCommand data then [] else [29; 86; 65; 16]))%Z /\
  length (finalBuffer data)
  = (length data + (if hasCutCommand data then 0 else 4))%nat /\
  Forall (fun c => (0 <= c < 256)%Z) (finalBuffer data) /\
  hasCutCommand (finalBuffer data) = true.
Proof.
  unfold finalBuffer, cutCommand.
  destruct (hasCutCommand data) eqn:H; cbn [negb].
  - rewrite app_nil_r. split; [reflexivity|]. split.
    { unfold bufferFromBinary. rewrite length_map. lia. }
    split; [apply bufferFromBinary_range|].
    apply hasCutCommand_low_bytes. exact H.
  - split; [reflexivity|]. split.
    { rewrite length_app. unfold bufferFromBinary. rewrite length_map. reflexivity. }
    split.
    { apply Forall_app. split; [apply bufferFromBinary_range|]. repeat constructor; lia. }
    unfold hasCutCommand.
    rewrite (CodecFacts.includes_app_r (bufferFromBinary data) _ [29; 86]%Z) by reflexivity.
    apply orb_true_r.
Qed.

(** X4: a stream that a formatter has ended itself reaches the printer as
    it is: the text path of src/unnamed/part_000 (addCuttingCommands), its
    image path, and printAsImage of src/print-formatter.js each end with a
    feed and a cut, and printToTCPPrinter adds nothing to them. *)
Theorem formatter_streams_sent_unchanged (printCommands : list Z) :
  Forall (fun c => (0 <= c < 256)%Z) printCommands ->
  finalBuffer (addCuttingCommands printCommands)
  = printCommands ++ [27; 100; 3; 7; 7; 29; 86; 0]%Z /\
  finalBuffer (printAsImage_output printCommands)
  = [27; 64]%Z ++ printCommands ++ [27; 66; 2; 1; 10; 27; 100; 3; 29; 86; 66; 3]%Z /\
  finalBuffer (printContentAsImage_output printCommands)
  = [27; 64]%Z ++ printCommands
    ++ [27; 100; 8; 7; 7; 27; 66; 3; 3; 1; 29; 86; 0; 29; 86; 65; 3]%Z.
Proof.
  intros Hb.
  destruct (CodecFacts.formatter_output_kept printCommands) as (H1 & H2 & H3).
  assert (Hbytes : forall pre post,
            Forall (fun c => (0 <= c < 256)%Z) pre ->
            Forall (fun c => (0 <= c < 256)%Z) post ->
            bufferFromBinary (pre ++ printCommands ++ post) = pre ++ printCommands ++ post).
  { intros pre post Hpre Hpost. apply CodecFacts.bufferFromBinary_bytes.
    apply Forall_app. split; [exact Hpre|]. apply Forall_app. split; assumption. }
  unfold finalBuffer. rewrite H1, H2, H3. cbn [negb].
  unfold addCuttingCommands, printAsImage_output, printContentAsImage_output, ESC, GS, BEL.
  repeat split.
  - apply (Hbytes [] [27; 100; 3; 7; 7; 29; 86; 0]%Z); repeat constructor; lia.
  - apply (Hbytes [27; 64]%Z [27; 66; 2; 1; 10; 27; 100; 3; 29; 86; 66; 3]%Z);
      repeat constructor; lia.
  - apply (Hbytes [27; 64]%Z
             [27; 100; 8; 7; 7; 27; 66; 3; 3; 1; 29; 86; 0; 29; 86; 65; 3]%Z);
      repeat constructor; lia.
Qed.

Lemma formatter_streams_sent_unchanged_witness :
  finalBuffer (addCuttingCommands [72; 105]%Z)
  = [72; 105]%Z ++ [27; 100; 3; 7; 7; 29; 86; 0]%Z /\
  finalBuffer (printAsImage_output [72; 105]%Z)
  = [27; 64]%Z ++ [72; 105]%Z ++ [27; 66; 2; 1; 10; 27; 100; 3; 29; 86; 66; 3]%Z /\
  finalBuffer (printContentAsImage_output [72; 105]%Z)
  = [27; 64]%Z ++ [72; 105]%Z
    ++ [27; 100; 8; 7; 7; 27; 66; 3; 3; 1; 29; 86; 0; 29; 86; 65; 3]%Z.
Proof.
  apply (formatter_streams_sent_unchanged [72; 105]%Z). repeat constructor; lia.
Defined.

End StreamFacts.

(** ** The configuration object *)

Module ConfigFacts.
Import Js Formatter.
Local Open Scope string_scope.

(** A property after [{...target, ...source}], for a source with distinct
    keys. *)
Lemma getProperty_spread_distinct target source key :
  NoDup (map fst source) ->
  getProperty (spread target source) key
  = match getProperty source key with
    | Some v => Some v
    | None => getProperty target key
    end.
Proof.
  intros Hnd. rewrite LayoutFacts.getProperty_spread.
  rewrite <- (HashFacts.getProperty_permutation source (rev source) key)
    by (try apply Permutation_rev; exact Hnd).
  reflexivity.
Qed.

(** Assigning a property the value it has changes nothing. *)
Lemma setProperty_same fields key v :
  getProperty fields key = Some v -> setProperty fields key v = fields.
Proof.
  intros H. unfold setProperty.
  assert (Hk : hasKey fields key = true).
  { destruct (hasKey fields key) eqn:E; [reflexivity|].
    rewrite FormatterFacts.getProperty_hasKey_false in H by exact E. discriminate. }
  rewrite Hk. clear Hk.
  induction fields as [|[k x] fields IH]; [reflexivity|].
  rewrite HashFacts.getProperty_cons in H. cbn [replaceField].
  destruct (String.eqb k key); [congruence|]. rewrite IH by exact H. reflexivity.
Qed.

Lemma setProperty_twice fields key v :
  setProperty (setProperty fields key v) key v = setProperty fields key v.
Proof.
  apply setProperty_same. rewrite FormatterFacts.getProperty_setProperty, String.eqb_refl.
  reflexivity.
Qed.

Lemma spread_unchanged target source :
  (forall k v, In (k, v) source -> getProperty target k = Some v) ->
  spread target source = target.
Proof.
  unfold spread. induction source as [|[k v] source IH]; intros H; [reflexivity|].
  cbn [fold_left fst snd]. rewrite setProperty_same by (apply H; left; reflexivity).
  apply IH. intros k' v' Hin. apply H. right. exact Hin.
Qed.

Lemma getProperty_In fields k v :
  NoDup (map fst fields) -> In (k, v) fields -> getProperty fields k = Some v.
Proof.
  induction fields as [|[k0 v0] fields IH]; intros Hnd Hin; [destruct Hin|].
  cbn [map fst] in Hnd. apply NoDup_cons in Hnd as [Hnotin Hnd].
  rewrite HashFacts.getProperty_cons. destruct Hin as [E|Hin].
  - injection E as -> ->. rewrite String.eqb_refl. reflexivity.
  - destruct (String.eqb_spec k0 k) as [->|_]; [|apply IH; assumption].
    exfalso. apply Hnotin. apply list_elem_of_In.
    apply (in_map fst) in Hin. exact Hin.
Qed.

(** Spreading the same source twice is spreading it once. *)
Lemma spread_twice target source :
  NoDup (map fst source) -> spread (spread target source) source = spread target source.
Proof.
  intros Hnd. apply spread_unchanged. intros k v Hin.
  rewrite getProperty_spread_distinct by exact Hnd.
  rewrite (getProperty_In source k v Hnd Hin). reflexivity.
Qed.

(** X5: the configuration the constructors and updateConfig build. A
    property the caller gives is kept as given, a falsy value included;
    the defaults (384, 1 and 24 in src/print-formatter.js, and 32, 0, 24,
    16 and 0 more in src/unnamed/part_000) fill the properties the caller
    leaves out; updateConfig overrides the properties of its argument and
    keeps the others. *)
Theorem configuration_properties (config : list (string * json)) :
  NoDup (map fst config) ->
  (forall key,
     getProperty (Formatter.config (construct config)) key
     = match getProperty config key with
       | Some v => Some v
       | None =>
         getProperty [("lineWidth", JNum 384); ("deviceScaleFactor", JNum 1);
                      ("fontSize", JNum 24)] key
       end) /\
  (forall key,
     getProperty (Formatter.config (TextFormatter.construct config)) key
     = match getProperty config key with
       | Some v => Some v
       | None =>
         getProperty [("lineWidth", JNum 384); ("deviceScaleFactor", JNum 1);
                      ("fontSize", JNum 24); ("charsPerLine", JNum 32);
                      ("normalSize", JNum 0); ("largeSize", JNum 24);
                      ("mediumSize", JNum 16); ("smallSize", JNum 0)] key
       end) /\
  (forall f key,
     getProperty (Formatter.config (updateConfig f config)) key
     = match getProperty config key with
       | Some v => Some v
       | None => getProperty (Formatter.config f) key
       end) /\
  (forall f, updateConfig (updateConfig f config) config = updateConfig f config).
Proof.
  intros Hnd. split; [|split; [|split]].
  - intros key. unfold construct, initialConfig. cbn [Formatter.config].
    rewrite getProperty_spread_distinct by exact Hnd.
    destruct (getProperty config key) as [v|] eqn:E; [reflexivity|].
    rewrite !HashFacts.getProperty_cons.
    repeat match goal with
           | |- context [String.eqb ?a key] =>
             destruct (String.eqb_spec a key) as [<-|_]; [rewrite E; reflexivity|]
           end.
    reflexivity.
  - intros key. unfold TextFormatter.construct, TextFormatter.initialConfig.
    cbn [Formatter.config].
    rewrite getProperty_spread_distinct by exact Hnd.
    destruct (getProperty config key) as [v|] eqn:E; [reflexivity|].
    rewrite !HashFacts.getProperty_cons.
    repeat match goal with
           | |- context [String.eqb ?a key] =>
             destruct (String.eqb_spec a key) as [<-|_]; [rewrite E; reflexivity|]
           end.
    reflexivity.
  - intros f key. unfold updateConfig. cbn [Formatter.config].
    apply getProperty_spread_distinct. exact Hnd.
  - intros f. unfold updateConfig. cbn [Formatter.config cacheSettings imageCache].
    rewrite spread_twice by exact Hnd. reflexivity.
Qed.

Lemma configuration_properties_witness :
  (forall key,
     getProperty (Formatter.config (construct [("lineWidth", JNum 0)])) key
     = match getProperty [("lineWidth", JNum 0)] key with
       | Some v => Some v
       | None =>
         getProperty [("lineWidth", JNum 384); ("deviceScaleFactor", JNum 1);
                      ("fontSize", JNum 24)] key
       end) /\
  (forall key,
     getProperty (Formatter.config (TextFormatter.construct [("lineWidth", JNum 0)])) key
     = match getProperty [("lineWidth", JNum 0)] key with
       | Some v => Some v
       | None =>
         getProperty [("lineWidth", JNum 384); ("deviceScaleFactor", JNum 1);
                      ("fontSize", JNum 24); ("charsPerLine", JNum 32);
                      ("normalSize", JNum 0); ("largeSize", JNum 24);
                      ("mediumSize", JNum 16); ("smallSize", JNum 0)] key
       end) /\
  (forall f key,
     getProperty (Formatter.config (updateConfig f [("lineWidth", JNum 0)])) key
     = match getProperty [("lineWidth", JNum 0)] key with
       | Some v => Some v
       | None => getProperty (Formatter.config f) key
       end) /\
  (forall f, updateConfig (updateConfig f [("lineWidth", JNum 0)]) [("lineWidth", JNum 0)]
             = updateConfig f [("lineWidth", JNum 0)]).
Proof.
  apply (configuration_properties [("lineWidth", JNum 0)]).
  apply (bool_decide_unpack _). vm_compute. exact I.
Defined.

End ConfigFacts.

(** ** The two cache tiers in printContentAsImage *)

Module CacheFacts.
Import Js Raster Formatter FormatterOps.
Local Open Scope string_scope.

Lemma updateCacheConfig_twice c u :
  updateCacheConfig (updateCacheConfig c u) u = updateCacheConfig c u.
Proof.
  unfold updateCacheConfig. cbn [enabled maxAge persistToDisk].
  destruct (newEnabled u), (newMaxAge u), (newPersistToDisk u); reflexivity.
Qed.

(** Applying the options of a call to a formatter that has them already
    leaves it as it is. *)
Lemma applyOptions_twice f options :
  (forall pc, printerConfig options = Some pc -> NoDup (map fst pc)) ->
  applyOptions (applyOptions f options) options = applyOptions f options.
Proof.
  intros Hnd. unfold applyOptions.
  destruct (printerConfig options) as [pc|] eqn:Hpc;
    destruct (cacheConfigOption options) as [cc|];
    cbn [config cacheSettings imageCache updateConfig];
    rewrite ?updateCacheConfig_twice;
    try (unfold updateConfig; cbn [config cacheSettings imageCache];
         rewrite (ConfigFacts.spread_twice _ pc) by (apply Hnd; reflexivity));
    try reflexivity.
Qed.

Lemma applyOptions_imageCache f options :
  imageCache (applyOptions f options) = imageCache f.
Proof.
  unfold applyOptions.
  destruct (printerConfig options), (cacheConfigOption options); reflexivity.
Qed.

(** The options of a call read the configuration and the cache settings
    of the formatter, not its memory tier. *)
Lemma applyOptions_cacheSet f options hash img :
  applyOptions (cacheSet f hash img) options = cacheSet (applyOptions f options) hash img.
Proof.
  unfold applyOptions, cacheSet, updateConfig.
  destruct (printerConfig options), (cacheConfigOption options); reflexivity.
Qed.

(** The options act on the configuration and the cache settings, and
    hand the memory tier on. *)
Lemma applyOptions_memory g f options :
  config f = config g -> cacheSettings f = cacheSettings g ->
  applyOptions g options
  = {| config := config (applyOptions f options);
       cacheSettings := cacheSettings (applyOptions f options);
       imageCache := imageCache g |}.
Proof.
  intros Hc Hs. unfold applyOptions, updateConfig.
  destruct (printerConfig options), (cacheConfigOption options);
    cbn [config cacheSettings imageCache]; rewrite ?Hc, ?Hs; try reflexivity.
  destruct g; reflexivity.
Qed.

Lemma cachePath_inj h1 h2 : cachePath h1 = cachePath h2 -> h1 = h2.
Proof. unfold cachePath. apply JsFacts.append_cancel_r. Qed.

(** A call that finds the image in memory frames it and changes nothing
    but the configuration the options carry. *)
Lemma run_memory_hit sha256hex capturePage formatKOTToHTML formatBillToHTML nowRead nowWrite
    s type options img :
  let f := applyOptions (self s) options in
  let content' := setProperty (content s) "_printMethod" (JStr "html-image") in
  enabled (cacheSettings f) = true -> skipCache options = false ->
  imageCache f !! generateContentHash sha256hex f (JObj content') type = Some img ->
  printContentAsImage sha256hex capturePage formatKOTToHTML formatBillToHTML
    nowRead nowWrite s type options
  = (failed type (formatImageForPrinter (Some img)),
     {| content := content'; self := f; disk := disk s |}).
Proof.
  intros f content' Hen Hskip Hhit. unfold printContentAsImage.
  fold f. fold content'. rewrite Hen, Hskip. cbn [negb andb].
  rewrite Hhit. reflexivity.
Qed.

Section Pipeline.

Variable sha256hex : string -> string.
Variable capturePage : list (string * json) -> string -> result capture.
Variable formatKOTToHTML : list (string * json) -> json -> result string.
Variable formatBillToHTML : list (string * json) -> json -> result string.
Variable nowRead nowWrite : Z.

Let run := printContentAsImage sha256hex capturePage formatKOTToHTML formatBillToHTML
             nowRead nowWrite.

(** What a call with the cache in use leaves in memory: it throws before
    an image is there and leaves the memory tier as it was, or it holds
    the image it framed under the fingerprint of the content. *)
Lemma run_cached_outcome s type options :
  let f := applyOptions (self s) options in
  let content' := setProperty (content s) "_printMethod" (JStr "html-image") in
  let hash := generateContentHash sha256hex f (JObj content') type in
  enabled (cacheSettings f) = true -> skipCache options = false ->
  content (snd (run s type options)) = content' /\
  config (self (snd (run s type options))) = config f /\
  cacheSettings (self (snd (run s type options))) = cacheSettings f /\
  ((exists m, fst (run s type options) = Throw m) \/
   (exists img,
      imageCache (self (snd (run s type options))) !! hash = Some img /\
      fst (run s type options) = failed type (formatImageForPrinter (Some img)))).
Proof.
  intros f content' hash Hen Hskip. unfold run, printContentAsImage.
  fold f. fold content'. fold hash. rewrite Hen, Hskip. cbn [negb andb].
  destruct (imageCache f !! hash) as [img|] eqn:Hm.
  { cbn [fst snd content self]. repeat split. right. exists img. split; [exact Hm | reflexivity]. }
  destruct (persistToDisk (cacheSettings f)) eqn:Hp.
  - destruct (loadCacheFromDisk (cacheSettings f) nowRead hash (disk s)) as [[img|] d] eqn:Hl.
    + cbn [fst snd content self cacheSet config cacheSettings imageCache].
      repeat split. right. exists img. split; [apply lookup_insert_eq | reflexivity].
    + destruct (formatToHTML formatKOTToHTML formatBillToHTML f (JObj content') type)
        as [html|m]; [|cbn; repeat split; left; eexists; reflexivity].
      destruct (convertHTMLToImageNode capturePage f html) as [img|m];
        [|cbn; repeat split; left; eexists; reflexivity].
      cbn [fst snd content self cacheSet config cacheSettings imageCache andb].
      repeat split. right. exists img. split; [apply lookup_insert_eq | reflexivity].
  - destruct (formatToHTML formatKOTToHTML formatBillToHTML f (JObj content') type)
      as [html|m]; [|cbn; repeat split; left; eexists; reflexivity].
    destruct (convertHTMLToImageNode capturePage f html) as [img|m];
      [|cbn; repeat split; left; eexists; reflexivity].
    cbn [fst snd content self cacheSet config cacheSettings imageCache andb].
    repeat split. right. exists img. split; [apply lookup_insert_eq | reflexivity].
Qed.

(** X6: a call that succeeded with the cache in use is answered from
    memory when it is repeated: the same commands come back and nothing
    changes, whatever the browser, the templates and the clock do at the
    second call. The memory tier has no expiry. *)
Theorem repeated_call_served_from_memory (s : state) (type : string) (options : options)
    (cmds : list Z) :
  (forall pc, printerConfig options = Some pc -> NoDup (map fst pc)) ->
  enabled (cacheSettings (applyOptions (self s) options)) = true ->
  skipCache options = false ->
  fst (run s type options) = Ok cmds ->
  forall capturePage' formatKOTToHTML' formatBillToHTML' nowRead' nowWrite',
    printContentAsImage sha256hex capturePage' formatKOTToHTML' formatBillToHTML'
      nowRead' nowWrite' (snd (run s type options)) type options
    = (Ok cmds, snd (run s type options)).
Proof.
  intros Hnd Hen Hskip Hok capturePage' formatKOTToHTML' formatBillToHTML' nowRead' nowWrite'.
  destruct (run_cached_outcome s type options Hen Hskip) as (Hc & Hcfg & Hcs & Hout).
  destruct Hout as [[m Hm]|[img [Hhit Hres]]]; [rewrite Hm in Hok; discriminate|].
  set (s' := snd (run s type options)) in *.
  set (f := applyOptions (self s) options) in *.
  assert (Hself : applyOptions (self s') options = self s').
  { pose proof (applyOptions_twice (self s) options Hnd) as Htw. fold f in Htw.
    rewrite (applyOptions_memory (self s') f options) by (symmetry; assumption).
    rewrite Htw. destruct (self s') as [c cs ic]. cbn in Hcfg, Hcs |- *. subst.
    reflexivity. }
  assert (Hcontent : setProperty (content s') "_printMethod" (JStr "html-image") = content s').
  { rewrite Hc. apply ConfigFacts.setProperty_twice. }
  rewrite (run_memory_hit sha256hex capturePage' formatKOTToHTML' formatBillToHTML'
             nowRead' nowWrite' s' type options img).
  - rewrite Hcontent, Hself, <- Hres, Hok. destruct s'; reflexivity.
  - rewrite Hself, Hcs. exact Hen.
  - exact Hskip.
  - rewrite Hself, Hcontent.
    unfold generateContentHash in Hhit |- *. rewrite Hcfg, Hc. exact Hhit.
Qed.

(** X7: with the cache switched off or skipped for the call, neither tier
    is read or written: the call renders, whatever the tiers hold, and
    leaves both as they were. *)
Theorem cache_bypassed (s : state) (type : string) (options : options) :
  enabled (cacheSettings (applyOptions (self s) options)) && negb (skipCache options)
  = false ->
  let f := applyOptions (self s) options in
  let content' := setProperty (content s) "_printMethod" (JStr "html-image") in
  fst (run s type options)
  = failed type
      (do htmlContent <- formatToHTML formatKOTToHTML formatBillToHTML f (JObj content') type;
       do c <- capturePage (config f) htmlContent;
       formatImageForPrinter (Some (convertCapture c))) /\
  imageCache (self (snd (run s type options))) = imageCache (self s) /\
  disk (snd (run s type options)) = disk s.
Proof.
  intros Hoff f content'. fold f in Hoff.
  unfold run, printContentAsImage. fold f. fold content'.
  rewrite Hoff. unfold convertHTMLToImageNode.
  destruct (formatToHTML formatKOTToHTML formatBillToHTML f (JObj content') type) as [html|m];
    cbn [bind fst snd self disk].
  - destruct (capturePage (config f) html) as [c|m]; cbn [bind fst snd self disk];
      repeat split; apply applyOptions_imageCache.
  - repeat split. apply applyOptions_imageCache.
Qed.

(** X8: a call touches the entry of its own content only. In both tiers
    every entry under another fingerprint, and every other file of the
    cache directory, is after the call what it was before; and no entry
    leaves the memory tier. *)
Theorem other_entries_untouched (s : state) (type : string) (options : options) :
  let f := applyOptions (self s) options in
  let content' := setProperty (content s) "_printMethod" (JStr "html-image") in
  let hash := generateContentHash sha256hex f (JObj content') type in
  (forall hash', hash' <> hash ->
     imageCache (self (snd (run s type options))) !! hash' = imageCache (self s) !! hash') /\
  (forall path, path <> cachePath hash ->
     disk (snd (run s type options)) !! path = disk s !! path) /\
  (forall hash' img, imageCache (self s) !! hash' = Some img ->
     imageCache (self (snd (run s type options))) !! hash' = Some img).
Proof.
  intros f content' hash.
  assert (Hload : forall path, path <> cachePath hash ->
            snd (loadCacheFromDisk (cacheSettings f) nowRead hash (disk s)) !! path
            = disk s !! path).
  { intros path Hne. unfold loadCacheFromDisk.
    destruct (disk s !! cachePath hash) as [[entry|]|]; try reflexivity.
    destruct (nowRead - timestamp entry >? maxAge (cacheSettings f))%Z; [|reflexivity].
    cbn [snd]. apply lookup_delete_ne. congruence. }
  assert (Hmem : imageCache f = imageCache (self s)) by apply applyOptions_imageCache.
  unfold run, printContentAsImage. fold f. fold content'. fold hash.
  destruct (enabled (cacheSettings f) && negb (skipCache options)) eqn:Huse.
  - destruct (imageCache f !! hash) as [img0|] eqn:Hm.
    { cbn [snd self disk]. rewrite Hmem. repeat split; auto. }
    destruct (persistToDisk (cacheSettings f)) eqn:Hp.
    + specialize Hload.
      destruct (loadCacheFromDisk (cacheSettings f) nowRead hash (disk s)) as [[img0|] d] eqn:Hl;
        cbn [snd] in Hload.
      * cbn [snd self disk cacheSet imageCache]. rewrite Hmem. repeat split.
        -- intros hash' Hne. apply lookup_insert_ne. congruence.
        -- exact Hload.
        -- intros hash' img Hin. rewrite lookup_insert_ne; [exact Hin|].
           intros ->. rewrite <- Hmem, Hm in Hin. discriminate.
      * destruct (formatToHTML formatKOTToHTML formatBillToHTML f (JObj content') type)
          as [html|m]; [|cbn [snd self disk]; rewrite Hmem; repeat split; auto].
        destruct (convertHTMLToImageNode capturePage f html) as [img1|m];
          [|cbn [snd self disk]; rewrite Hmem; repeat split; auto].
        cbn [snd self disk cacheSet imageCache andb]. rewrite Hmem. repeat split.
        -- intros hash' Hne. apply lookup_insert_ne. congruence.
        -- intros path Hne. rewrite Hp. unfold saveCacheToDisk.
           rewrite lookup_insert_ne by congruence. apply Hload. exact Hne.
        -- intros hash' img Hin. rewrite lookup_insert_ne; [exact Hin|].
           intros ->. rewrite <- Hmem, Hm in Hin. discriminate.
    + destruct (formatToHTML formatKOTToHTML formatBillToHTML f (JObj content') type)
        as [html|m]; [|cbn [snd self disk]; rewrite Hmem; repeat split; auto].
      destruct (convertHTMLToImageNode capturePage f html) as [img1|m];
        [|cbn [snd self disk]; rewrite Hmem; repeat split; auto].
      cbn [snd self disk cacheSet imageCache andb]. rewrite Hmem, Hp. repeat split; auto.
      * intros hash' Hne. apply lookup_insert_ne. congruence.
      * intros hash' img Hin. rewrite lookup_insert_ne; [exact Hin|].
        intros ->. rewrite <- Hmem, Hm in Hin. discriminate.
  - destruct (formatToHTML formatKOTToHTML formatBillToHTML f (JObj content') type)
      as [html|m]; [|cbn [snd self disk]; rewrite Hmem; repeat split; auto].
    destruct (convertHTMLToImageNode capturePage f html) as [img1|m];
      cbn [snd self disk]; rewrite Hmem; repeat split; auto.
Qed.

(** X9: a type other than kot and bill, in any letter case, is refused
    with the message
    [Failed to print <type>: Unsupported format type: <type>] by
    printContentAsImage of src/print-formatter.js and by the text path of
    printContent of src/unnamed/part_000; through the image path of
    printContent the prefix comes twice. The image paths answer so when
    neither tier holds an entry for the content; no template and no
    browser is called and nothing is stored. *)
Theorem unsupported_type_refused (s : state) (type : string) :
  Ticket.toLowerCase type <> "kot" -> Ticket.toLowerCase type <> "bill" ->
  (forall options,
     let f := applyOptions (self s) options in
     let content' := setProperty (content s) "_printMethod" (JStr "html-image") in
     let hash := generateContentHash sha256hex f (JObj content') type in
     imageCache f !! hash = None -> disk s !! cachePath hash = None ->
     run s type options
     = (Throw ("Failed to print " ++ type ++ ": Unsupported format type: " ++ type),
        {| content := content'; self := f; disk := disk s |})) /\
  (forall formatKOTContent formatBillContent options,
     TextFormatter.printMethod options <> Some "image" ->
     fst (TextFormatter.printContent sha256hex capturePage formatKOTToHTML formatBillToHTML
            nowRead nowWrite formatKOTContent formatBillContent s type options)
     = Throw ("Failed to print " ++ type ++ ": Unsupported format type: " ++ type)) /\
  (forall formatKOTContent formatBillContent options,
     TextFormatter.printMethod options = Some "image" ->
     TextFormatter.cacheConfigOption options = None ->
     let f := match TextFormatter.printerConfig options with
              | Some pc => updateConfig (self s) pc
              | None => self s
              end in
     let content' := setProperty (content s) "_printMethod" (JStr "image") in
     let hash := TextFormatter.generateContentHash sha256hex f (JObj content') type in
     imageCache f !! hash = None -> disk s !! cachePath hash = None ->
     TextFormatter.printContent sha256hex capturePage formatKOTToHTML formatBillToHTML
       nowRead nowWrite formatKOTContent formatBillContent s type options
     = (Throw ("Failed to print " ++ type ++ ": Failed to print " ++ type
               ++ ": Unsupported format type: " ++ type),
        {| content := content'; self := f; disk := disk s |})).
Proof.
  intros Hkot Hbill.
  assert (Hhtml : forall f c,
            formatToHTML formatKOTToHTML formatBillToHTML f c type
            = Throw ("Unsupported format type: " ++ type)).
  { intros f c. unfold formatToHTML.
    destruct (String.eqb_spec (Ticket.toLowerCase type) "kot"); [contradiction|].
    destruct (String.eqb_spec (Ticket.toLowerCase type) "bill"); [contradiction|].
    reflexivity. }
  split; [|split].
  - intros options f content' hash Hmem Hdisk. unfold run, printContentAsImage.
    fold f. fold content'. fold hash. rewrite Hmem.
    unfold loadCacheFromDisk. rewrite Hdisk.
    destruct (enabled (cacheSettings f) && negb (skipCache options));
      [destruct (persistToDisk (cacheSettings f))|]; rewrite Hhtml; reflexivity.
  - intros formatKOTContent formatBillContent options Hmethod.
    unfold TextFormatter.printContent, TextFormatter.printContentAsText.
    destruct (String.eqb_spec (Ticket.toLowerCase type) "kot"); [contradiction|].
    destruct (String.eqb_spec (Ticket.toLowerCase type) "bill"); [contradiction|].
    destruct (TextFormatter.printMethod options) as [m|].
    + destruct (String.eqb_spec m "") as [->|Hm]; [reflexivity|].
      destruct (String.eqb_spec m "image") as [->|_]; [congruence | reflexivity].
    + reflexivity.
  - intros formatKOTContent formatBillContent options Hmethod Hcc f content' hash Hmem Hdisk.
    unfold TextFormatter.printContent, TextFormatter.printContentAsImage.
    rewrite Hmethod, Hcc. cbn [String.eqb Ascii.eqb Bool.eqb andb].
    fold f. fold content'. fold hash. rewrite Hmem.
    unfold loadCacheFromDisk. rewrite Hdisk.
    destruct (enabled (cacheSettings f) && negb (TextFormatter.skipCache options));
      [destruct (persistToDisk (cacheSettings f))|]; rewrite Hhtml; reflexivity.
Qed.

End Pipeline.

Lemma unsupported_type_refused_witness :
  (forall options,
     let f := applyOptions (self sampleState) options in
     let content' := setProperty (content sampleState) "_printMethod" (JStr "html-image") in
     let hash := generateContentHash constantDigest f (JObj content') "pdf" in
     imageCache f !! hash = None -> disk sampleState !! cachePath hash = None ->
     printContentAsImage constantDigest greyBrowser fixedTemplate fixedTemplate 0 0
       sampleState "pdf" options
     = (Throw ("Failed to print " ++ "pdf" ++ ": Unsupported format type: " ++ "pdf"),
        {| content := content'; self := f; disk := disk sampleState |})) /\
  (forall formatKOTContent formatBillContent options,
     TextFormatter.printMethod options <> Some "image" ->
     fst (TextFormatter.printContent constantDigest greyBrowser fixedTemplate fixedTemplate
            0 0 formatKOTContent formatBillContent sampleState "pdf" options)
     = Throw ("Failed to print " ++ "pdf" ++ ": Unsupported format type: " ++ "pdf")) /\
  (forall formatKOTContent formatBillContent options,
     TextFormatter.printMethod options = Some "image" ->
     TextFormatter.cacheConfigOption options = None ->
     let f := match TextFormatter.printerConfig options with
              | Some pc => updateConfig (self sampleState) pc
              | None => self sampleState
              end in
     let content' := setProperty (content sampleState) "_printMethod" (JStr "image") in
     let hash := TextFormatter.generateContentHash constantDigest f (JObj content') "pdf" in
     imageCache f !! hash = None -> disk sampleState !! cachePath hash = None ->
     TextFormatter.printContent constantDigest greyBrowser fixedTemplate fixedTemplate
       0 0 formatKOTContent formatBillContent sampleState "pdf" options
     = (Throw ("Failed to print " ++ "pdf" ++ ": Failed to print " ++ "pdf"
               ++ ": Unsupported format type: " ++ "pdf"),
        {| content := content'; self := f; disk := disk sampleState |})).
Proof.
  apply (unsupported_type_refused constantDigest greyBrowser fixedTemplate fixedTemplate
           0 0 sampleState "pdf"); discriminate.
Defined.

(** *** clearCache *)

Lemma substring_skip (a b : string) (m : nat) :
  String.substring (String.length a) m (a ++ b) = String.substring 0 m b.
Proof. induction a as [|c a IH]; [reflexivity|]. cbn [String.length]. exact IH. Qed.

Lemma substring_all (b : string) : String.substring 0 (String.length b) b = b.
Proof.
  induction b as [|c b IH]; [reflexivity|]. cbn [String.length String.substring].
  rewrite IH. reflexivity.
Qed.

Lemma endsWith_append (a b : string) : endsWith (a ++ b) b = true.
Proof.
  unfold endsWith. rewrite JsFacts.length_append.
  replace (String.length a + String.length b - String.length b)%nat
    with (String.length a) by lia.
  rewrite substring_skip, substring_all, String.eqb_refl.
  rewrite andb_true_r. apply Nat.leb_le. lia.
Qed.

(** X10: clearCache empties the memory tier, and with the durable tier in
    use it removes every file of the cache directory whose name ends in
    ".json", so that every fingerprint misses in both tiers afterwards,
    and keeps the other files; with the durable tier switched off it
    leaves the directory as it is, records included. *)
Theorem clearCache_tiers (f : formatter) (disk : gmap string file) :
  config (fst (clearCache f disk)) = config f /\
  cacheSettings (fst (clearCache f disk)) = cacheSettings f /\
  (forall hash, imageCache (fst (clearCache f disk)) !! hash = None) /\
  (persistToDisk (cacheSettings f) = true ->
     (forall hash now,
        loadCacheFromDisk (cacheSettings f) now hash (snd (clearCache f disk))
        = (None, snd (clearCache f disk))) /\
     (forall path, endsWith path ".json" = false ->
        snd (clearCache f disk) !! path = disk !! path)) /\
  (persistToDisk (cacheSettings f) = false -> snd (clearCache f disk) = disk).
Proof.
  unfold clearCache. cbn [fst snd config cacheSettings imageCache].
  split; [reflexivity|]. split; [reflexivity|]. split; [intros hash; apply lookup_empty|].
  split; intros Hp; rewrite Hp; [|reflexivity].
  split.
  - intros hash now. unfold loadCacheFromDisk.
    rewrite (proj2 (map_lookup_filter_None _ _ _)); [reflexivity|].
    right. intros x _ Hends. cbn [fst] in Hends.
    unfold cachePath in Hends. rewrite endsWith_append in Hends. discriminate.
  - intros path Hends.
    destruct (disk !! path) as [x|] eqn:E.
    + apply map_lookup_filter_Some. split; [exact E | exact Hends].
    + apply map_lookup_filter_None. left. exact E.
Qed.

Lemma repeated_call_served_from_memory_witness :
  printContentAsImage constantDigest failingBrowser fixedTemplate fixedTemplate 5 5
    (snd (printContentAsImage constantDigest greyBrowser fixedTemplate fixedTemplate 0 0
            sampleState "kot" noOptions))
    "kot" noOptions
  = (Ok [29; 118; 48; 0; 1; 0; 1; 0; 128]%Z,
     snd (printContentAsImage constantDigest greyBrowser fixedTemplate fixedTemplate 0 0
            sampleState "kot" noOptions)).
Proof.
  apply (repeated_call_served_from_memory constantDigest greyBrowser fixedTemplate
           fixedTemplate 0 0 sampleState "kot" noOptions
           [29; 118; 48; 0; 1; 0; 1; 0; 128]%Z).
  - intros pc H. discriminate H.
  - reflexivity.
  - reflexivity.
  - vm_compute. reflexivity.
Defined.

Lemma cache_bypassed_witness :
  let options := {| printerConfig := None; cacheConfigOption := None; skipCache := true |} in
  let run := printContentAsImage constantDigest greyBrowser fixedTemplate fixedTemplate 0 0
               sampleState "kot" options in
  fst run
  = failed "kot"
      (do htmlContent <- formatToHTML fixedTemplate fixedTemplate
                           (applyOptions (self sampleState) options)
                           (JObj (setProperty (content sampleState) "_printMethod"
                                    (JStr "html-image"))) "kot";
       do c <- greyBrowser (config (applyOptions (self sampleState) options)) htmlContent;
       formatImageForPrinter (Some (convertCapture c))) /\
  imageCache (self (snd run)) = imageCache (self sampleState) /\
  disk (snd run) = disk sampleState.
Proof.
  apply (cache_bypassed constantDigest greyBrowser fixedTemplate fixedTemplate 0 0
           sampleState "kot"
           {| printerConfig := None; cacheConfigOption := None; skipCache := true |}).
  reflexivity.
Defined.

End CacheFacts.

(** ** The canonical form of a content object *)

Module CanonicalFacts.
Import Js Formatter FormatterOps.
Local Open Scope string_scope.

Lemma hasKey_elem fields key : hasKey fields key = true <-> key ∈ map fst fields.
Proof.
  induction fields as [|[k v] fields IH]; cbn [hasKey existsb map fst].
  - split; [discriminate | intros H; inversion H].
  - rewrite orb_true_iff, elem_of_cons. fold (hasKey fields key). rewrite IH.
    split; intros [H|H]; auto.
    + left. apply String.eqb_eq in H. congruence.
    + left. apply String.eqb_eq. congruence.
Qed.

Lemma keys_replaceField fields key v :
  map fst (replaceField fields key v) = map fst fields.
Proof.
  induction fields as [|[k x] fields IH]; [reflexivity|]. cbn [replaceField].
  destruct (String.eqb k key); cbn [map fst]; [reflexivity|]. rewrite IH. reflexivity.
Qed.

Lemma keys_insertIndex fields n key v :
  map fst (insertIndex fields n key v) ≡ₚ key :: map fst fields.
Proof.
  induction fields as [|[k x] fields IH]; [reflexivity|]. cbn [insertIndex].
  destruct (arrayIndex k) as [m|]; [destruct (m <? n)%N|]; cbn [map fst]; try reflexivity.
  rewrite IH. apply perm_swap.
Qed.

(** The keys after an assignment: the same keys, and the new key when
    the object did not have it. *)
Lemma keys_setProperty fields key v :
  map fst (setProperty fields key v)
  ≡ₚ if hasKey fields key then map fst fields else key :: map fst fields.
Proof.
  unfold setProperty. destruct (hasKey fields key).
  - rewrite keys_replaceField. reflexivity.
  - destruct (arrayIndex key) as [n|].
    + apply keys_insertIndex.
    + rewrite map_app. cbn [map fst]. symmetry. apply Permutation_cons_append.
Qed.

Lemma NoDup_setProperty fields key v :
  NoDup (map fst fields) -> NoDup (map fst (setProperty fields key v)).
Proof.
  intros Hnd. rewrite keys_setProperty. destruct (hasKey fields key) eqn:Hk; [exact Hnd|].
  apply NoDup_cons. split; [|exact Hnd].
  intros Hin. apply hasKey_elem in Hin. congruence.
Qed.

Lemma getProperty_elem fields k v :
  NoDup (map fst fields) -> ((k, v) ∈ fields <-> getProperty fields k = Some v).
Proof.
  induction fields as [|[k0 v0] fields IH]; intros Hnd.
  - split; [intros H; inversion H | discriminate].
  - cbn [map fst] in Hnd. apply NoDup_cons in Hnd as [Hnotin Hnd].
    rewrite HashFacts.getProperty_cons, elem_of_cons, (IH Hnd).
    destruct (String.eqb_spec k0 k) as [->|Hne].
    + split.
      * intros [E|H]; [congruence|]. exfalso. apply Hnotin.
        apply (IH Hnd) in H. apply (list_elem_of_fmap_2 fst) in H. exact H.
      * intros E. left. congruence.
    + split; [intros [E|H]; [congruence | exact H] | auto].
Qed.

(** Two objects with the same properties hold the same fields, in some
    order. *)
Lemma same_properties_permutation fields1 fields2 :
  NoDup (map fst fields1) -> NoDup (map fst fields2) ->
  (forall key, getProperty fields1 key = getProperty fields2 key) ->
  fields1 ≡ₚ fields2.
Proof.
  intros H1 H2 Hsame. apply NoDup_Permutation.
  - apply (NoDup_fmap_1 fst). exact H1.
  - apply (NoDup_fmap_1 fst). exact H2.
  - intros [k v]. rewrite (getProperty_elem fields1 k v H1), (getProperty_elem fields2 k v H2).
    rewrite Hsame. reflexivity.
Qed.

Lemma Forall_filter {A} (P Q : A -> Prop) `{forall x, Decision (P x)} (l : list A) :
  Forall Q l -> Forall Q (filter P l).
Proof.
  rewrite !Forall_forall. intros Hall x Hin.
  apply list_elem_of_filter in Hin as [_ Hin]. apply Hall. exact Hin.
Qed.

Lemma hasKey_getProperty fields key :
  hasKey fields key = false <-> getProperty fields key = None.
Proof.
  split; [apply FormatterFacts.getProperty_hasKey_false|].
  induction fields as [|[k v] fields IH]; [reflexivity|].
  rewrite HashFacts.getProperty_cons. cbn [hasKey existsb fst].
  destruct (String.eqb k key); [discriminate|]. exact IH.
Qed.

(** Reading a property back after an assignment to an object without a
    property "__proto__" of its own. *)
Lemma getProperty_assign fields key v key' :
  getProperty fields "__proto__" = None ->
  getProperty (assign fields key v) key'
  = if String.eqb key key' && negb (isProto key) then Some v else getProperty fields key'.
Proof.
  intros Hproto. unfold assign, isProto.
  destruct (String.eqb_spec key "__proto__") as [->|Hne]; cbn [andb negb].
  - rewrite (proj2 (hasKey_getProperty fields "__proto__") Hproto). cbn [negb].
    rewrite andb_false_r. reflexivity.
  - rewrite andb_true_r. apply FormatterFacts.getProperty_setProperty.
Qed.

Lemma NoDup_assign fields key v :
  NoDup (map fst fields) -> NoDup (map fst (assign fields key v)).
Proof.
  intros Hnd. unfold assign.
  destruct (isProto key && negb (hasKey fields key)); [exact Hnd|].
  apply NoDup_setProperty. exact Hnd.
Qed.

Lemma collect_NoDup values keys : forall start,
  NoDup (map fst start) -> NoDup (map fst (collect values keys start)).
Proof.
  unfold collect. induction keys as [|k keys IH]; intros start Hnd; [exact Hnd|].
  cbn [fold_left]. apply IH. destruct (getProperty values k); [|exact Hnd].
  apply NoDup_assign. exact Hnd.
Qed.

(** The loop never gives the result a property "__proto__". *)
Lemma collect_proto values keys : forall start,
  getProperty start "__proto__" = None ->
  getProperty (collect values keys start) "__proto__" = None.
Proof.
  unfold collect. induction keys as [|k keys IH]; intros start Hproto; [exact Hproto|].
  cbn [fold_left]. apply IH. destruct (getProperty values k); [|exact Hproto].
  rewrite getProperty_assign by exact Hproto.
  destruct (String.eqb_spec k "__proto__") as [->|Hne]; cbn [andb].
  - unfold isProto. rewrite String.eqb_refl. exact Hproto.
  - exact Hproto.
Qed.

Lemma collect_lookup values keys : forall start key,
  getProperty start "__proto__" = None ->
  getProperty (collect values keys start) key
  = match (if bool_decide (key ∈ keys) && negb (isProto key)
           then getProperty values key else None) with
    | Some v => Some v
    | None => getProperty start key
    end.
Proof.
  induction keys as [|k keys IH]; intros start key Hproto.
  - unfold collect. cbn [fold_left].
    rewrite bool_decide_eq_false_2 by (intros H; inversion H). reflexivity.
  - change (collect values (k :: keys) start)
      with (collect values keys
              match getProperty values k with
              | Some v => assign start k v
              | None => start
              end).
    assert (Hnext : getProperty match getProperty values k with
                                | Some v => assign start k v
                                | None => start
                                end "__proto__" = None).
    { apply (collect_proto values [k] start Hproto). }
    rewrite IH by exact Hnext.
    destruct (isProto key) eqn:Hkey; cbn [negb]; rewrite ?andb_false_r, ?andb_true_r.
    + destruct (getProperty values k) as [vk|]; [|reflexivity].
      rewrite getProperty_assign by exact Hproto.
      destruct (String.eqb_spec k key) as [->|_]; [|reflexivity].
      rewrite Hkey. reflexivity.
    + destruct (bool_decide (key ∈ keys)) eqn:Hin.
      * apply bool_decide_eq_true in Hin.
        rewrite (bool_decide_eq_true_2 (key ∈ k :: keys)) by (right; exact Hin).
        destruct (getProperty values key) as [v|] eqn:Hv; [reflexivity|].
        destruct (getProperty values k) as [vk|] eqn:Hvk; [|reflexivity].
        rewrite getProperty_assign by exact Hproto.
        destruct (String.eqb_spec k key) as [->|_]; [congruence | reflexivity].
      * apply bool_decide_eq_false in Hin.
        destruct (String.eqb_spec k key) as [->|Hne].
        -- rewrite (bool_decide_eq_true_2 (key ∈ key :: keys)) by (left; reflexivity).
           destruct (getProperty values key) as [v|] eqn:Hv; [|reflexivity].
           rewrite getProperty_assign by exact Hproto.
           rewrite String.eqb_refl, Hkey. reflexivity.
        -- rewrite (bool_decide_eq_false_2 (key ∈ k :: keys))
             by (intros H; apply elem_of_cons in H as [H|H]; [congruence | contradiction]).
           destruct (getProperty values k) as [vk|]; [|reflexivity].
           rewrite getProperty_assign by exact Hproto.
           destruct (String.eqb_spec k key); [contradiction | reflexivity].
Qed.

(** The fields of an object other than "__proto__". *)
Lemma getProperty_filter (fields : list (string * json)) key :
  getProperty (filter (fun kv => isProto (fst kv) = false) fields) key
  = if isProto key then None else getProperty fields key.
Proof.
  induction fields as [|[k v] fields IH].
  - destruct (isProto key); reflexivity.
  - rewrite filter_cons. cbn [fst]. destruct (decide (isProto k = false)) as [Hk|Hk].
    + rewrite !HashFacts.getProperty_cons, IH.
      destruct (String.eqb_spec k key) as [->|_]; [rewrite Hk|]; reflexivity.
    + rewrite IH, HashFacts.getProperty_cons.
      destruct (String.eqb_spec k key) as [->|_]; [|reflexivity].
      destruct (isProto key); [reflexivity | contradiction].
Qed.

Lemma NoDup_filter_keys (P : string * json -> Prop) `{forall kv, Decision (P kv)}
    (fields : list (string * json)) :
  NoDup (map fst fields) -> NoDup (map fst (filter P fields)).
Proof.
  induction fields as [|[k v] fields IH]; intros Hnd; [constructor|].
  cbn [map fst] in Hnd. apply NoDup_cons in Hnd as [Hnotin Hnd].
  rewrite filter_cons. destruct (decide (P (k, v))); [|apply IH; exact Hnd].
  cbn [map fst]. apply NoDup_cons. split; [|apply IH; exact Hnd].
  intros Hin. apply Hnotin. apply list_elem_of_fmap in Hin as ([k' v'] & -> & Hin).
  apply list_elem_of_filter in Hin as [_ Hin].
  apply (list_elem_of_fmap_2 fst) in Hin. exact Hin.
Qed.

(** Collecting the properties of an object under all its keys, in any
    order, gives the fields of the object other than "__proto__", in some
    order. *)
Lemma collect_permutation values keys :
  NoDup (map fst values) -> keys ≡ₚ map fst values ->
  collect values keys [] ≡ₚ filter (fun kv => isProto (fst kv) = false) values.
Proof.
  intros Hnd Hkeys. apply same_properties_permutation.
  - apply collect_NoDup. constructor.
  - apply NoDup_filter_keys. exact Hnd.
  - intros key. rewrite collect_lookup by reflexivity. rewrite getProperty_filter.
    destruct (isProto key); cbn [negb]; rewrite ?andb_false_r, ?andb_true_r; [reflexivity|].
    destruct (bool_decide (key ∈ keys)) eqn:Hin.
    + destruct (getProperty values key); reflexivity.
    + apply bool_decide_eq_false in Hin. symmetry.
      apply HashFacts.getProperty_None. intros H. apply Hin.
      rewrite Hkeys. apply list_elem_of_In. exact H.
Qed.

Lemma sorted_values_keys (fields : list (string * json)) :
  map fst (map (fun '(k, v) => (k, sortObjectKeys v)) fields) = map fst fields.
Proof. rewrite map_map. apply map_ext. intros [k v]. reflexivity. Qed.

Lemma sortObjectKeys_object fields :
  sortObjectKeys (JObj fields)
  = JObj (collect (map (fun '(k, v) => (k, sortObjectKeys v)) fields)
            (merge_sort String.le (map fst fields)) []).
Proof. reflexivity. Qed.

(** Filtering two lists of fields that are related field by field. *)
Lemma filter_related (R : json -> json -> Prop) (f g : json -> json)
    (fields : list (string * json)) :
  Forall (fun kv => R (f (snd kv)) (g (snd kv))) fields ->
  Forall2 (fun kv1 kv2 => fst kv1 = fst kv2 /\ R (snd kv1) (snd kv2))
    (filter (fun kv => isProto (fst kv) = false) (map (fun '(k, v) => (k, f v)) fields))
    (filter (fun kv => isProto (fst kv) = false) (map (fun '(k, v) => (k, g v)) fields)).
Proof.
  induction 1 as [|[k v] fields Hv _ IH]; [constructor|].
  cbn [map]. rewrite !filter_cons. cbn [fst snd] in *.
  destruct (decide (isProto k = false)); [|exact IH].
  constructor; [split; [reflexivity | exact Hv] | exact IH].
Qed.

(** The canonical form of a well-formed value is the value without its
    properties named "__proto__", with the keys of its objects in another
    order; it is well formed and has no property of that name. *)
Lemma sortObjectKeys_reorders c :
  wfJson c ->
  keyEquiv (withoutProto c) (sortObjectKeys c) /\ wfJson (sortObjectKeys c) /\
  withoutProto (sortObjectKeys c) = sortObjectKeys c.
Proof.
  induction c as [| b | n | s | items IH | fields IH] using JsFacts.json_rect';
    intros Hwf; try (split; [constructor | split; [exact Hwf | reflexivity]]).
  - (* arrays *)
    inversion Hwf as [| | | | items' Hall |]; subst.
    cbn [sortObjectKeys withoutProto]. split; [|split].
    + constructor. clear Hwf. induction items as [|x items IHitems]; [constructor|].
      apply Forall_cons in IH as [IHx IH]. apply Forall_cons in Hall as [Hx Hall].
      cbn [map]. constructor; [apply IHx; exact Hx | apply IHitems; assumption].
    + constructor. clear Hwf. induction items as [|x items IHitems]; [constructor|].
      apply Forall_cons in IH as [IHx IH]. apply Forall_cons in Hall as [Hx Hall].
      cbn [map]. constructor; [apply IHx; exact Hx | apply IHitems; assumption].
    + f_equal. clear Hwf. induction items as [|x items IHitems]; [reflexivity|].
      apply Forall_cons in IH as [IHx IH]. apply Forall_cons in Hall as [Hx Hall].
      cbn [map]. f_equal; [apply IHx; exact Hx | apply IHitems; assumption].
  - (* objects *)
    inversion Hwf as [| | | | | fields' Hnd Hall]; subst.
    rewrite sortObjectKeys_object.
    set (values := map (fun '(k, v) => (k, sortObjectKeys v)) fields).
    assert (Hkeys : map fst values = map fst fields) by apply sorted_values_keys.
    assert (Hperm : collect values (merge_sort String.le (map fst fields)) []
                    ≡ₚ filter (fun kv => isProto (fst kv) = false) values).
    { apply collect_permutation.
      - rewrite Hkeys. exact Hnd.
      - rewrite Hkeys. apply merge_sort_Permutation. }
    assert (Heach : Forall (fun kv => keyEquiv (withoutProto (snd kv)) (sortObjectKeys (snd kv))
                                      /\ wfJson (sortObjectKeys (snd kv))
                                      /\ withoutProto (sortObjectKeys (snd kv))
                                         = sortObjectKeys (snd kv)) fields).
    { clear Hperm Hkeys Hnd Hwf values.
      induction fields as [|[k v] fields IHf]; [constructor|].
      apply Forall_cons in IH as [IHx IH]. apply Forall_cons in Hall as [Hx Hall].
      constructor; [apply IHx; exact Hx | apply IHf; assumption]. }
    assert (Hvalues : Forall (fun kv => wfJson (snd kv)
                                        /\ withoutProto (snd kv) = snd kv) values).
    { subst values. apply Forall_map. eapply Forall_impl; [exact Heach|].
      intros [k v] (_ & Hw & Hfix). split; assumption. }
    split; [|split].
    + cbn [withoutProto]. eapply KeObj; [exact Hperm|].
      apply (filter_related keyEquiv withoutProto sortObjectKeys).
      eapply Forall_impl; [exact Heach|]. intros kv (He & _). exact He.
    + constructor.
      * apply collect_NoDup. constructor.
      * rewrite Hperm. apply Forall_filter.
        eapply Forall_impl; [exact Hvalues|]. intros kv [Hw _]. exact Hw.
    + cbn [withoutProto]. f_equal.
      assert (Hall' : Forall (fun kv => isProto (fst kv) = false
                                        /\ withoutProto (snd kv) = snd kv)
                        (collect values (merge_sort String.le (map fst fields)) [])).
      { rewrite Hperm. apply Forall_forall. intros kv Hin.
        apply list_elem_of_filter in Hin as [Hk Hin]. split; [exact Hk|].
        rewrite Forall_forall in Hvalues. apply Hvalues. exact Hin. }
      clear Hperm. generalize dependent (collect values (merge_sort String.le (map fst fields)) []).
      intros result Hall'.
      induction Hall' as [|[k v] rest [Hk Hv] _ IHrest]; [reflexivity|].
      cbn [map fst snd] in *. rewrite filter_cons. cbn [fst].
      destruct (decide (isProto k = false)); [|contradiction].
      rewrite Hv, IHrest. reflexivity.
Qed.

(** *** The loop over the sorted keys leaves "__proto__" out *)

Lemma collect_skips_proto values keys : forall start,
  getProperty start "__proto__" = None ->
  collect values keys start
  = collect values (filter (fun key => isProto key = false) keys) start.
Proof.
  induction keys as [|k keys IH]; intros start Hproto; [reflexivity|].
  rewrite filter_cons.
  change (collect values (k :: keys) start)
    with (collect values keys
            match getProperty values k with
            | Some v => assign start k v
            | None => start
            end).
  destruct (decide (isProto k = false)) as [Hk|Hk].
  - change (collect values (k :: filter (fun key => isProto key = false) keys) start)
      with (collect values (filter (fun key => isProto key = false) keys)
              match getProperty values k with
              | Some v => assign start k v
              | None => start
              end).
    apply IH. apply (collect_proto values [k] start Hproto).
  - assert (Hskip : match getProperty values k with
                    | Some v => assign start k v
                    | None => start
                    end = start).
    { destruct (getProperty values k); [|reflexivity]. unfold assign.
      destruct (isProto k) eqn:Ek; [|contradiction].
      unfold isProto in Ek. apply String.eqb_eq in Ek. subst k. rewrite (proj2 (hasKey_getProperty start "__proto__") Hproto). reflexivity. }
    rewrite Hskip. apply IH. exact Hproto.
Qed.

Lemma collect_same_values values1 values2 keys : forall start,
  (forall key, key ∈ keys -> getProperty values1 key = getProperty values2 key) ->
  collect values1 keys start = collect values2 keys start.
Proof.
  unfold collect. induction keys as [|k keys IH]; intros start Hsame; [reflexivity|].
  cbn [fold_left]. rewrite (Hsame k) by (left; reflexivity).
  apply IH. intros key Hin. apply Hsame. right. exact Hin.
Qed.

Lemma StronglySorted_filter {A} (R : A -> A -> Prop) (P : A -> Prop)
    `{forall x, Decision (P x)} (l : list A) :
  StronglySorted R l -> StronglySorted R (filter P l).
Proof.
  induction 1 as [|x l _ IH Hx]; [constructor|].
  rewrite filter_cons. destruct (decide (P x)); [|exact IH].
  constructor; [exact IH|]. apply Forall_filter. exact Hx.
Qed.

(** Sorting the keys and leaving one out commute. *)
Lemma sorted_keys_filter (P : string -> Prop) `{forall x, Decision (P x)}
    (keys : list string) :
  filter P (merge_sort String.le keys) = merge_sort String.le (filter P keys).
Proof.
  apply (StronglySorted_unique String.le).
  - apply StronglySorted_filter. apply (StronglySorted_merge_sort String.le).
  - apply (StronglySorted_merge_sort String.le).
  - rewrite !merge_sort_Permutation. reflexivity.
Qed.

Lemma keys_filter_map (f : json -> json) (fields : list (string * json)) :
  map fst (filter (fun kv => isProto (fst kv) = false)
                  (map (fun '(k, v) => (k, f v)) fields))
  = filter (fun key => isProto key = false) (map fst fields).
Proof.
  induction fields as [|[k v] fields IH]; [reflexivity|].
  cbn [map fst]. rewrite !filter_cons. cbn [fst].
  destruct (decide (isProto k = false)); cbn [map fst]; rewrite IH; reflexivity.
Qed.

(** A property "__proto__" of the content, at any depth, makes no
    difference to the canonical form. *)
Lemma sortObjectKeys_withoutProto c :
  wfJson c -> sortObjectKeys (withoutProto c) = sortObjectKeys c.
Proof.
  induction c as [| b | n | s | items IH | fields IH] using JsFacts.json_rect';
    intros Hwf; try reflexivity.
  - inversion Hwf as [| | | | items' Hall |]; subst.
    cbn [sortObjectKeys withoutProto]. f_equal. rewrite map_map.
    clear Hwf. induction items as [|x items IHitems]; [reflexivity|].
    apply Forall_cons in IH as [IHx IH]. apply Forall_cons in Hall as [Hx Hall].
    cbn [map]. f_equal; [apply IHx; exact Hx | apply IHitems; assumption].
  - inversion Hwf as [| | | | | fields' Hnd Hall]; subst.
    cbn [withoutProto]. rewrite !sortObjectKeys_object. f_equal.
    rewrite keys_filter_map.
    rewrite (collect_skips_proto _ (merge_sort String.le (map fst fields))) by reflexivity.
    rewrite sorted_keys_filter.
    apply collect_same_values. intros key Hin.
    rewrite merge_sort_Permutation in Hin. apply list_elem_of_filter in Hin as [Hkey _].
    clear Hnd Hwf. induction fields as [|[k v] fields IHf]; [reflexivity|].
    apply Forall_cons in IH as [IHx IH]. apply Forall_cons in Hall as [Hx Hall].
    cbn [map]. rewrite filter_cons. cbn [fst].
    destruct (decide (isProto k = false)) as [Hk|Hk].
    + cbn [map snd] in *. rewrite !HashFacts.getProperty_cons, (IHx Hx).
      destruct (String.eqb k key); [reflexivity | apply IHf; assumption].
    + rewrite HashFacts.getProperty_cons.
      destruct (String.eqb_spec k key) as [->|_]; [contradiction|].
      apply IHf; assumption.
Qed.

Lemma withoutProto_wf c : wfJson c -> wfJson (withoutProto c).
Proof.
  induction c as [| b | n | s | items IH | fields IH] using JsFacts.json_rect';
    intros Hwf; try exact Hwf.
  - inversion Hwf as [| | | | items' Hall |]; subst.
    cbn [withoutProto]. constructor. apply Forall_map.
    clear Hwf. induction items as [|x items IHitems]; [constructor|].
    apply Forall_cons in IH as [IHx IH]. apply Forall_cons in Hall as [Hx Hall].
    constructor; [apply IHx; exact Hx | apply IHitems; assumption].
  - inversion Hwf as [| | | | | fields' Hnd Hall]; subst.
    cbn [withoutProto]. constructor.
    + rewrite keys_filter_map.
      apply NoDup_filter. exact Hnd.
    + apply Forall_filter. apply Forall_map.
      clear Hwf Hnd. induction fields as [|[k v] fields IHf]; [constructor|].
      apply Forall_cons in IH as [IHx IH]. apply Forall_cons in Hall as [Hx Hall].
      constructor; [apply IHx; exact Hx | apply IHf; assumption].
Qed.

(** *** Equality up to the order of keys is an equivalence *)

Lemma keyEquiv_sym c1 : forall c2, keyEquiv c1 c2 -> keyEquiv c2 c1.
Proof.
  induction c1 as [| b | n | s | items IH | fields IH] using JsFacts.json_rect';
    intros c2 He; inversion He; subst; try constructor.
  - match goal with H : Forall2 keyEquiv items _ |- _ => rename H into Hitems end.
    clear He. induction Hitems as [|x y xs ys Hxy _ IHrest]; [constructor|].
    apply Forall_cons in IH as [IHx IH]. constructor; [apply IHx; exact Hxy|].
    apply IHrest. exact IH.
  - match goal with
    | Hp : Permutation _ reordered, H2 : Forall2 _ fields reordered |- _ =>
      rename Hp into Hperm; rename H2 into Hpairs
    end.
    assert (Hflip : Forall2 (fun kv1 kv2 => fst kv1 = fst kv2 /\ keyEquiv (snd kv1) (snd kv2))
                      reordered fields).
    { clear Hperm He. induction Hpairs as [|x y xs ys [Hk Hv] _ IHrest]; [constructor|].
      apply Forall_cons in IH as [IHx IH].
      constructor; [split; [congruence | apply IHx; exact Hv] | apply IHrest; exact IH]. }
    destruct (Permutation_Forall2 (Permutation_sym Hperm) Hflip) as (fields' & Hp' & Hf').
    eapply KeObj; [exact Hp' | exact Hf'].
Qed.

Lemma keyEquiv_trans c1 : forall c2 c3, keyEquiv c1 c2 -> keyEquiv c2 c3 -> keyEquiv c1 c3.
Proof.
  induction c1 as [| b | n | s | items IH | fields IH] using JsFacts.json_rect';
    intros c2 c3 H12 H23;
    inversion H12 as [ | | | | i1 i2 Hi12 | f1 f2 r12 Hp12 Hf12]; subst;
    inversion H23 as [ | | | | i2' i3 Hi23 | f2' f3 r23 Hp23 Hf23]; subst;
    try constructor.
  - clear H12 H23. revert i3 Hi23.
    induction Hi12 as [|x y xs ys Hxy _ IHrest]; intros i3 Hi23.
    + inversion Hi23. constructor.
    + inversion Hi23; subst. apply Forall_cons in IH as [IHx IH].
      constructor; [eapply IHx; eassumption | apply IHrest; assumption].
  - destruct (Permutation_Forall2 Hp12 Hf23) as (r' & Hpr & Hfr).
    assert (Hall : Forall2 (fun kv1 kv2 => fst kv1 = fst kv2
                                           /\ keyEquiv (snd kv1) (snd kv2)) fields r').
    { clear Hp12 Hp23 Hpr H12 H23 Hf23. revert r' Hfr.
      induction Hf12 as [|x y xs ys [Hk Hv] _ IHrest]; intros r' Hfr.
      - inversion Hfr. constructor.
      - inversion Hfr as [|y' z ys' zs [Hk' Hv'] Hrest]; subst.
        apply Forall_cons in IH as [IHx IH].
        constructor; [split; [congruence | eapply IHx; eassumption]
                     | apply IHrest; assumption]. }
    eapply KeObj; [etransitivity; [exact Hp23 | exact Hpr] | exact Hall].
Qed.

Lemma sampleTicketReordered_wf : wfJson (JObj sampleTicketReordered).
Proof.
  unfold sampleTicketReordered. constructor; [HashFacts.distinct_keys|].
  repeat first
    [ match goal with
      | |- NoDup _ => HashFacts.distinct_keys
      | |- Forall _ [] => apply List.Forall_nil
      | |- Forall _ (_ :: _) => apply List.Forall_cons
      | |- wfJson (snd _) => cbn [snd]
      | |- wfJson _ => constructor
      end ].
Qed.

(** X11: sortObjectKeys gives a canonical form. The result is the
    content with the keys of its objects in another order and without
    the properties named "__proto__", which the assignment
    [result[key] = ...] to a fresh object does not create; nothing else
    is added, dropped or changed. The result is well formed and holds no
    property of that name; sorting it again changes nothing; and two
    contents have the same canonical form exactly when, their properties
    named "__proto__" left out, they are equal up to the order of keys at
    every depth. *)
Theorem sortObjectKeys_canonical (c : json) :
  wfJson c ->
  keyEquiv (withoutProto c) (sortObjectKeys c) /\
  wfJson (sortObjectKeys c) /\
  withoutProto (sortObjectKeys c) = sortObjectKeys c /\
  sortObjectKeys (sortObjectKeys c) = sortObjectKeys c /\
  (forall c', wfJson c' ->
     (sortObjectKeys c = sortObjectKeys c'
      <-> keyEquiv (withoutProto c) (withoutProto c'))) /\
  (withoutProto c = c -> keyEquiv c (sortObjectKeys c)).
Proof.
  intros Hwf. destruct (sortObjectKeys_reorders c Hwf) as (He & Hwf' & Hfix).
  split; [exact He|]. split; [exact Hwf'|]. split; [exact Hfix|].
  split; [|split].
  - rewrite <- (sortObjectKeys_withoutProto c Hwf) at 2.
    symmetry. apply HashFacts.sortObjectKeys_keyEquiv; [|exact He].
    apply withoutProto_wf. exact Hwf.
  - intros c' Hwfc. split.
    + intros Heq. destruct (sortObjectKeys_reorders c' Hwfc) as (He' & _ & _).
      apply (keyEquiv_trans (withoutProto c) (sortObjectKeys c) (withoutProto c'));
        [exact He|].
      rewrite Heq. apply keyEquiv_sym. exact He'.
    + intros Hequiv.
      rewrite <- (sortObjectKeys_withoutProto c Hwf), <- (sortObjectKeys_withoutProto c' Hwfc).
      apply HashFacts.sortObjectKeys_keyEquiv; [|exact Hequiv].
      apply withoutProto_wf. exact Hwf.
  - intros Hnone. rewrite <- Hnone at 1. exact He.
Qed.

Lemma sortObjectKeys_canonical_witness :
  keyEquiv (withoutProto (JObj sampleTicket)) (sortObjectKeys (JObj sampleTicket)) /\
  wfJson (sortObjectKeys (JObj sampleTicket)) /\
  withoutProto (sortObjectKeys (JObj sampleTicket)) = sortObjectKeys (JObj sampleTicket) /\
  sortObjectKeys (sortObjectKeys (JObj sampleTicket)) = sortObjectKeys (JObj sampleTicket) /\
  (forall c', wfJson c' ->
     (sortObjectKeys (JObj sampleTicket) = sortObjectKeys c'
      <-> keyEquiv (withoutProto (JObj sampleTicket)) (withoutProto c'))) /\
  (withoutProto (JObj sampleTicket) = JObj sampleTicket ->
   keyEquiv (JObj sampleTicket) (sortObjectKeys (JObj sampleTicket))).
Proof.
  apply (sortObjectKeys_canonical (JObj sampleTicket)). exact HashFacts.sampleTicket_wf.
Defined.

(** A content with a property "__proto__" and the content without it have
    the same canonical form, and are digested from the same string. *)
Example sortObjectKeys_drops_proto :
  sortObjectKeys (JObj [("__proto__", JObj [("a", JNum 1)]); ("b", JNum 2)])
  = JObj [("b", JNum 2)] /\
  contentString [] (JObj [("__proto__", JObj [("a", JNum 1)]); ("b", JNum 2)]) "kot"
  = contentString [] (JObj [("b", JNum 2)]) "kot".
Proof. split; vm_compute; reflexivity. Qed.

(** X12: what generateContentHash of src/print-formatter.js digests. For
    contents and configurations whose numbers are integers below 10^21
    in magnitude (which JSON.stringify prints as their digits), two calls
    digest the same string exactly when their contents, the properties
    named "__proto__" left out, are equal up to the order of keys, their
    type tags are equal and the configurations of the formatter are the
    same, key order included. *)
Theorem digest_input_characterised (config1 config2 : list (string * json))
    (content1 content2 : json) (type1 type2 : string) :
  wfJson content1 -> wfJson content2 ->
  plainNumbers content1 = true -> plainNumbers content2 = true ->
  plainNumbers (JObj config1) = true -> plainNumbers (JObj config2) = true ->
  (contentString config1 content1 type1 = contentString config2 content2 type2
   <-> keyEquiv (withoutProto content1) (withoutProto content2)
       /\ type1 = type2 /\ config1 = config2).
Proof.
  intros Hwf1 Hwf2 _ _ _ _. split.
  - intros H. apply HashFacts.contentString_inj in H as (Hc & Ht & Hcfg).
    split; [|split; assumption].
    destruct (sortObjectKeys_reorders content1 Hwf1) as (He1 & _ & _).
    destruct (sortObjectKeys_reorders content2 Hwf2) as (He2 & _ & _).
    apply (keyEquiv_trans (withoutProto content1) (sortObjectKeys content1)
             (withoutProto content2)); [exact He1|].
    rewrite Hc. apply keyEquiv_sym. exact He2.
  - intros (He & -> & ->). unfold contentString.
    rewrite <- (sortObjectKeys_withoutProto content1 Hwf1),
            <- (sortObjectKeys_withoutProto content2 Hwf2).
    rewrite (HashFacts.sortObjectKeys_keyEquiv (withoutProto content1)
               (withoutProto_wf content1 Hwf1) (withoutProto content2) He).
    reflexivity.
Qed.

Lemma digest_input_characterised_witness :
  keyEquiv (withoutProto (JObj sampleTicket)) (withoutProto (JObj sampleTicketReordered))
  /\ "kot" = "kot" /\ profile58 = profile58.
Proof.
  apply (digest_input_characterised profile58 profile58 (JObj sampleTicket)
           (JObj sampleTicketReordered) "kot" "kot").
  - exact HashFacts.sampleTicket_wf.
  - exact sampleTicketReordered_wf.
  - reflexivity.
  - reflexivity.
  - reflexivity.
  - reflexivity.
  - vm_compute. reflexivity.
Defined.

End CanonicalFacts.

(** ** Line widths in the text layouts *)

Module WidthFacts.
Import Js JsString TextLayout BillLayout Wrapping.
Local Open Scope string_scope.

Lemma len_append a b : len (a ++ b) = (len a + len b)%Z.
Proof. unfold len. rewrite JsFacts.length_append. lia. Qed.

Lemma len_nonneg s : (0 <= len s)%Z.
Proof. unfold len. lia. Qed.

Lemma length_replicateChar n c : String.length (replicateChar n c) = n.
Proof. induction n as [|n IH]; [reflexivity|]. cbn. rewrite IH. reflexivity. Qed.

Lemma len_spaces n : len (spaces n) = Z.max 0 n.
Proof. unfold len, spaces. rewrite length_replicateChar. lia. Qed.

Lemma length_substring s : forall n m,
  String.length (String.substring n m s) = Nat.min m (String.length s - n).
Proof.
  induction s as [|c s IH]; intros n m.
  - destruct n, m; reflexivity.
  - destruct n as [|n]; cbn [String.substring String.length].
    + destruct m as [|m]; [reflexivity|]. cbn [String.length]. rewrite IH. lia.
    + rewrite IH. reflexivity.
Qed.

(** The length of [s.substring(from, to)] for indices in order. *)
Lemma len_substring s from to :
  (from <= to)%Z ->
  len (substring s from to)
  = (Z.min (Z.max 0 to) (len s) - Z.min (Z.max 0 from) (len s))%Z.
Proof.
  intros Hle. unfold substring, clamp, len. rewrite length_substring. lia.
Qed.

Lemma len_sliceTo s to :
  (0 <= to)%Z -> len (sliceTo s to) = Z.min (len s) to.
Proof.
  intros H. unfold sliceTo. destruct (Z.ltb_spec to 0); [lia|].
  rewrite len_substring by lia. pose proof (len_nonneg s). lia.
Qed.

(** X13: keyValue puts the key, cut to 40% of the line, on the left and
    the value on the right. The line has exactly charsPerLine characters
    when the two fit, and is as long as the two together otherwise: the
    value is never cut. *)
Theorem keyValue_width (charsPerLine : Z) (key value : string) :
  (0 <= charsPerLine)%Z ->
  let truncatedKey := sliceTo key (2 * charsPerLine / 5) in
  len truncatedKey = Z.min (len key) (2 * charsPerLine / 5) /\
  keyValue charsPerLine key value
  = truncatedKey ++ spaces (charsPerLine - len truncatedKey - len value) ++ value /\
  len (keyValue charsPerLine key value)
  = Z.max charsPerLine (len truncatedKey + len value) /\
  ((len truncatedKey + len value <= charsPerLine)%Z ->
   len (keyValue charsPerLine key value) = charsPerLine).
Proof.
  intros Hcpl truncatedKey.
  assert (Hk : len truncatedKey = Z.min (len key) (2 * charsPerLine / 5)).
  { apply len_sliceTo. apply Z.div_pos; lia. }
  assert (Hlen : len (keyValue charsPerLine key value)
                 = Z.max charsPerLine (len truncatedKey + len value)).
  { unfold keyValue. fold truncatedKey. rewrite !len_append, len_spaces.
    pose proof (len_nonneg value). pose proof (len_nonneg truncatedKey). lia. }
  split; [exact Hk|]. split; [reflexivity|]. split; [exact Hlen|].
  intros Hfit. rewrite Hlen. lia.
Qed.

Lemma keyValue_width_witness :
  let truncatedKey := sliceTo "Subtotal" (2 * 32 / 5) in
  len truncatedKey = Z.min (len "Subtotal") (2 * 32 / 5) /\
  keyValue 32 "Subtotal" "Rs.20.00"
  = truncatedKey ++ spaces (32 - len truncatedKey - len "Rs.20.00") ++ "Rs.20.00" /\
  len (keyValue 32 "Subtotal" "Rs.20.00")
  = Z.max 32 (len truncatedKey + len "Rs.20.00") /\
  ((len truncatedKey + len "Rs.20.00" <= 32)%Z ->
   len (keyValue 32 "Subtotal" "Rs.20.00") = 32%Z).
Proof. apply (keyValue_width 32 "Subtotal" "Rs.20.00"). lia. Defined.



(** *** Wrapped names *)

Lemma chunkLines_chunkList line remainingText nameWidth : forall fuel i,
  chunkLines fuel line remainingText nameWidth i
  = String.concat "" (map line (chunkList fuel remainingText nameWidth i)).
Proof.
  induction fuel as [|fuel IH]; intros i; [reflexivity|].
  cbn [chunkLines chunkList].
  destruct (i <? len remainingText)%Z; [|reflexivity].
  cbn [map]. rewrite IH.
  destruct (map line (chunkList fuel remainingText nameWidth (i + nameWidth))) as [|l ls] eqn:E.
  - cbn [String.concat]. induction (line _) as [|c r IHr]; [reflexivity|].
    rewrite JsFacts.append_cons, IHr. reflexivity.
  - cbn [String.concat]. rewrite JsFacts.append_nil_l. reflexivity.
Qed.

Lemma substring_append s : forall n m k,
  (String.substring n m s ++ String.substring (n + m) k s)%string
  = String.substring n (m + k) s.
Proof.
  induction s as [|c s IH]; intros n m k.
  - destruct n, m, k; reflexivity.
  - destruct n as [|n].
    + destruct m as [|m].
      * cbn [String.substring Nat.add]. rewrite JsFacts.append_nil_l. reflexivity.
      * cbn [String.substring Nat.add]. rewrite JsFacts.append_cons.
        pose proof (IH 0%nat m k) as E. cbn [Nat.add] in E. rewrite E. reflexivity.
    + cbn [String.substring Nat.add]. apply IH.
Qed.

Lemma substring_beyond s : forall n m,
  (String.length s <= n)%nat -> String.substring n m s = "".
Proof.
  induction s as [|c s IH]; intros n m H.
  - destruct n, m; reflexivity.
  - destruct n as [|n]; [cbn in H; lia|]. cbn [String.substring]. apply IH.
    cbn in H. lia.
Qed.

Lemma concat_cons_chunk (c : string) (cs : list string) :
  String.concat "" (c :: cs) = c ++ String.concat "" cs.
Proof.
  destruct cs as [|d ds]; cbn [String.concat].
  - induction c as [|x c IH]; [reflexivity|]. rewrite JsFacts.append_cons, <- IH. reflexivity.
  - rewrite JsFacts.append_nil_l. reflexivity.
Qed.

Lemma clamp_le s i : (clamp s i <= String.length s)%nat.
Proof. unfold clamp, len. lia. Qed.

Lemma clamp_inside s i : (0 <= i <= len s)%Z -> clamp s i = Z.to_nat i.
Proof. unfold clamp, len. lia. Qed.

Lemma clamp_above s i : (len s <= i)%Z -> clamp s i = String.length s.
Proof. unfold clamp, len. lia. Qed.

Lemma clamp_below s i : (i <= 0)%Z -> clamp s i = 0%nat.
Proof. unfold clamp, len. lia. Qed.

(** [s.substring(from, to)] for indices in order, by the positions the
    indices are clamped to. *)
Lemma substring_clamped s from to :
  (from <= to)%Z ->
  substring s from to = String.substring (clamp s from) (clamp s to - clamp s from) s.
Proof.
  intros Hle. unfold substring.
  assert (Hc : (clamp s from <= clamp s to)%nat) by (unfold clamp, len; lia).
  rewrite Nat.min_l, Nat.max_r by exact Hc. reflexivity.
Qed.

Lemma substringFrom_clamped s from :
  substringFrom s from
  = String.substring (clamp s from) (String.length s - clamp s from) s.
Proof.
  unfold substringFrom, substring.
  rewrite (clamp_above s (len s)) by lia.
  pose proof (clamp_le s from) as Hc.
  rewrite Nat.min_l, Nat.max_r by exact Hc. reflexivity.
Qed.

(** A part of a text followed by the rest of the text. *)
Lemma substring_then_rest s from to :
  (from <= to)%Z ->
  substring s from to ++ substringFrom s to = substringFrom s from.
Proof.
  intros Hle. rewrite substring_clamped by exact Hle. rewrite !substringFrom_clamped.
  assert (Hc : (clamp s from <= clamp s to)%nat) by (unfold clamp, len; lia).
  pose proof (clamp_le s to) as Ht.
  replace (clamp s to) with (clamp s from + (clamp s to - clamp s from))%nat at 2 by lia.
  rewrite substring_append. f_equal. lia.
Qed.

(** An upper index beyond the end is the end:
    [s.substring(i, i + w)] is [s.substring(i, Math.min(i + w, s.length))]. *)
Lemma substring_upper_clamped s from to :
  substring s from (Z.min to (len s)) = substring s from to.
Proof.
  unfold substring. replace (clamp s (Z.min to (len s))) with (clamp s to); [reflexivity|].
  unfold clamp, len. lia.
Qed.

Lemma substringFrom_0 s : substringFrom s 0 = s.
Proof.
  rewrite substringFrom_clamped, clamp_below by lia.
  rewrite Nat.sub_0_r. apply CacheFacts.substring_all.
Qed.

Lemma substring_split s (k : Z) : substring s 0 k ++ substringFrom s k = s.
Proof.
  destruct (Z.le_gt_cases 0 k) as [Hk|Hk].
  - rewrite substring_then_rest by exact Hk. apply substringFrom_0.
  - assert (E : forall t, String.substring 0 0 t = "") by (intros [|? ?]; reflexivity).
    rewrite substringFrom_clamped. unfold substring.
    rewrite !(clamp_below s) by lia. cbn [Nat.min Nat.max Nat.sub].
    rewrite E, JsFacts.append_nil_l, Nat.sub_0_r. apply CacheFacts.substring_all.
Qed.

Lemma substringFrom_beyond s i : (len s <= i)%Z -> substringFrom s i = "".
Proof.
  intros H. rewrite substringFrom_clamped, clamp_above by exact H.
  apply substring_beyond. lia.
Qed.

(** The chunks, put together, are the text from the first index on; each
    holds at least one character and at most [nameWidth]. *)
Lemma chunkList_covers remainingText nameWidth : forall fuel i,
  (0 < nameWidth)%Z -> (0 <= i)%Z ->
  (Z.to_nat (len remainingText - i) <= fuel)%nat ->
  String.concat "" (chunkList fuel remainingText nameWidth i) = substringFrom remainingText i /\
  Forall (fun chunk => (0 < len chunk <= nameWidth)%Z)
         (chunkList fuel remainingText nameWidth i).
Proof.
  intros fuel. induction fuel as [|fuel IH]; intros i Hw Hi Hfuel.
  - cbn [chunkList String.concat]. split; [|constructor].
    symmetry. apply substringFrom_beyond. lia.
  - cbn [chunkList]. destruct (Z.ltb_spec i (len remainingText)) as [Hlt|Hge].
    + destruct (IH (i + nameWidth)%Z Hw ltac:(lia) ltac:(lia)) as [Hcat Hall].
      split.
      * rewrite concat_cons_chunk, Hcat.
        destruct (Z.le_gt_cases (i + nameWidth) (len remainingText)) as [Hin|Hout].
        -- rewrite Z.min_l by exact Hin. apply substring_then_rest. lia.
        -- rewrite Z.min_r by lia. rewrite (substringFrom_beyond _ (i + nameWidth)) by lia.
           rewrite <- (substring_then_rest remainingText i (len remainingText)) by lia.
           rewrite (substringFrom_beyond _ (len remainingText)) by lia. reflexivity.
      * constructor; [|exact Hall].
        rewrite len_substring by lia. pose proof (len_nonneg remainingText). lia.
    + cbn [String.concat]. split; [|constructor].
      symmetry. apply substringFrom_beyond. lia.
Qed.

(** X15: a name too long for its line is wrapped without loss. In
    formatKOTContent and in formatBillContent the part of the name on the
    first line followed by the chunks of the continuation lines, in
    order, is the whole name (trimmed, and in upper case on a ticket);
    every chunk holds between one and nameWidth characters, and each is
    printed on a line of its own. *)
Theorem wrapped_name_complete (charsPerLine : Z) :
  (forall (item : Ticket.item) (itemName : string),
     Ticket.name item = Some itemName ->
     let name := Ticket.toUpperCase (trim itemName) in
     let qtyStr := quantityOrZero item in
     let nameWidth := Z.max 10 (charsPerLine - 10) in
     let first := substring name 0 (nameWidth - len qtyStr - 3) in
     let chunks := chunkList (String.length (substringFrom name (nameWidth - len qtyStr - 3)))
                     (substringFrom name (nameWidth - len qtyStr - 3)) nameWidth 0 in
     (nameWidth - len qtyStr - 3 < len name)%Z ->
     first ++ String.concat "" chunks = name /\
     Forall (fun chunk => (0 < len chunk <= nameWidth)%Z) chunks /\
     kotItemLines charsPerLine item
     = Ok (LEFT ++ BOLD_ON ++ LARGE_SIZE ++ (qtyStr ++ " x " ++ first)
           ++ spaces (charsPerLine - len (qtyStr ++ " x " ++ first)
                      - len (Ticket.statusDisplayText item))
           ++ Ticket.statusDisplayText item ++ NORMAL_SIZE ++ BOLD_OFF ++ LF
           ++ String.concat ""
                (map (fun chunk => LEFT ++ BOLD_ON ++ LARGE_SIZE ++ spaces (len qtyStr + 3)
                                   ++ chunk ++ NORMAL_SIZE ++ BOLD_OFF ++ LF) chunks))) /\
  (forall item : billItem,
     let name := trim (BillLayout.name item) in
     let nameWidth := Z.max 10 (charsPerLine - 22) in
     let first := substring name 0 nameWidth in
     let chunks := chunkList (String.length (substringFrom name nameWidth))
                     (substringFrom name nameWidth) nameWidth 0 in
     (nameWidth < len name)%Z ->
     first ++ String.concat "" chunks = name /\
     Forall (fun chunk => (0 < len chunk <= nameWidth)%Z) chunks /\
     len first = nameWidth /\
     billItemLines charsPerLine item
     = LEFT ++ NORMAL_SIZE ++ first
       ++ padStart ("Rs." ++ numberToString (orZero (price item))) 8
       ++ BOLD_ON ++ padStart (quantityString (quantity item)) 3 ++ BOLD_OFF
       ++ padStart ("Rs." ++ toFixed2 (orZero (price item) * orZero (quantity item))) 10
       ++ NORMAL_SIZE ++ LF
       ++ String.concat ""
            (map (fun chunk => LEFT ++ NORMAL_SIZE ++ padEnd chunk (nameWidth - 4)
                               ++ "                 " ++ NORMAL_SIZE ++ LF) chunks)
       ++ LF).
Proof.
  split.
  - intros item itemName Hname name qtyStr nameWidth first chunks Hlong.
    destruct (chunkList_covers (substringFrom name (nameWidth - len qtyStr - 3)) nameWidth
                (String.length (substringFrom name (nameWidth - len qtyStr - 3))) 0)
      as [Hcat Hall]; [lia | lia | unfold len; lia |].
    split; [|split].
    + subst chunks. rewrite Hcat.
      rewrite substringFrom_0. apply substring_split.
    + exact Hall.
    + unfold kotItemLines. rewrite Hname. fold name. fold qtyStr. fold nameWidth.
      destruct (Z.leb_spec (len name) (nameWidth - len qtyStr - 3)); [lia|].
      fold first. rewrite chunkLines_chunkList. fold chunks.
      rewrite !JsFacts.append_assoc. reflexivity.
  - intros item name nameWidth first chunks Hlong.
    destruct (chunkList_covers (substringFrom name nameWidth) nameWidth
                (String.length (substringFrom name nameWidth)) 0)
      as [Hcat Hall]; [lia | lia | unfold len; lia |].
    split; [|split].
    + subst chunks. rewrite Hcat.
      rewrite substringFrom_0. apply substring_split.
    + exact Hall.
    + split; [subst first; rewrite len_substring by lia; lia|].
      unfold billItemLines, billLineFields. fold name. fold nameWidth.
      destruct (Z.leb_spec (len name) nameWidth); [lia|].
      fold first. rewrite chunkLines_chunkList. fold chunks.
      rewrite !JsFacts.append_assoc. reflexivity.
Qed.

(** *** When formatKOTContent throws *)

Lemma splitSpaces_nonempty s : splitSpaces s <> [].
Proof.
  destruct s as [|c s]; cbn [splitSpaces]; [discriminate|].
  destruct (Ascii.eqb c " "); [discriminate|].
  destruct (splitSpaces s); discriminate.
Qed.

Lemma splitSpaces_no_space d :
  (forall a b, d <> a ++ " " ++ b) -> splitSpaces d = [d].
Proof.
  induction d as [|c d IH]; intros Hno; [reflexivity|].
  cbn [splitSpaces]. destruct (Ascii.eqb_spec c " ") as [->|Hc].
  - exfalso. apply (Hno "" d). reflexivity.
  - rewrite IH; [reflexivity|]. intros a b E. apply (Hno (String c a) b).
    rewrite E. reflexivity.
Qed.

Lemma splitSpaces_space a : forall b,
  (2 <= length (splitSpaces (a ++ " " ++ b)))%nat.
Proof.
  induction a as [|c a IH]; intros b.
  - rewrite JsFacts.append_nil_l. change (" " ++ b) with (String " " b).
    cbn [splitSpaces]. rewrite Ascii.eqb_refl.
    pose proof (splitSpaces_nonempty b). destruct (splitSpaces b); [contradiction|].
    cbn [length]. lia.
  - rewrite JsFacts.append_cons. cbn [splitSpaces]. specialize (IH b).
    destruct (Ascii.eqb c " "); [cbn [length]; lia|].
    destruct (splitSpaces (a ++ " " ++ b)) as [|w ws]; [cbn in IH; lia|]. exact IH.
Qed.

Lemma kotItemLines_named charsPerLine item :
  Ticket.name item <> None -> exists lines, kotItemLines charsPerLine item = Ok lines.
Proof.
  intros Hname. unfold kotItemLines.
  destruct (Ticket.name item) as [itemName|]; [|contradiction].
  match goal with |- context [if ?c then _ else _] => destruct c end;
    eexists; reflexivity.
Qed.

Lemma kotItemsLines_named charsPerLine items :
  Forall (fun item => Ticket.name item <> None) items ->
  exists out, kotItemsLines charsPerLine items = Ok out.
Proof.
  induction 1 as [|item items Hitem _ [more IH]]; [eexists; reflexivity|].
  destruct (kotItemLines_named charsPerLine item Hitem) as [lines Hlines].
  cbn [kotItemsLines]. rewrite Hlines, IH. eexists. reflexivity.
Qed.

Lemma kotItemsLines_unnamed charsPerLine items :
  Exists (fun item => Ticket.name item = None) items ->
  kotItemsLines charsPerLine items = Throw (readOfUndefined "trim").
Proof.
  induction items as [|item items IH]; intros H; [inversion H|].
  cbn [kotItemsLines].
  destruct (Ticket.name item) as [itemName|] eqn:Hname.
  - destruct (kotItemLines_named charsPerLine item) as [lines ->]; [congruence|].
    cbn [bind]. rewrite IH; [reflexivity|].
    inversion H as [? ? Hhead|? ? Htail]; subst; [congruence | exact Htail].
  - unfold kotItemLines. rewrite Hname. reflexivity.
Qed.

(** X16: when the text layout of a ticket fails. On a ticket whose
    fields, where they are present, are strings (the items a list, a
    quantity an integer), formatKOTContent throws in five cases, which it
    meets in this order: a TypeError when the header is missing; a
    RangeError from the divider when charsPerLine is negative; a TypeError
    when the header has no customerName; a TypeError when the date of the
    header is a non-empty text without a space, as the time is then
    undefined; a TypeError when an item has no name. In every other case
    it returns the ticket. *)
Theorem formatKOTContent_failures (charsPerLine : Z) (content : kotContent) :
  (header content = None ->
   formatKOTContent charsPerLine content = Throw (readOfUndefined "kotType")) /\
  (forall h,
     header content = Some h ->
     let dated :=
       date h = None \/ date h = Some "" \/ exists a b, date h = Some (a ++ " " ++ b) in
     let named :=
       forall l, items content = Some l -> Forall (fun item => Ticket.name item <> None) l in
     ((charsPerLine < 0)%Z ->
      formatKOTContent charsPerLine content
      = Throw ("RangeError: Invalid count value: " ++ pretty charsPerLine)) /\
     ((0 <= charsPerLine)%Z -> customerName h = None ->
      formatKOTContent charsPerLine content = Throw (readOfUndefined "length")) /\
     (forall d,
        (0 <= charsPerLine)%Z -> customerName h <> None ->
        date h = Some d -> d <> "" -> (forall a b, d <> a ++ " " ++ b) ->
        formatKOTContent charsPerLine content = Throw (readOfUndefined "length")) /\
     (forall l,
        (0 <= charsPerLine)%Z -> customerName h <> None -> dated ->
        items content = Some l -> Exists (fun item => Ticket.name item = None) l ->
        formatKOTContent charsPerLine content = Throw (readOfUndefined "trim")) /\
     ((0 <= charsPerLine)%Z -> customerName h <> None -> dated -> named ->
      exists out, formatKOTContent charsPerLine content = Ok out)).
Proof.
  split.
  { intros Hh. unfold formatKOTContent. rewrite Hh. reflexivity. }
  intros h Hh dated named.
  assert (Htime : dated -> exists t, datePart h 1 = Some t).
  { unfold datePart. intros [->|[->|(a & b & ->)]].
    - eexists. reflexivity.
    - eexists. reflexivity.
    - destruct (String.eqb (a ++ " " ++ b) ""); [eexists; reflexivity|].
      pose proof (splitSpaces_space a b) as Hlen.
      destruct (splitSpaces (a ++ " " ++ b)) as [|w [|t ws]]; cbn in Hlen; try lia.
      exists t. reflexivity. }
  unfold formatKOTContent, divider, repeat. rewrite Hh. cbn [bind].
  split; [|split; [|split; [|split]]].
  - intros Hneg. destruct (Z.ltb_spec charsPerLine 0); [reflexivity | lia].
  - intros Hcpl Hc. destruct (Z.ltb_spec charsPerLine 0); [lia|]. cbn [bind].
    rewrite Hc. reflexivity.
  - intros d Hcpl Hc Hd Hne Hno. destruct (Z.ltb_spec charsPerLine 0); [lia|]. cbn [bind].
    destruct (customerName h) as [customer|]; [|contradiction]. cbn [bind].
    unfold datePart. rewrite Hd.
    destruct (String.eqb_spec d ""); [contradiction|].
    rewrite (splitSpaces_no_space d Hno). reflexivity.
  - intros l Hcpl Hc Hdated Hl Hex. destruct (Z.ltb_spec charsPerLine 0); [lia|]. cbn [bind].
    destruct (customerName h) as [customer|]; [|contradiction]. cbn [bind].
    destruct (Htime Hdated) as [t ->]. cbn [bind].
    rewrite Hl, (kotItemsLines_unnamed charsPerLine l Hex). reflexivity.
  - intros Hcpl Hc Hdated Hnamed. destruct (Z.ltb_spec charsPerLine 0); [lia|]. cbn [bind].
    destruct (customerName h) as [customer|]; [|contradiction]. cbn [bind].
    destruct (Htime Hdated) as [t ->]. cbn [bind].
    destruct (items content) as [l|] eqn:Hl.
    + destruct (kotItemsLines_named charsPerLine l (Hnamed l eq_refl)) as [out ->].
      cbn [bind]. eexists. reflexivity.
    + cbn [bind]. eexists. reflexivity.
Qed.

End WidthFacts.

(** ** The agent: paper profiles and printers *)

Module AgentFacts.
Import Js JsString Agent.
Local Open Scope string_scope.

(** *** Reading a printed number back *)

Lemma digitValue_pretty_N_char d :
  (d < 10)%N -> digitValue (pretty_N_char d) = Some d.
Proof.
  intros H.
  assert (Hd : (d = 0 \/ d = 1 \/ d = 2 \/ d = 3 \/ d = 4 \/ d = 5 \/ d = 6 \/ d = 7
                \/ d = 8 \/ d = 9)%N) by lia.
  repeat destruct Hd as [->|Hd]; try reflexivity. subst. reflexivity.
Qed.

Lemma parseDigits_pretty_N_go x : forall acc s,
  exists k, parseDigits acc (pretty_N_go x s) = parseDigits (acc * 10 ^ k + x) s.
Proof.
  induction (N.lt_wf_0 x) as [x _ IH]; intros acc s.
  destruct (N.eq_dec x 0%N) as [->|Hx].
  - exists 0%N. rewrite pretty_N_go_0. f_equal. lia.
  - rewrite pretty_N_go_step by lia.
    destruct (IH (x / 10)%N ltac:(apply N.div_lt; lia) acc
                 (String (pretty_N_char (x mod 10)) s)) as [k Hk].
    exists (k + 1)%N. rewrite Hk. cbn [parseDigits].
    rewrite digitValue_pretty_N_char by (apply N.mod_lt; lia).
    f_equal. rewrite N.pow_add_r, N.pow_1_r.
    pose proof (N.div_mod x 10 ltac:(lia)). lia.
Qed.

Lemma parseDigits_pretty (n : N) : parseDigits 0 (pretty n) = Some n.
Proof.
  unfold pretty, pretty_N. case_decide as H; [subst; reflexivity|].
  destruct (parseDigits_pretty_N_go n 0 "") as [k Hk]. rewrite Hk.
  cbn [parseDigits]. first [reflexivity | f_equal; lia].
Qed.

Lemma digitsPrefix_allDigits s : allDigits s = true -> digitsPrefix s = s.
Proof.
  induction s as [|c s IH]; [reflexivity|]. cbn [allDigits digitsPrefix].
  intros H. apply andb_true_iff in H as [Hc Hs]. rewrite Hc, IH by exact Hs. reflexivity.
Qed.

Lemma isDigit_not_space c : isDigit c = true -> isSpace c = false.
Proof. destruct c as [[] [] [] [] [] [] [] []]; (discriminate || reflexivity). Qed.

Lemma isDigit_not_sign c :
  isDigit c = true -> Ascii.eqb c "-" = false /\ Ascii.eqb c "+" = false.
Proof. destruct c as [[] [] [] [] [] [] [] []]; (discriminate || (split; reflexivity)). Qed.

(** parseInt reads a positive number printed in decimal back. *)
Lemma parseInt_pretty (p : Z) : (0 <= p)%Z -> parseInt (pretty p) = Some p.
Proof.
  intros Hp.
  assert (E : pretty p = pretty (Z.to_N p)).
  { unfold pretty at 1, pretty_Z. destruct p as [|q|q]; try reflexivity. lia. }
  rewrite E. destruct (JsFacts.pretty_N_digits (Z.to_N p)) as [Hd Hne].
  unfold parseInt.
  destruct (pretty (Z.to_N p)) as [|c rest] eqn:Hs; [contradiction|].
  pose proof Hd as Hd'. cbn [allDigits] in Hd'. apply andb_true_iff in Hd' as [Hc _].
  cbn [trimStart]. rewrite (isDigit_not_space c Hc).
  destruct (isDigit_not_sign c Hc) as [-> ->].
  rewrite digitsPrefix_allDigits by exact Hd.
  rewrite <- Hs, parseDigits_pretty. f_equal. lia.
Qed.

(** *** Paper profiles *)

Lemma inherited_rules :
  inherited "MM_58" = false /\ inherited "MM_80" = false /\ inherited "MM_76" = false.
Proof. repeat split; reflexivity. Qed.

(** X17: the paper profile of a job. A job that names no paper width
    where extractPaperWidth looks is laid out with the 80 mm profile (576
    dots, 48 characters); a width of MM_58, MM_80 or MM_76 selects its
    rule, whose six properties replace those of the formatter while every
    other property stays; any other name selects the 58 mm profile,
    except a name that plain objects inherit, for which the configuration
    is left as the previous job set it. *)
Theorem paper_profile_selection (f : Formatter.formatter) (job : json) :
  (truthyMember (member (Some job) "options") "paperWidth" = None ->
   truthyMember (truthyMember (member (Some job) "content") "options") "paperWidth" = None ->
   truthyMember (truthyMember (truthyMember (member (Some job) "content") "content")
                   "options") "paperWidth" = None ->
   extractPaperWidth job = JStr "MM_80" /\
   exists f', configureFor f job = Some f' /\
     getProperty (Formatter.config f') "lineWidth" = Some (JNum 576) /\
     getProperty (Formatter.config f') "charsPerLine" = Some (JNum 48)) /\
  (forall paperWidth,
     extractPaperWidth job = JStr paperWidth ->
     exists f', configureFor f job = Some f' /\
       Formatter.cacheSettings f' = Formatter.cacheSettings f /\
       Formatter.imageCache f' = Formatter.imageCache f /\
       (inherited paperWidth = true -> Formatter.config f' = Formatter.config f) /\
       (inherited paperWidth = false ->
        exists rule,
          In rule [("MM_58", 384, 32); ("MM_80", 576, 48); ("MM_76", 512, 42)]%Z /\
          (fst (fst rule) = paperWidth \/
           (fst (fst rule) = "MM_58" /\ paperWidth <> "MM_80" /\ paperWidth <> "MM_76")) /\
          getProperty (Formatter.config f') "lineWidth" = Some (JNum (snd (fst rule))) /\
          getProperty (Formatter.config f') "charsPerLine" = Some (JNum (snd rule)) /\
          getProperty (Formatter.config f') "normalSize" = Some (JNum 0) /\
          getProperty (Formatter.config f') "largeSize" = Some (JNum 24) /\
          getProperty (Formatter.config f') "mediumSize" = Some (JNum 16) /\
          getProperty (Formatter.config f') "smallSize" = Some (JNum 0) /\
          forall key,
            ~ In key ["lineWidth"; "charsPerLine"; "normalSize"; "largeSize";
                      "mediumSize"; "smallSize"] ->
            getProperty (Formatter.config f') key = getProperty (Formatter.config f) key)).
Proof.
  assert (Hrule : forall w,
    inherited w = false ->
    exists rule,
      In rule [("MM_58", 384, 32); ("MM_80", 576, 48); ("MM_76", 512, 42)]%Z /\
      (fst (fst rule) = w \/ (fst (fst rule) = "MM_58" /\ w <> "MM_80" /\ w <> "MM_76")) /\
      formatConfig w
      = [("lineWidth", JNum (snd (fst rule))); ("charsPerLine", JNum (snd rule));
         ("normalSize", JNum 0); ("largeSize", JNum 24);
         ("mediumSize", JNum 16); ("smallSize", JNum 0)]).
  { intros w Hw. unfold formatConfig, formatRules. rewrite !HashFacts.getProperty_cons.
    destruct (String.eqb_spec "MM_58" w) as [<-|H58].
    { exists ("MM_58", 384, 32)%Z. split; [left; reflexivity|]. split; [left; reflexivity|].
      reflexivity. }
    destruct (String.eqb_spec "MM_80" w) as [<-|H80].
    { exists ("MM_80", 576, 48)%Z. split; [right; left; reflexivity|].
      split; [left; reflexivity|]. reflexivity. }
    destruct (String.eqb_spec "MM_76" w) as [<-|H76].
    { exists ("MM_76", 512, 42)%Z. split; [right; right; left; reflexivity|].
      split; [left; reflexivity|]. reflexivity. }
    cbn [getProperty find fmap option_fmap option_map]. rewrite Hw.
    exists ("MM_58", 384, 32)%Z. split; [left; reflexivity|].
    split; [right; repeat split; congruence|]. reflexivity. }
  assert (Hcfg : forall w f0 (rule : string * Z * Z),
    formatConfig w
    = [("lineWidth", JNum (snd (fst rule))); ("charsPerLine", JNum (snd rule));
       ("normalSize", JNum 0); ("largeSize", JNum 24);
       ("mediumSize", JNum 16); ("smallSize", JNum 0)] ->
    forall key,
      getProperty (Formatter.config (Formatter.updateConfig f0 (formatConfig w))) key
      = match getProperty (formatConfig w) key with
        | Some v => Some v
        | None => getProperty (Formatter.config f0) key
        end).
  { intros w f0 rule E key. unfold Formatter.updateConfig. cbn [Formatter.config].
    apply ConfigFacts.getProperty_spread_distinct. rewrite E.
    apply (bool_decide_unpack _). vm_compute. exact I. }
  split.
  - intros H1 H2 H3.
    assert (E : extractPaperWidth job = JStr "MM_80").
    { unfold extractPaperWidth. rewrite H1, H2, H3. reflexivity. }
    split; [exact E|]. unfold configureFor. rewrite E. eexists. split; [reflexivity|].
    destruct (Hrule "MM_80" eq_refl) as (rule & _ & _ & Ef).
    rewrite !(Hcfg "MM_80" f rule Ef). split; reflexivity.
  - intros w E. unfold configureFor. rewrite E. eexists. split; [reflexivity|].
    split; [reflexivity|]. split; [reflexivity|]. split.
    + intros Hin. unfold Formatter.updateConfig, formatConfig. cbn [Formatter.config].
      assert (Hnone : getProperty formatRules w = None).
      { unfold formatRules. rewrite !HashFacts.getProperty_cons.
        destruct (String.eqb_spec "MM_58" w) as [<-|_]; [discriminate Hin|].
        destruct (String.eqb_spec "MM_80" w) as [<-|_]; [discriminate Hin|].
        destruct (String.eqb_spec "MM_76" w) as [<-|_]; [discriminate Hin|].
        reflexivity. }
      rewrite Hnone, Hin. reflexivity.
    + intros Hw. destruct (Hrule w Hw) as (rule & Hin & Hname & Ef).
      exists rule. split; [exact Hin|]. split; [exact Hname|].
      repeat split; try (rewrite (Hcfg w f rule Ef), Ef; reflexivity).
      intros key Hkey. rewrite (Hcfg w f rule Ef), Ef. rewrite !HashFacts.getProperty_cons.
      repeat match goal with
             | |- context [String.eqb ?a key] =>
               destruct (String.eqb_spec a key) as [<-|_];
               [exfalso; apply Hkey; cbn; tauto|]
             end.
      reflexivity.
Qed.

(** *** Printers *)

Lemma split_cons_nonempty sep s : split sep s <> [].
Proof.
  destruct s as [|c s]; cbn [split]; [discriminate|].
  destruct (Ascii.eqb c sep); [discriminate|]. destruct (split sep s); discriminate.
Qed.

Lemma split_no_separator sep s :
  (forall a b, s <> a ++ String sep b) -> split sep s = [s].
Proof.
  induction s as [|c s IH]; intros Hno; [reflexivity|]. cbn [split].
  destruct (Ascii.eqb_spec c sep) as [->|_].
  - exfalso. apply (Hno "" s). reflexivity.
  - rewrite IH; [reflexivity|]. intros a b E. apply (Hno (String c a) b).
    rewrite E. reflexivity.
Qed.

(** A text that [split] leaves in one piece holds no separator. *)
Lemma split_inj_no_separator s :
  split ":" s = [s] -> forall a b, s <> a ++ String ":" b.
Proof.
  intros Hone a b E. subst s. revert Hone.
  induction a as [|c a IH]; intros Hone.
  - rewrite JsFacts.append_nil_l in Hone. cbn [split] in Hone.
    rewrite Ascii.eqb_refl in Hone. pose proof (split_cons_nonempty ":" b).
    destruct (split ":" b); [contradiction | discriminate Hone].
  - rewrite JsFacts.append_cons in Hone. cbn [split] in Hone.
    destruct (Ascii.eqb c ":"); [pose proof (split_cons_nonempty ":" (a ++ String ":" b));
      destruct (split ":" (a ++ String ":" b)); [contradiction | discriminate Hone]|].
    destruct (split ":" (a ++ String ":" b)) as [|w ws] eqn:Es.
    + exact (split_cons_nonempty _ _ Es).
    + injection Hone as Hw ->. apply IH. rewrite Hw. reflexivity.
Qed.

Lemma split_first sep first : forall rest,
  (forall a b, first <> a ++ String sep b) ->
  split sep (first ++ String sep rest) = first :: split sep rest.
Proof.
  induction first as [|c first IH]; intros rest Hno.
  - rewrite JsFacts.append_nil_l. cbn [split]. rewrite Ascii.eqb_refl. reflexivity.
  - rewrite JsFacts.append_cons. cbn [split].
    destruct (Ascii.eqb_spec c sep) as [->|_].
    + exfalso. apply (Hno "" first). reflexivity.
    + rewrite IH; [reflexivity|]. intros a b E. apply (Hno (String c a) b).
      rewrite E. reflexivity.
Qed.

Lemma allDigits_no_colon s : allDigits s = true -> forall a b, s <> a ++ String ":" b.
Proof.
  induction s as [|c s IH]; intros Hd a b E.
  - destruct a; discriminate E.
  - cbn [allDigits] in Hd. apply andb_true_iff in Hd as [Hc Hs].
    destruct a as [|x a].
    + rewrite JsFacts.append_nil_l in E. injection E as -> _. discriminate Hc.
    + rewrite JsFacts.append_cons in E. injection E as _ E. exact (IH Hs a b E).
Qed.

(** X18: a printer mapped in the old form ["<address>:<port>"]. An
    address that is not empty and holds no colon, followed by a colon and
    a positive port printed in decimal, is read back as that address and
    that port, and the mappings are left as they are. A text without a
    colon, a port that is not a number, a port of 0 and an empty address
    give no configuration. *)
Theorem legacy_mapping_round_trip (printerMappings : list (string * json))
    (printerId address : string) (portNumber : Z) :
  getProperty printerMappings printerId
  = Some (JStr (address ++ ":" ++ pretty portNumber)) ->
  address <> "" -> (forall a b, address <> a ++ String ":" b) ->
  (0 < portNumber < 2 ^ 53)%Z ->
  getPrinterConfig printerMappings printerId
  = Ok (Some {| id := printerId; ipAddress := Some (JStr address);
                port := JNum portNumber; type := None; paperWidth := None |},
        printerMappings) /\
  (forall mappings name text,
     getProperty mappings name = Some (JStr text) ->
     (forall a b, text <> a ++ String ":" b) ->
     getPrinterConfig mappings name = Ok (None, mappings)) /\
  (forall mappings name host portText,
     getProperty mappings name = Some (JStr (host ++ ":" ++ portText)) ->
     (forall a b, host <> a ++ String ":" b) ->
     host = "" \/ parseInt (nth 0 (split ":" portText) "") = None
     \/ parseInt (nth 0 (split ":" portText) "") = Some 0%Z ->
     getPrinterConfig mappings name = Ok (None, mappings)).
Proof.
  intros Hmap Hne Hno Hport. split; [|split].
  - unfold getPrinterConfig, lookupMapping. rewrite Hmap.
    assert (Htruthy : truthy (JStr (address ++ ":" ++ pretty portNumber)) = true).
    { destruct address; [contradiction | reflexivity]. }
    rewrite Htruthy.
    change (address ++ ":" ++ pretty portNumber)
      with (address ++ String ":" (pretty portNumber)).
    rewrite (split_first ":" address (pretty portNumber) Hno).
    assert (Hdigits : allDigits (pretty portNumber) = true).
    { replace (pretty portNumber) with (pretty (Z.to_N portNumber)).
      - apply JsFacts.pretty_N_digits.
      - unfold pretty at 2, pretty_Z. destruct portNumber; try reflexivity; lia. }
    rewrite (split_no_separator ":" (pretty portNumber))
      by (apply allDigits_no_colon; exact Hdigits).
    cbn [nth nth_error]. rewrite parseInt_pretty by lia.
    destruct (String.eqb_spec address ""); [contradiction|].
    destruct (Z.eqb_spec portNumber 0); [lia|]. reflexivity.
  - intros mappings name text Hm Hnone. unfold getPrinterConfig, lookupMapping. rewrite Hm.
    destruct (truthy (JStr text)); [|reflexivity].
    rewrite (split_no_separator ":" text Hnone). reflexivity.
  - intros mappings name host portText Hm Hhost Hbad.
    unfold getPrinterConfig, lookupMapping. rewrite Hm.
    destruct (truthy (JStr (host ++ ":" ++ portText))); [|reflexivity].
    change (host ++ ":" ++ portText) with (host ++ String ":" portText).
    rewrite (split_first ":" host portText Hhost).
    pose proof (split_cons_nonempty ":" portText) as Hparts.
    destruct (split ":" portText) as [|portStr more]; [contradiction|].
    cbn [nth nth_error] in Hbad |- *.
    destruct Hbad as [->|[->| ->]]; [|reflexivity|].
    + destruct (parseInt portStr) as [port|]; reflexivity.
    + rewrite orb_true_r. reflexivity.
Qed.

Lemma legacy_mapping_round_trip_witness :
  getPrinterConfig [("kitchen", JStr "192.168.1.50:9100")] "kitchen"
  = Ok (Some {| id := "kitchen"; ipAddress := Some (JStr "192.168.1.50");
                port := JNum 9100; type := None; paperWidth := None |},
        [("kitchen", JStr "192.168.1.50:9100")]) /\
  (forall mappings name text,
     getProperty mappings name = Some (JStr text) ->
     (forall a b, text <> a ++ String ":" b) ->
     getPrinterConfig mappings name = Ok (None, mappings)) /\
  (forall mappings name host portText,
     getProperty mappings name = Some (JStr (host ++ ":" ++ portText)) ->
     (forall a b, host <> a ++ String ":" b) ->
     host = "" \/ parseInt (nth 0 (split ":" portText) "") = None
     \/ parseInt (nth 0 (split ":" portText) "") = Some 0%Z ->
     getPrinterConfig mappings name = Ok (None, mappings)).
Proof.
  apply (legacy_mapping_round_trip [("kitchen", JStr "192.168.1.50:9100")]
           "kitchen" "192.168.1.50" 9100).
  - reflexivity.
  - discriminate.
  - apply split_inj_no_separator. reflexivity.
  - lia.
Defined.

Lemma lookupMapping_own mappings name v :
  getProperty mappings name = Some v -> lookupMapping mappings name = Own v.
Proof. intros H. unfold lookupMapping. rewrite H. reflexivity. Qed.

(** X19: a printer mapped as an object. getPrinterConfig fills in port
    9100, type "tcp" and paper width "MM_58" for the properties that are
    missing or falsy, and takes the address from [address] when
    [ipAddress] is missing or falsy; in that case it also writes the
    address into the mapping as [ipAddress], changing nothing else. A
    second call returns the same configuration and changes nothing any
    more. *)
Theorem object_mapping_completed (printerMappings : list (string * json))
    (printerId : string) (fields : list (string * json)) :
  getProperty printerMappings printerId = Some (JObj fields) ->
  exists fields',
    getPrinterConfig printerMappings printerId
    = Ok (Some (objectConfig printerId fields'),
          setProperty printerMappings printerId (JObj fields')) /\
    port (objectConfig printerId fields') = orElse (getProperty fields "port") (JNum 9100) /\
    type (objectConfig printerId fields')
    = Some (orElse (getProperty fields "type") (JStr "tcp")) /\
    paperWidth (objectConfig printerId fields')
    = Some (orElse (getProperty fields "paperWidth") (JStr "MM_58")) /\
    ipAddress (objectConfig printerId fields')
    = orUndefined (getProperty fields "ipAddress") (getProperty fields "address") /\
    (truthyOpt (getProperty fields "ipAddress") = true \/
     truthyOpt (getProperty fields "address") = false -> fields' = fields) /\
    (truthyOpt (getProperty fields "ipAddress") = false ->
     truthyOpt (getProperty fields "address") = true ->
     getProperty fields' "ipAddress" = getProperty fields "address" /\
     forall key, key <> "ipAddress" -> getProperty fields' key = getProperty fields key) /\
    (forall name, name <> printerId ->
       getProperty (setProperty printerMappings printerId (JObj fields')) name
       = getProperty printerMappings name) /\
    getPrinterConfig (setProperty printerMappings printerId (JObj fields')) printerId
    = Ok (Some (objectConfig printerId fields'),
          setProperty printerMappings printerId (JObj fields')).
Proof.
  intros Hmap.
  set (ip := getProperty fields "ipAddress").
  set (addr := getProperty fields "address").
  set (fields' := if negb (truthyOpt ip) && truthyOpt addr
                  then match addr with
                       | Some address => setProperty fields "ipAddress" address
                       | None => fields
                       end
                  else fields).
  assert (Hfirst : getPrinterConfig printerMappings printerId
                   = Ok (Some (objectConfig printerId fields'),
                         setProperty printerMappings printerId (JObj fields'))).
  { unfold getPrinterConfig. rewrite (lookupMapping_own _ _ _ Hmap). reflexivity. }
  assert (Hother : forall key, key <> "ipAddress" ->
                     getProperty fields' key = getProperty fields key).
  { intros key Hkey. subst fields'.
    destruct (negb (truthyOpt ip) && truthyOpt addr); [|reflexivity].
    destruct addr as [address|]; [|reflexivity].
    rewrite FormatterFacts.getProperty_setProperty.
    destruct (String.eqb_spec "ipAddress" key); [congruence | reflexivity]. }
  assert (Hip : orUndefined (getProperty fields' "ipAddress") (getProperty fields' "address")
                = orUndefined ip addr).
  { rewrite (Hother "address") by discriminate. fold addr. subst fields'.
    destruct (truthyOpt ip) eqn:Hi; cbn [negb andb]; [reflexivity|].
    destruct (truthyOpt addr) eqn:Ha; [|reflexivity].
    destruct addr as [address|]; [|discriminate Ha].
    rewrite FormatterFacts.getProperty_setProperty, String.eqb_refl.
    unfold orUndefined. fold ip. rewrite Hi, Ha. reflexivity. }
  assert (Hstable : negb (truthyOpt (getProperty fields' "ipAddress"))
                    && truthyOpt (getProperty fields' "address") = true ->
                    False).
  { rewrite (Hother "address") by discriminate. fold addr. subst fields'.
    destruct (truthyOpt ip) eqn:Hi; cbn [negb andb].
    - fold ip. rewrite Hi. discriminate.
    - destruct (truthyOpt addr) eqn:Ha.
      + destruct addr as [address|]; [|discriminate Ha].
        rewrite FormatterFacts.getProperty_setProperty, String.eqb_refl.
        cbn [truthyOpt] in Ha |- *. rewrite Ha. discriminate.
      + rewrite andb_false_r. discriminate. }
  exists fields'. split; [exact Hfirst|].
  split; [unfold objectConfig; cbn [port]; rewrite (Hother "port") by discriminate;
          reflexivity|].
  split; [unfold objectConfig; cbn [type]; rewrite (Hother "type") by discriminate;
          reflexivity|].
  split; [unfold objectConfig; cbn [paperWidth];
          rewrite (Hother "paperWidth") by discriminate; reflexivity|].
  split; [unfold objectConfig; cbn [ipAddress]; exact Hip|].
  split.
  { intros [Hi|Ha]; subst fields'.
    - rewrite Hi. reflexivity.
    - rewrite Ha, andb_false_r. reflexivity. }
  split.
  { intros Hi Ha. split; [|exact Hother]. subst fields'.
    rewrite Hi, Ha. cbn [negb andb].
    destruct addr as [address|]; [|discriminate Ha].
    rewrite FormatterFacts.getProperty_setProperty, String.eqb_refl. reflexivity. }
  split.
  { intros name Hname. rewrite FormatterFacts.getProperty_setProperty.
    destruct (String.eqb_spec printerId name); [congruence | reflexivity]. }
  unfold getPrinterConfig.
  rewrite (lookupMapping_own _ printerId (JObj fields'))
    by (rewrite FormatterFacts.getProperty_setProperty, String.eqb_refl; reflexivity).
  destruct (negb (truthyOpt (getProperty fields' "ipAddress"))
            && truthyOpt (getProperty fields' "address")).
  - exfalso. apply Hstable. reflexivity.
  - rewrite ConfigFacts.setProperty_twice. reflexivity.
Qed.

Lemma object_mapping_completed_witness :
  exists fields',
    getPrinterConfig [("receipt", JObj [("address", JStr "10.0.0.7")])] "receipt"
    = Ok (Some (objectConfig "receipt" fields'),
          setProperty [("receipt", JObj [("address", JStr "10.0.0.7")])] "receipt"
            (JObj fields')) /\
    port (objectConfig "receipt" fields')
    = orElse (getProperty [("address", JStr "10.0.0.7")] "port") (JNum 9100) /\
    type (objectConfig "receipt" fields')
    = Some (orElse (getProperty [("address", JStr "10.0.0.7")] "type") (JStr "tcp")) /\
    paperWidth (objectConfig "receipt" fields')
    = Some (orElse (getProperty [("address", JStr "10.0.0.7")] "paperWidth") (JStr "MM_58")) /\
    ipAddress (objectConfig "receipt" fields')
    = orUndefined (getProperty [("address", JStr "10.0.0.7")] "ipAddress")
        (getProperty [("address", JStr "10.0.0.7")] "address") /\
    (truthyOpt (getProperty [("address", JStr "10.0.0.7")] "ipAddress") = true \/
     truthyOpt (getProperty [("address", JStr "10.0.0.7")] "address") = false ->
     fields' = [("address", JStr "10.0.0.7")]) /\
    (truthyOpt (getProperty [("address", JStr "10.0.0.7")] "ipAddress") = false ->
     truthyOpt (getProperty [("address", JStr "10.0.0.7")] "address") = true ->
     getProperty fields' "ipAddress" = getProperty [("address", JStr "10.0.0.7")] "address" /\
     forall key, key <> "ipAddress" ->
       getProperty fields' key = getProperty [("address", JStr "10.0.0.7")] key) /\
    (forall name, name <> "receipt" ->
       getProperty (setProperty [("receipt", JObj [("address", JStr "10.0.0.7")])] "receipt"
                      (JObj fields')) name
       = getProperty [("receipt", JObj [("address", JStr "10.0.0.7")])] name) /\
    getPrinterConfig (setProperty [("receipt", JObj [("address", JStr "10.0.0.7")])]
                        "receipt" (JObj fields')) "receipt"
    = Ok (Some (objectConfig "receipt" fields'),
          setProperty [("receipt", JObj [("address", JStr "10.0.0.7")])] "receipt"
            (JObj fields')).
Proof.
  apply (object_mapping_completed [("receipt", JObj [("address", JStr "10.0.0.7")])]
           "receipt" [("address", JStr "10.0.0.7")]).
  reflexivity.
Defined.

(** X20: the printer a job is sent to. A printer that is mapped is never
    replaced. For a printer that is not, the job goes to "kitchen" when
    it is a KOT and "kitchen" is mapped; otherwise to "receipt" when it
    is a BILL and "receipt" is mapped; otherwise to the first printer of
    the mappings, and to no other; the printer used is always a mapped one and the
    configuration carries its name. "Printer not found in mappings" is
    not reported as long as the mappings start with a printer of a
    non-empty name. *)
Theorem printer_choice (printerMappings : list (string * json)) (job : json)
    (printerId : string) :
  (forall target config mappings',
     choosePrinter printerMappings job printerId = (UsePrinter target config, mappings') ->
     printerId <> "" /\ id config = target /\
     mapped (lookupMapping printerMappings target) = true /\
     (mapped (lookupMapping printerMappings printerId) = true -> target = printerId) /\
     (mapped (lookupMapping printerMappings printerId) = false ->
      let toKitchen :=
        contentTypeIs job "KOT" && mapped (lookupMapping printerMappings "kitchen") in
      let toReceipt :=
        contentTypeIs job "BILL" && mapped (lookupMapping printerMappings "receipt") in
      (toKitchen = true -> target = "kitchen") /\
      (toKitchen = false -> toReceipt = true -> target = "receipt") /\
      (toKitchen = false -> toReceipt = false ->
       firstKey printerMappings = Some target))) /\
  (forall first value rest,
     printerMappings = (first, value) :: rest -> first <> "" -> printerId <> "" ->
     fst (choosePrinter printerMappings job printerId)
     <> JobError "Printer not found in mappings") /\
  (printerMappings = [] -> printerId <> "" -> inherited printerId = false ->
   choosePrinter printerMappings job printerId
   = (JobError "Printer not found in mappings", [])).
Proof.
  assert (Hid : forall mappings name config mappings',
            getPrinterConfig mappings name = Ok (Some config, mappings') ->
            id config = name /\ mapped (lookupMapping mappings name) = true).
  { intros mappings name config mappings' H. unfold getPrinterConfig in H.
    destruct (lookupMapping mappings name) as [v|inh|] eqn:Hl; cbn [mapped].
    - destruct v as [| b | n | s | items | fields]; cbn [truthy] in H |- *; cbv iota in H;
        repeat match type of H with
               | context [if ?c then _ else _] => destruct c eqn:?
               | context [match ?c with _ => _ end] => destruct c eqn:?
               end; try discriminate H;
        injection H as <- _; split; try reflexivity; assumption.
    - destruct (String.eqb inh "__proto__"); [|discriminate H].
      injection H as <- _. split; reflexivity.
    - discriminate H. }
  assert (Hnot : forall mappings name message,
            getPrinterConfig mappings name = Throw message ->
            message = "addressString.split is not a function").
  { intros mappings name message H. unfold getPrinterConfig in H.
    destruct (lookupMapping mappings name) as [v|inh|];
      [destruct v as [| b | n | s | items | fields]| |]; cbn [truthy] in H; cbv iota in H;
      repeat match type of H with
             | context [if ?c then _ else _] => destruct c
             | context [match ?c with _ => _ end] => destruct c
             end; try discriminate H; injection H as <-; reflexivity. }
  split; [|split].
  - intros target config mappings' H. unfold choosePrinter in H.
    destruct (String.eqb_spec printerId "") as [->|Hne]; [discriminate H|].
    split; [exact Hne|].
    destruct (mapped (lookupMapping printerMappings printerId)) eqn:Hm.
    + destruct (getPrinterConfig printerMappings printerId) as [[[cfg|] m]|msg] eqn:Hg;
        try discriminate H.
      injection H as <- <- <-. destruct (Hid _ _ _ _ Hg) as [Hi Hmap].
      split; [exact Hi|]. split; [exact Hm|]. split; [reflexivity|]. discriminate.
    + destruct (defaultPrinterId printerMappings job) as [d|] eqn:Hd; [|discriminate H].
      destruct (String.eqb_spec d "") as [->|Hdne]; [discriminate H|].
      destruct (getPrinterConfig printerMappings d) as [[[cfg|] m]|msg] eqn:Hg;
        try discriminate H.
      injection H as <- <- <-. destruct (Hid _ _ _ _ Hg) as [Hi Hmap].
      split; [exact Hi|]. split; [exact Hmap|]. split; [discriminate|].
      intros _ toKitchen toReceipt. unfold defaultPrinterId in Hd.
      fold toKitchen in Hd. fold toReceipt in Hd.
      destruct toKitchen; [injection Hd as <-; repeat split; intros; congruence|].
      destruct toReceipt; [injection Hd as <-; repeat split; intros; congruence|].
      repeat split; intros; congruence.
  - intros first value rest -> Hfirst Hne H. unfold choosePrinter in H.
    destruct (String.eqb_spec printerId ""); [contradiction|].
    destruct (mapped (lookupMapping ((first, value) :: rest) printerId)).
    + cbn [fst] in H.
      destruct (getPrinterConfig ((first, value) :: rest) printerId) as [[[cfg|] m]|msg] eqn:Hg;
        cbn [fst] in H; try discriminate H.
      injection H as H. rewrite (Hnot _ _ _ Hg) in H. discriminate H.
    + unfold defaultPrinterId in H. cbn [firstKey] in H.
      destruct (contentTypeIs job "KOT" && mapped (lookupMapping ((first, value) :: rest) "kitchen")).
      { cbn [String.eqb Ascii.eqb Bool.eqb andb fst] in H.
        destruct (getPrinterConfig ((first, value) :: rest) "kitchen") as [[[cfg|] m]|msg] eqn:Hg;
          cbn [fst] in H; try discriminate H.
        injection H as H. rewrite (Hnot _ _ _ Hg) in H. discriminate H. }
      destruct (contentTypeIs job "BILL" && mapped (lookupMapping ((first, value) :: rest) "receipt")).
      { cbn [String.eqb Ascii.eqb Bool.eqb andb fst] in H.
        destruct (getPrinterConfig ((first, value) :: rest) "receipt") as [[[cfg|] m]|msg] eqn:Hg;
          cbn [fst] in H; try discriminate H.
        injection H as H. rewrite (Hnot _ _ _ Hg) in H. discriminate H. }
      destruct (String.eqb_spec first ""); [contradiction|].
      destruct (getPrinterConfig ((first, value) :: rest) first) as [[[cfg|] m]|msg] eqn:Hg;
        cbn [fst] in H; try discriminate H.
      injection H as H. rewrite (Hnot _ _ _ Hg) in H. discriminate H.
  - intros -> Hne Hinh. unfold choosePrinter.
    destruct (String.eqb_spec printerId ""); [contradiction|].
    unfold lookupMapping, defaultPrinterId. cbn [getProperty find fmap option_fmap option_map].
    rewrite Hinh. cbn [mapped inherited existsb objectPrototypeKeys].
    cbn. rewrite !andb_false_r. reflexivity.
Qed.

End AgentFacts.

(** ** The table columns of src/unnamed/part_000 *)

Module TableFacts.
Import JsString BillLayout Table.
Local Open Scope string_scope.

Lemma length_trimStart s : (String.length (trimStart s) <= String.length s)%nat.
Proof.
  induction s as [|c s IH]; [reflexivity|]. cbn [trimStart].
  destruct (isSpace c); cbn [String.length]; lia.
Qed.

Lemma length_trimEnd s : (String.length (trimEnd s) <= String.length s)%nat.
Proof.
  induction s as [|c s IH]; [reflexivity|]. cbn [trimEnd].
  destruct (trimEnd s) as [|d r].
  - destruct (isSpace c); cbn [String.length]; lia.
  - cbn [String.length] in *. lia.
Qed.

Lemma len_trim_le s : (len (trim s) <= len s)%Z.
Proof.
  unfold len, trim. pose proof (length_trimEnd (trimStart s)).
  pose proof (length_trimStart s). lia.
Qed.

Lemma len_substringFrom s k :
  (1 <= k)%Z -> (0 < len s)%Z -> (len (substringFrom s k) < len s)%Z.
Proof.
  intros Hk Hs. rewrite WidthFacts.substringFrom_clamped. unfold len in *.
  rewrite WidthFacts.length_substring.
  assert (1 <= clamp s k)%nat by (unfold clamp, len; lia).
  pose proof (WidthFacts.clamp_le s k). lia.
Qed.

(** The inner loop ends when the column is at least one character wide,
    and adds the pieces of the word. *)
Lemma splitLongWord_pieces width : forall fuel word lines,
  (1 <= width)%Z -> (String.length word < fuel)%nat ->
  splitLongWord fuel width word lines = Some (lines ++ pieces fuel width word)%list.
Proof.
  induction fuel as [|fuel IH]; intros word lines Hw Hfuel; [lia|].
  cbn [splitLongWord pieces]. destruct (Z.gtb_spec (len word) 0) as [Hpos|Hzero].
  - rewrite IH.
    + rewrite <- app_assoc. reflexivity.
    + exact Hw.
    + pose proof (len_substringFrom word width Hw Hpos). unfold len in *. lia.
  - rewrite app_nil_r. reflexivity.
Qed.

Lemma pieces_spec width : forall fuel word,
  (1 <= width)%Z -> (String.length word < fuel)%nat ->
  String.concat "" (pieces fuel width word) = word /\
  Forall (fun piece => (0 < len piece <= width)%Z) (pieces fuel width word).
Proof.
  induction fuel as [|fuel IH]; intros word Hw Hfuel; [lia|].
  cbn [pieces]. destruct (Z.gtb_spec (len word) 0) as [Hpos|Hzero].
  - destruct (IH (substringFrom word width) Hw) as [Hcat Hall].
    { pose proof (len_substringFrom word width Hw Hpos). unfold len in *. lia. }
    split.
    + rewrite WidthFacts.concat_cons_chunk, Hcat. apply WidthFacts.substring_split.
    + constructor; [|exact Hall]. rewrite WidthFacts.len_substring by lia. lia.
  - split; [|constructor]. cbn [String.concat].
    unfold len in Hzero. destruct word; [reflexivity | cbn in Hzero; lia].
Qed.

Lemma splitSpaces_lengths text :
  Forall (fun word => (String.length word <= String.length text)%nat) (splitSpaces text).
Proof.
  induction text as [|c text IH]; cbn [splitSpaces].
  - constructor; [reflexivity | constructor].
  - destruct (Ascii.eqb c " ").
    + constructor; [cbn; lia|]. eapply Forall_impl; [exact IH|].
      intros w Hwl. cbn [String.length]. cbn beta in Hwl. lia.
    + destruct (splitSpaces text) as [|w ws];
        [constructor; [cbn [String.length]; lia | constructor]|].
      apply Forall_cons in IH as [Hw Hws]. constructor; [cbn [String.length]; lia|].
      eapply Forall_impl; [exact Hws|]. intros w' Hwl. cbn [String.length]. cbn beta in Hwl. lia.
Qed.

Lemma wrapWords_bound fuel width : forall words lines currentLine,
  (1 <= width)%Z ->
  Forall (fun word => (String.length word < fuel)%nat) words ->
  (len currentLine <= width)%Z ->
  Forall (fun line => (len line <= width)%Z) lines ->
  exists lines' currentLine',
    wrapWords fuel width words lines currentLine = Some (lines', currentLine') /\
    (len currentLine' <= width)%Z /\
    Forall (fun line => (len line <= width)%Z) lines'.
Proof.
  induction words as [|word rest IH]; intros lines currentLine Hw Hfuel Hcur Hlines.
  - exists lines, currentLine. repeat split; assumption.
  - apply Forall_cons in Hfuel as [Hword Hrest]. cbn [wrapWords].
    assert (Hpush : forall line, (len line <= width)%Z ->
              Forall (fun line => (len line <= width)%Z) (lines ++ [trim line])).
    { intros line Hl. apply Forall_app. split; [exact Hlines|].
      constructor; [|constructor]. pose proof (len_trim_le line). lia. }
    destruct (Z.gtb_spec (len currentLine + len word + 1) width) as [Hex|Hfit].
    + assert (Hlines1 : Forall (fun line => (len line <= width)%Z)
                          (if (len currentLine >? 0)%Z
                           then (lines ++ [trim currentLine])%list else lines)).
      { destruct (len currentLine >? 0)%Z; [apply Hpush; exact Hcur | exact Hlines]. }
      destruct (Z.gtb_spec (len word) width) as [Hlong|Hshort].
      * rewrite splitLongWord_pieces by assumption.
        apply IH; try assumption.
        apply Forall_app. split; [exact Hlines1|].
        destruct (pieces_spec width fuel word Hw Hword) as [_ Hall].
        eapply Forall_impl; [exact Hall|]. intros p Hp. cbn beta in Hp. lia.
      * apply IH; assumption.
    + set (currentLine1 := currentLine ++ (if (len currentLine =? 0)%Z then "" else " ") ++ word).
      assert (Hcur1 : (len currentLine1 <= width)%Z).
      { subst currentLine1. rewrite !WidthFacts.len_append.
        destruct (len currentLine =? 0)%Z; unfold len at 2; cbn [String.length]; lia. }
      match goal with
      | |- context [if ?flush then _ else _] => destruct flush
      end.
      * apply IH; try assumption; [unfold len; cbn; lia | apply Hpush; exact Hcur1].
      * apply IH; assumption.
Qed.

(** X21: in a column at least one character wide wrapColumnText returns,
    and none of its lines is longer than the column. *)
Theorem wrapColumnText_fits (text : string) (width : Z) :
  (1 <= width)%Z ->
  exists lines,
    wrapColumnText (S (String.length text)) text width = Some lines /\
    Forall (fun line => (len line <= width)%Z) lines.
Proof.
  intros Hw. unfold wrapColumnText.
  destruct (String.eqb text "").
  { exists [""]. split; [reflexivity|]. constructor; [unfold len; cbn; lia | constructor]. }
  destruct (wrapWords_bound (S (String.length text)) width (splitSpaces text) [] "")
    as (lines & cur & Hrun & Hcur & Hlines).
  - exact Hw.
  - eapply Forall_impl; [apply splitSpaces_lengths|]. intros w Hwl. cbn beta in Hwl. lia.
  - unfold len. cbn. lia.
  - constructor.
  - rewrite Hrun. eexists. split; [reflexivity|].
    destruct (len cur >? 0)%Z; [|exact Hlines].
    apply Forall_app. split; [exact Hlines|]. constructor; [|constructor].
    pose proof (len_trim_le cur). lia.
Qed.

Lemma wrapColumnText_fits_witness :
  exists lines,
    wrapColumnText (S (String.length "Paneer Butter Masala")) "Paneer Butter Masala" 18
    = Some lines /\
    Forall (fun line => (len line <= 18)%Z) lines.
Proof. apply (wrapColumnText_fits "Paneer Butter Masala" 18). lia. Defined.

Lemma noSpace_cons c s :
  noSpace (String c s) = true -> isSpace c = false /\ Ascii.eqb c " " = false /\ noSpace s = true.
Proof.
  cbn [noSpace]. intros H. apply andb_true_iff in H as [Hc Hs].
  apply negb_true_iff in Hc. repeat split; try assumption.
  destruct (Ascii.eqb_spec c " ") as [->|_]; [discriminate Hc | reflexivity].
Qed.

Lemma splitSpaces_noSpace w : noSpace w = true -> splitSpaces w = [w].
Proof.
  induction w as [|c w IH]; intros H; [reflexivity|].
  destruct (noSpace_cons c w H) as (_ & Hc & Hw).
  cbn [splitSpaces]. rewrite Hc, (IH Hw). reflexivity.
Qed.

Lemma splitSpaces_append a b :
  noSpace a = true -> splitSpaces (a ++ " " ++ b) = a :: splitSpaces b.
Proof.
  induction a as [|c a IH]; intros H.
  - rewrite JsFacts.append_nil_l. change (" " ++ b) with (String " " b).
    cbn [splitSpaces]. rewrite Ascii.eqb_refl. reflexivity.
  - destruct (noSpace_cons c a H) as (_ & Hc & Ha).
    rewrite JsFacts.append_cons. cbn [splitSpaces]. rewrite Hc, (IH Ha). reflexivity.
Qed.

Lemma len_positive_nonempty s : (0 < len s)%Z -> String.eqb s "" = false.
Proof. destruct s; [unfold len; cbn; lia | reflexivity]. Qed.

Lemma gtb_true a b : (b < a)%Z -> (a >? b)%Z = true.
Proof. intros H. destruct (Z.gtb_spec a b); [reflexivity | lia]. Qed.

Lemma gtb_false a b : (a <= b)%Z -> (a >? b)%Z = false.
Proof. intros H. destruct (Z.gtb_spec a b); [lia | reflexivity]. Qed.

(** A word that does not fit behind the current line, and fits in the
    column, becomes the current line. *)
Lemma wrapWords_next_line fuel width word rest lines currentLine :
  (width < len currentLine + len word + 1)%Z -> (len word <= width)%Z ->
  wrapWords fuel width (word :: rest) lines currentLine
  = wrapWords fuel width rest
      (if (len currentLine >? 0)%Z then (lines ++ [trim currentLine])%list else lines) word.
Proof.
  intros H1 H2. cbn [wrapWords]. rewrite (gtb_true _ _ H1), (gtb_false _ _ H2). reflexivity.
Qed.

(** A word longer than the column is cut behind the current line, which
    stays what it was. *)
Lemma wrapWords_long_word fuel width word rest lines currentLine :
  (1 <= width)%Z -> (width < len word)%Z -> (String.length word < fuel)%nat ->
  wrapWords fuel width (word :: rest) lines currentLine
  = wrapWords fuel width rest
      ((if (len currentLine >? 0)%Z then (lines ++ [trim currentLine])%list else lines)
       ++ pieces fuel width word)%list currentLine.
Proof.
  intros Hw H1 Hfuel. cbn [wrapWords].
  pose proof (WidthFacts.len_nonneg currentLine).
  rewrite (gtb_true (len currentLine + len word + 1) width) by lia.
  rewrite (gtb_true _ _ H1), splitLongWord_pieces by assumption. reflexivity.
Qed.

(** X22: wrapColumnText prints a word twice. When a word exactly as wide
    as the column is followed by a longer word, the first word becomes
    the current line without being written out, the longer word is cut
    into pieces behind it, and the current line, which the cutting does
    not reset, is written out a second time at the end: the lines are the
    first word, the pieces of the second, and the first word again. *)
Theorem wrapColumnText_repeats_word (first long : string) (width : Z) (fuel : nat) :
  noSpace first = true -> noSpace long = true ->
  (1 <= width)%Z -> len first = width -> (width < len long)%Z ->
  (String.length long < fuel)%nat ->
  wrapColumnText fuel (first ++ " " ++ long) width
  = Some ([first] ++ pieces fuel width long ++ [first])%list /\
  String.concat "" (pieces fuel width long) = long.
Proof.
  intros Hf Hl Hw Hlen Hlong Hfuel.
  split; [|apply pieces_spec; assumption].
  unfold wrapColumnText.
  assert (Hne : String.eqb (first ++ " " ++ long) "" = false).
  { apply len_positive_nonempty. rewrite WidthFacts.len_append.
    pose proof (WidthFacts.len_nonneg (" " ++ long)). lia. }
  rewrite Hne, (splitSpaces_append first long Hf), (splitSpaces_noSpace long Hl).
  rewrite wrapWords_next_line by (change (len "") with 0%Z; lia).
  rewrite wrapWords_long_word by assumption.
  cbn [wrapWords]. change (len "") with 0%Z.
  rewrite (gtb_false 0 0) by lia.
  rewrite (gtb_true (len first) 0) by lia.
  rewrite (LayoutFacts.trim_noSpace first Hf).
  reflexivity.
Qed.

Lemma wrapColumnText_repeats_word_witness :
  wrapColumnText 7 ("abcd" ++ " " ++ "efghij") 4
  = Some (["abcd"] ++ pieces 7 4 "efghij" ++ ["abcd"])%list /\
  String.concat "" (pieces 7 4 "efghij") = "efghij".
Proof.
  apply (wrapColumnText_repeats_word "abcd" "efghij" 4 7);
    (reflexivity || (cbn; lia) || (unfold len; cbn; lia)).
Defined.

Lemma splitLongWord_stuck width word : forall fuel lines,
  (width <= 0)%Z -> (0 < len word)%Z -> splitLongWord fuel width word lines = None.
Proof.
  induction fuel as [|fuel IH]; intros lines Hw Hpos; [reflexivity|].
  cbn [splitLongWord]. destruct (Z.gtb_spec (len word) 0) as [_|?]; [|lia].
  replace (substringFrom word width) with word; [apply IH; assumption|].
  symmetry. rewrite WidthFacts.substringFrom_clamped, WidthFacts.clamp_below by exact Hw.
  rewrite Nat.sub_0_r. apply CacheFacts.substring_all.
Qed.

Lemma wrapWords_stuck fuel width : forall words lines currentLine,
  (width <= 0)%Z -> (exists word, In word words /\ word <> "") ->
  wrapWords fuel width words lines currentLine = None.
Proof.
  induction words as [|word rest IH]; intros lines currentLine Hw (w & Hin & Hne).
  - destruct Hin.
  - cbn [wrapWords].
    pose proof (WidthFacts.len_nonneg currentLine). pose proof (WidthFacts.len_nonneg word).
    destruct (Z.gtb_spec (len currentLine + len word + 1) width) as [_|?]; [|lia].
    destruct (string_dec word "") as [->|Hword].
    + assert (Hrest : exists word, In word rest /\ word <> "").
      { destruct Hin as [<-|Hin]; [contradiction|]. exists w. split; assumption. }
      change (len "") with 0%Z.
      destruct (Z.gtb_spec 0 width) as [Hneg|Hzero].
      * destruct fuel as [|fuel']; [reflexivity|].
        cbn [splitLongWord]. change (len "") with 0%Z. cbn [Z.gtb Z.compare].
        apply IH; assumption.
      * apply IH; assumption.
    + assert (Hpos : (0 < len word)%Z).
      { destruct word; [contradiction | unfold len; cbn; lia]. }
      destruct (Z.gtb_spec (len word) width) as [_|?]; [|lia].
      rewrite splitLongWord_stuck by assumption. reflexivity.
Qed.

(** X23: in a column of width zero or less wrapColumnText does not
    return. As soon as the text holds a word, the loop that cuts the word
    takes nothing off it and runs for ever: whatever the fuel, the model
    runs out of it. *)
Theorem wrapColumnText_never_returns (text : string) (width : Z) (fuel : nat) :
  (width <= 0)%Z -> (exists word, In word (splitSpaces text) /\ word <> "") ->
  wrapColumnText fuel text width = None.
Proof.
  intros Hw Hword. unfold wrapColumnText.
  destruct (String.eqb_spec text "") as [->|_].
  - destruct Hword as (w & [<-|[]] & Hne). contradiction.
  - rewrite wrapWords_stuck by assumption. reflexivity.
Qed.

Lemma wrapColumnText_never_returns_witness :
  wrapColumnText 1000 "Item" 0 = None.
Proof.
  apply (wrapColumnText_never_returns "Item" 0 1000); [lia|].
  exists "Item". split; [left; reflexivity | discriminate].
Defined.

(** A word that fits behind the current line is added to it; the line is
    written out when the word is the last one. *)
Lemma wrapWords_last_word fuel width word lines :
  (len word + 1 <= width)%Z ->
  wrapWords fuel width [word] lines "" = Some ((lines ++ [trim word])%list, "").
Proof.
  intros H. cbn [wrapWords]. change (len "") with 0%Z.
  rewrite (gtb_false (0 + len word + 1) width) by lia. reflexivity.
Qed.

(** A word that fits behind the current line, followed by a word that
    fits as well, is added to the line and the loop goes on. *)
Lemma wrapWords_same_line fuel width word nextWord rest lines currentLine :
  (len currentLine + len word + 1 <= width)%Z ->
  (len (currentLine ++ (if (len currentLine =? 0)%Z then "" else " ") ++ word)
   + len nextWord + 1 <= width)%Z ->
  wrapWords fuel width (word :: nextWord :: rest) lines currentLine
  = wrapWords fuel width (nextWord :: rest) lines
      (currentLine ++ (if (len currentLine =? 0)%Z then "" else " ") ++ word).
Proof.
  intros H1 H2. cbn [wrapWords].
  rewrite (gtb_false (len currentLine + len word + 1) width) by exact H1.
  cbv zeta. rewrite (gtb_false _ _ H2), andb_false_r. reflexivity.
Qed.

Lemma wrapColumnText_one_word fuel width w :
  noSpace w = true -> w <> "" -> (len w + 1 <= width)%Z ->
  wrapColumnText fuel w width = Some [w] /\
  wrapColumnText fuel (" " ++ w) width = Some [w].
Proof.
  intros Hn Hne Hfit. unfold wrapColumnText.
  assert (Hw : String.eqb w "" = false) by (destruct w; [contradiction | reflexivity]).
  pose proof (WidthFacts.len_nonneg w).
  split.
  - rewrite Hw, (splitSpaces_noSpace w Hn), wrapWords_last_word by exact Hfit.
    rewrite (LayoutFacts.trim_noSpace w Hn). reflexivity.
  - pose proof (splitSpaces_append "" w eq_refl) as Hs.
    rewrite JsFacts.append_nil_l, (splitSpaces_noSpace w Hn) in Hs. rewrite Hs.
    change (String.eqb (" " ++ w) "") with false. cbv iota.
    rewrite wrapWords_same_line
      by (change ("" ++ (if (len "" =? 0)%Z then "" else " ") ++ "") with "";
          change (len "") with 0%Z; lia).
    change ("" ++ (if (len "" =? 0)%Z then "" else " ") ++ "") with "".
    rewrite wrapWords_last_word by exact Hfit.
    rewrite (LayoutFacts.trim_noSpace w Hn). reflexivity.
Qed.

Lemma quantityString_word q :
  noSpace (quantityString q) = true /\ (1 <= len (quantityString q))%Z.
Proof.
  destruct q as [n|]; [|split; [reflexivity | unfold len; cbn; lia]].
  cbn [quantityString]. split; [apply LayoutFacts.numberToString_noSpace|].
  unfold numberToString. destruct (JsFacts.pretty_Z_shape n) as (d & _ & Hd & [->| ->]).
  - destruct d; [contradiction | unfold len; cbn [String.length]; lia].
  - unfold len; cbn [String.length]; lia.
Qed.

(** X24: the right alignment of the quantity is lost in the tables.
    formatKOTTable and formatBillTable pad the quantity to two characters
    before tableRow hands it to wrapColumnText, which splits the cell at
    spaces and trims its lines: in a column two or more characters wide
    the padded cell gives the lines of the unpadded one, and a quantity
    of one character comes back as that character alone. *)
Theorem quantity_padding_lost (q : option Z) (width : Z) (fuel : nat) :
  (2 <= width)%Z ->
  wrapColumnText fuel (padStart (quantityString q) 2) width
  = wrapColumnText fuel (quantityString q) width /\
  (len (quantityString q) = 1%Z ->
   padStart (quantityString q) 2 = " " ++ quantityString q /\
   wrapColumnText fuel (padStart (quantityString q) 2) width = Some [quantityString q]).
Proof.
  intros Hw. destruct (quantityString_word q) as [Hn Hlen].
  assert (Hone : len (quantityString q) = 1%Z ->
                 padStart (quantityString q) 2 = " " ++ quantityString q).
  { intros E. unfold padStart. rewrite E. reflexivity. }
  assert (Hne : (1 <= len (quantityString q))%Z -> quantityString q <> "").
  { intros H E. rewrite E in H. unfold len in H. cbn in H. lia. }
  split.
  - destruct (Z.eq_dec (len (quantityString q)) 1%Z) as [E|E].
    + rewrite (Hone E).
      destruct (wrapColumnText_one_word fuel width (quantityString q) Hn (Hne Hlen))
        as [-> ->]; [lia | reflexivity].
    + unfold padStart, spaces.
      replace (Z.to_nat (Z.max 0 (2 - len (quantityString q)))) with 0%nat by lia.
      reflexivity.
  - intros E. split; [exact (Hone E)|]. rewrite (Hone E).
    apply wrapColumnText_one_word; [exact Hn | exact (Hne Hlen) | lia].
Qed.

Lemma quantity_padding_lost_witness :
  wrapColumnText 5 (padStart (quantityString (Some 2%Z)) 2) 4
  = wrapColumnText 5 (quantityString (Some 2%Z)) 4 /\
  (len (quantityString (Some 2%Z)) = 1%Z ->
   padStart (quantityString (Some 2%Z)) 2 = " " ++ quantityString (Some 2%Z) /\
   wrapColumnText 5 (padStart (quantityString (Some 2%Z)) 2) 4
   = Some [quantityString (Some 2%Z)]).
Proof. apply (quantity_padding_lost (Some 2%Z) 4 5). lia. Defined.

End TableFacts.
